(** * KPIChecker: the classifier, the aggregator and the pattern configuration

    A shallow embedding of [kpichecker/kpi_checker.py] and
    [kpichecker/config.py], with the parts of the Python runtime they call
    ([re], [int], true division, [round], [json] files), and the properties
    of the specification stated over it.

    Layout: Python values and exceptions; text as code points; [int] on
    strings; the [re] fragment the patterns are written in; [Config];
    [KPIChecker]; then the theorems. *)

From Stdlib Require Import ZArith NArith List String Ascii Bool Lia Sorted.
From Stdlib Require Import Floats.SpecFloat.
From stdpp Require Import gmap strings list fin_maps.

Set Warnings "-register-all".
Set Default Proof Using "Type".

Open Scope Z_scope.

(** ** Text

    A Python [str] is a sequence of Unicode code points. Source literals
    are written as UTF-8 string literals and decoded once by [u]. *)

Definition codepoint := N.
Definition str := list codepoint.

Module Utf8.

Definition byte_of (a : ascii) : N := N_of_ascii a.

(* the six payload bits of a continuation byte 10xxxxxx *)
Definition cont (b : N) : N := N.land b 63.

Fixpoint decode_bytes (bs : list N) : str :=
  match bs with
  | [] => []
  | b0 :: r0 =>
      if (b0 <? 128)%N then b0 :: decode_bytes r0
      else if (b0 <? 224)%N then
        match r0 with
        | b1 :: r1 => (N.land b0 31 * 64 + cont b1)%N :: decode_bytes r1
        | [] => [b0]
        end
      else if (b0 <? 240)%N then
        match r0 with
        | b1 :: b2 :: r2 =>
            (N.land b0 15 * 4096 + cont b1 * 64 + cont b2)%N :: decode_bytes r2
        | _ => [b0]
        end
      else
        match r0 with
        | b1 :: b2 :: b3 :: r3 =>
            (N.land b0 7 * 262144 + cont b1 * 4096 + cont b2 * 64 + cont b3)%N
              :: decode_bytes r3
        | _ => [b0]
        end
  end.

Definition decode (s : string) : str :=
  decode_bytes (map byte_of (list_ascii_of_string s)).

End Utf8.

Abbreviation u := Utf8.decode.

Definition str_eqb (a b : str) : bool := bool_decide (a = b).

(** [s[i:j]] for [0 <= i <= j]. *)
Definition slice (s : str) (i j : nat) : str := firstn (j - i) (skipn i s).

(** ** Python values and exceptions *)

Inductive pyval :=
| PyNone
| PyBool (b : bool)
| PyInt (z : Z)
| PyStr (s : str)
| PyList (l : list pyval)
| PyDict (d : gmap string pyval).

Abbreviation pydict := (gmap string pyval).

Inductive exn :=
| ReError          (* re.error: the pattern is not a regular expression *)
| IndexError       (* match.group(n): no such group *)
| ValueError       (* int(): invalid literal *)
| TypeError
| AttributeError
| OverflowError
| NotModelled.     (* the pattern uses syntax outside the embedded fragment *)

Inductive outcome (A : Type) :=
| Ret (a : A)
| Raise (e : exn).
Arguments Ret {A} a.
Arguments Raise {A} e.

#[global] Instance outcome_ret : MRet outcome := fun A a => Ret a.

#[global] Instance outcome_bind : MBind outcome := fun A B k c =>
  match c with
  | Ret a => k a
  | Raise e => Raise e
  end.

#[global] Instance outcome_fmap : FMap outcome := fun A B f c =>
  match c with
  | Ret a => Ret (f a)
  | Raise e => Raise e
  end.

Fixpoint mapM {A B} (f : A -> outcome B) (l : list A) : outcome (list B) :=
  match l with
  | [] => Ret []
  | a :: r => b ← f a; bs ← mapM f r; Ret (b :: bs)
  end.

(** Truth value testing, [bool(v)]. *)
Definition truthy (v : pyval) : bool :=
  match v with
  | PyNone => false
  | PyBool b => b
  | PyInt z => negb (z =? 0)
  | PyStr s => match s with [] => false | _ => true end
  | PyList l => match l with [] => false | _ => true end
  | PyDict d => negb (bool_decide (d = ∅))
  end.

Definition isinstance_str (v : pyval) : bool :=
  match v with PyStr _ => true | _ => false end.

Definition isinstance_dict (v : pyval) : bool :=
  match v with PyDict _ => true | _ => false end.

(** [d.get(key)] and [d.get(key, default)]. *)
Definition dict_get (d : pydict) (key : string) (default : pyval) : pyval :=
  match d !! key with
  | Some v => v
  | None => default
  end.

(** ** Character tables of the interpreter

    [\d] in a pattern, [int] on a string and the stripping of white space
    all consult the same two Unicode tables. *)

Module Unicode.

(* Py_UNICODE_ISSPACE *)
Definition whitespace : list codepoint :=
  [9; 10; 11; 12; 13; 28; 29; 30; 31; 32; 133; 160; 5760; 8192; 8193; 8194;
   8195; 8196; 8197; 8198; 8199; 8200; 8201; 8202; 8232; 8233; 8239; 8287;
   12288]%N.

Definition isspace (c : codepoint) : bool := existsb (N.eqb c) whitespace.

(* The digit zero of every block of decimal digits (category Nd); the other
   nine digits of a block follow their zero. *)
Definition decimal_zeros : list codepoint :=
  [48; 1632; 1776; 1984; 2406; 2534; 2662; 2790; 2918; 3046; 3174; 3302;
   3430; 3558; 3664; 3792; 3872; 4160; 4240; 6112; 6160; 6470; 6608; 6784;
   6800; 6992; 7088; 7232; 7248; 42528; 43216; 43264; 43472; 43504; 43600;
   44016; 65296; 66720; 68912; 69734; 69872; 69942; 70096; 70384; 70736;
   70864; 71248; 71360; 71472; 71904; 72016; 72784; 73040; 73120; 92768;
   92864; 93008; 120782; 120792; 120802; 120812; 120822; 123200; 123632;
   125264; 130032]%N.

(* Py_UNICODE_TODECIMAL *)
Definition todecimal (c : codepoint) : option N :=
  match find (fun z => (z <=? c)%N && (c <? z + 10)%N) decimal_zeros with
  | Some z => Some (c - z)%N
  | None => None
  end.

Definition isdecimal (c : codepoint) : bool :=
  match todecimal c with Some _ => true | None => false end.

End Unicode.

(** ** [int(x)] *)

Definition ch (a : ascii) : codepoint := N_of_ascii a.
#[global] Arguments ch : simpl never.

Fixpoint lstrip (s : str) : str :=
  match s with
  | c :: r => if Unicode.isspace c then lstrip r else s
  | [] => []
  end.

Definition strip (s : str) : str := rev (lstrip (rev (lstrip s))).

(* Digits with single underscores between them; [sep] says that a digit
   must come next (at the start, and after an underscore). *)
Fixpoint int_digits (acc : Z) (sep : bool) (s : str) : option Z :=
  match s with
  | [] => if sep then None else Some acc
  | c :: r =>
      if (c =? ch "_")%N then
        if sep then None else int_digits acc true r
      else
        match Unicode.todecimal c with
        | Some d => int_digits (10 * acc + Z.of_N d) false r
        | None => None
        end
  end.

Definition int_of_str (s : str) : option Z :=
  match strip s with
  | c :: r =>
      if (c =? ch "-")%N then Z.opp <$> int_digits 0 true r
      else if (c =? ch "+")%N then int_digits 0 true r
      else int_digits 0 true (c :: r)
  | [] => None
  end.

Definition py_int (v : pyval) : outcome Z :=
  match v with
  | PyInt z => Ret z
  | PyBool b => Ret (if b then 1 else 0)
  | PyStr s =>
      match int_of_str s with
      | Some z => Ret z
      | None => Raise ValueError
      end
  | PyNone | PyList _ | PyDict _ => Raise TypeError
  end.

(** ** The [re] module

    Patterns are compiled from their source text to a syntax tree and
    matched by backtracking, greedy quantifiers first, as [re] does. The
    embedded fragment is the one the configured patterns are written in:
    literals, [\d] [\s] [\D] [\S], [.], classes [[...]], capturing and
    [(?:...)] groups, [|], and the greedy quantifiers [?] [*] [+] [{m}]
    [{m,n}]. A pattern that uses anything else compiles to [NotModelled]. *)

Module Re.

Inductive set_item :=
| SChar (c : codepoint)
| SRange (lo hi : codepoint)
| SDigit                      (* \d *)
| SNotDigit                   (* \D *)
| SSpace                      (* \s *)
| SNotSpace.                  (* \S *)

Inductive regex :=
| REmpty
| RLit (c : codepoint)
| RAny                                        (* . *)
| RIn (negate : bool) (items : list set_item) (* [...] and the categories *)
| RSeq (r1 r2 : regex)
| RAlt (r1 r2 : regex)
| RRep (lo : nat) (hi : option nat) (r : regex)
| RGroup (n : nat) (r : regex).               (* the n-th capturing group *)

Definition item_test (c : codepoint) (it : set_item) : bool :=
  match it with
  | SChar d => (c =? d)%N
  | SRange lo hi => (lo <=? c)%N && (c <=? hi)%N
  | SDigit => Unicode.isdecimal c
  | SNotDigit => negb (Unicode.isdecimal c)
  | SSpace => Unicode.isspace c
  | SNotSpace => negb (Unicode.isspace c)
  end.

Definition in_test (negate : bool) (items : list set_item) (c : codepoint) : bool :=
  xorb negate (existsb (item_test c) items).

(** Can the expression match the empty string? *)
Fixpoint nullable (r : regex) : bool :=
  match r with
  | REmpty => true
  | RLit _ | RAny | RIn _ _ => false
  | RSeq r1 r2 => nullable r1 && nullable r2
  | RAlt r1 r2 => nullable r1 || nullable r2
  | RRep lo _ r1 => (lo =? 0)%nat || nullable r1
  | RGroup _ r1 => nullable r1
  end.

(** *** Matching

    [marks] holds the span of every group that has taken part in the
    match so far, by group number. *)

Abbreviation marks := (gmap nat (nat * nat)).

(* what an attempt returns: end position, marks, the text after the end *)
Definition found : Type := nat * marks * str.

Definition cont : Type := str -> nat -> marks -> option found.

Definition below (n : nat) (hi : option nat) : bool :=
  match hi with
  | Some h => (n <? h)%nat
  | None => true
  end.

(* The greedy loop of a quantifier: [n] repetitions of [body] are done;
   one more is tried first, and the rest of the pattern only when that
   fails. A repetition that consumes nothing is not taken. *)
Fixpoint rep_loop (body : str -> nat -> marks -> cont -> option found)
  (lo : nat) (hi : option nat) (k : cont) (fuel n : nat)
  (rest : str) (i : nat) (mk : marks) {struct fuel} : option found :=
  let stop := if (lo <=? n)%nat then k rest i mk else None in
  match fuel with
  | O => stop
  | S fuel' =>
      if below n hi then
        match body rest i mk
                (fun rest' j mk' =>
                   if (j =? i)%nat then None
                   else rep_loop body lo hi k fuel' (S n) rest' j mk') with
        | Some f => Some f
        | None => stop
        end
      else stop
  end.

(* [rest] is the text from position [i] on; [k] is what remains to be
   matched after [r]. *)
Fixpoint rmatch (r : regex) (rest : str) (i : nat) (mk : marks) (k : cont)
  {struct r} : option found :=
  match r with
  | REmpty => k rest i mk
  | RLit c =>
      match rest with
      | d :: rest' => if (c =? d)%N then k rest' (S i) mk else None
      | [] => None
      end
  | RAny =>
      match rest with
      | d :: rest' => if (d =? 10)%N then None else k rest' (S i) mk
      | [] => None
      end
  | RIn negate items =>
      match rest with
      | d :: rest' => if in_test negate items d then k rest' (S i) mk else None
      | [] => None
      end
  | RSeq r1 r2 =>
      rmatch r1 rest i mk (fun rest' j mk' => rmatch r2 rest' j mk' k)
  | RAlt r1 r2 =>
      match rmatch r1 rest i mk k with
      | Some f => Some f
      | None => rmatch r2 rest i mk k
      end
  | RRep lo hi r1 =>
      rep_loop (rmatch r1) lo hi k (length rest) O rest i mk
  | RGroup n r1 =>
      rmatch r1 rest i mk (fun rest' j mk' => k rest' j (<[n := (i, j)]> mk'))
  end.

(** *** Compiling a pattern *)

Definition esc_category (c : codepoint) : option set_item :=
  if (c =? ch "d")%N then Some SDigit
  else if (c =? ch "D")%N then Some SNotDigit
  else if (c =? ch "s")%N then Some SSpace
  else if (c =? ch "S")%N then Some SNotSpace
  else None.

Definition esc_char (c : codepoint) : option codepoint :=
  if (c =? ch "n")%N then Some 10%N
  else if (c =? ch "t")%N then Some 9%N
  else if (c =? ch "r")%N then Some 13%N
  else if (c =? ch "f")%N then Some 12%N
  else if (c =? ch "v")%N then Some 11%N
  else if (c =? ch "a")%N then Some 7%N
  else None.

Definition ascii_alnum (c : codepoint) : bool :=
  ((48 <=? c) && (c <=? 57) || (65 <=? c) && (c <=? 90)
   || (97 <=? c) && (c <=? 122))%N.

(* the character after a backslash, as a set item *)
Definition escape (c : codepoint) : outcome set_item :=
  match esc_category c with
  | Some it => Ret it
  | None =>
      match esc_char c with
      | Some d => Ret (SChar d)
      | None => if ascii_alnum c then Raise NotModelled else Ret (SChar c)
      end
  end.

Definition atom_of_item (it : set_item) : regex :=
  match it with
  | SChar c => RLit c
  | _ => RIn false [it]
  end.

(* the items of a class, after [[] and an optional [^], up to []] *)
Fixpoint parse_class (s : str) (acc : list set_item) {struct s}
  : outcome (list set_item * str) :=
  match s with
  | [] => Raise ReError
  | c :: r =>
      if (c =? ch "]")%N then
        match acc with
        | [] => Raise NotModelled
        | _ => Ret (rev acc, r)
        end
      else if (c =? ch "[")%N then Raise NotModelled
      else if (c =? ch "\")%N then
        match r with
        | [] => Raise ReError
        | e :: r' =>
            it ← escape e;
            match r' with
            | d :: _ => if (d =? ch "-")%N then Raise NotModelled
                        else parse_class r' (it :: acc)
            | [] => Raise ReError
            end
        end
      else
        match r with
        | d :: h :: r' =>
            if (d =? ch "-")%N then
              if (h =? ch "]")%N then Ret (rev (SChar d :: SChar c :: acc), r')
              else if (h =? ch "\")%N || (h =? ch "[")%N then Raise NotModelled
              else if (h <? c)%N then Raise ReError
              else parse_class r' (SRange c h :: acc)
            else parse_class r (SChar c :: acc)
        | _ => parse_class r (SChar c :: acc)
        end
  end.

Fixpoint read_nat (s : str) (acc : option nat) : option nat * str :=
  match s with
  | c :: r =>
      if ((48 <=? c) && (c <=? 57))%N then
        read_nat r (Some (10 * default O acc + N.to_nat (c - 48))%nat)
      else (acc, s)
  | [] => (acc, s)
  end.

(* [{m}], [{m,n}], [{m,}], [{,n}] after the brace *)
Definition parse_braces (s : str) : outcome (nat * option nat * str) :=
  let '(lo, s1) := read_nat s None in
  let '(comma, (hi, s2)) :=
    match s1 with
    | c :: r => if (c =? ch ",")%N then (true, read_nat r None)
                else (false, (lo, s1))
    | [] => (false, (lo, s1))
    end in
  match s2 with
  | c :: r =>
      if (c =? ch "}")%N then
        match lo, hi, comma with
        | None, None, false => Raise NotModelled
        | _, _, _ =>
            let m := default O lo in
            match hi with
            | Some h => if (h <? m)%nat then Raise ReError
                        else Ret (m, Some h, r)
            | None => Ret (m, None, r)
            end
        end
      else Raise NotModelled
  | [] => Raise NotModelled
  end.

(* an optional greedy quantifier *)
Definition parse_quant (s : str) : outcome (option (nat * option nat) * str) :=
  '(q, s1) ←
    match s with
    | c :: r =>
        if (c =? ch "*")%N then Ret (Some (O, None), r)
        else if (c =? ch "+")%N then Ret (Some (1%nat, None), r)
        else if (c =? ch "?")%N then Ret (Some (O, Some 1%nat), r)
        else if (c =? ch "{")%N then
          '(lo, hi, r') ← parse_braces r; Ret (Some (lo, hi), r')
        else Ret (None, s)
    | [] => Ret (None, s)
    end;
  match q, s1 with
  | Some _, c :: _ =>
      if (c =? ch "*")%N then Raise ReError
      else if (c =? ch "?")%N || (c =? ch "+")%N || (c =? ch "{")%N
      then Raise NotModelled
      else Ret (q, s1)
  | _, _ => Ret (q, s1)
  end.

Definition mkseq (r1 r2 : regex) : regex :=
  match r1 with
  | REmpty => r2
  | _ => RSeq r1 r2
  end.

Definition expect_close (x : regex * str * nat) : outcome (regex * str * nat) :=
  let '(r, s, g) := x in
  match s with
  | c :: s' => if (c =? ch ")")%N then Ret (r, s', g) else Raise ReError
  | [] => Raise ReError
  end.

(* [g] counts the groups opened so far; a group is numbered when it opens *)
Fixpoint parse_alt (fuel : nat) (s : str) (g : nat) {struct fuel}
  : outcome (regex * str * nat) :=
  match fuel with
  | O => Raise NotModelled
  | S fuel' =>
      let parse_atom (c : codepoint) (r : str) (g : nat)
        : outcome (regex * str * nat) :=
        if (c =? ch "(")%N then
          match r with
          | q :: r1 =>
              if (q =? ch "?")%N then
                match r1 with
                | d :: r2 =>
                    if (d =? ch ":")%N then
                      x ← parse_alt fuel' r2 g; expect_close x
                    else Raise NotModelled
                | [] => Raise ReError
                end
              else
                x ← parse_alt fuel' r (S g);
                '(e, s', g') ← expect_close x;
                Ret (RGroup (S g) e, s', g')
          | [] => Raise ReError
          end
        else if (c =? ch "[")%N then
          match r with
          | d :: r1 =>
              if (d =? ch "^")%N then
                '(items, s') ← parse_class r1 []; Ret (RIn true items, s', g)
              else
                '(items, s') ← parse_class r []; Ret (RIn false items, s', g)
          | [] => Raise ReError
          end
        else if (c =? ch "\")%N then
          match r with
          | e :: s' => it ← escape e; Ret (atom_of_item it, s', g)
          | [] => Raise ReError
          end
        else if (c =? ch ".")%N then Ret (RAny, r, g)
        else if (c =? ch "^")%N || (c =? ch "$")%N || (c =? ch "{")%N
        then Raise NotModelled
        else if (c =? ch "*")%N || (c =? ch "+")%N || (c =? ch "?")%N
        then Raise ReError
        else Ret (RLit c, r, g) in
      '(x, s1, g1) ←
        (fix parse_seq (n : nat) (acc : regex) (s : str) (g : nat) {struct n}
           : outcome (regex * str * nat) :=
           match n, s with
           | _, [] => Ret (acc, [], g)
           | O, _ => Raise NotModelled
           | S n', c :: r =>
               if (c =? ch ")")%N || (c =? ch "|")%N then Ret (acc, s, g)
               else
                 '(a, s1, g1) ← parse_atom c r g;
                 '(q, s2) ← parse_quant s1;
                 match q with
                 | None => parse_seq n' (mkseq acc a) s2 g1
                 | Some (lo, hi) =>
                     if nullable a then Raise NotModelled
                     else parse_seq n' (mkseq acc (RRep lo hi a)) s2 g1
                 end
           end) (length s) REmpty s g;
      match s1 with
      | c :: s2 =>
          if (c =? ch "|")%N then
            '(y, s3, g2) ← parse_alt fuel' s2 g1; Ret (RAlt x y, s3, g2)
          else Ret (x, s1, g1)
      | [] => Ret (x, s1, g1)
      end
  end.

(** One attempt at position [i]; a scanner that has just returned an empty
    match asks for the next one to advance. *)
Definition accept (start : nat) (must_advance : bool) : cont :=
  fun rest j mk =>
    if must_advance && (j =? start)%nat then None else Some (j, mk, rest).

Definition match_at (r : regex) (rest : str) (i : nat) (must_advance : bool)
  : option found :=
  rmatch r rest i ∅ (accept i must_advance).

(** [pattern.search(text, pos)]: the first position from [i] on where an
    attempt succeeds; only the attempt at [i] itself must advance. *)
Fixpoint search (r : regex) (rest : str) (i : nat) (must_advance : bool)
  : option (nat * found) :=
  match match_at r rest i must_advance with
  | Some f => Some (i, f)
  | None =>
      match rest with
      | [] => None
      | _ :: rest' => search r rest' (S i) false
      end
  end.

(** *** Match objects *)

Record Match := {
  m_string : str;            (* the text searched *)
  m_start : nat;
  m_end : nat;
  m_marks : marks;
  m_ngroups : nat            (* number of groups of the pattern *)
}.

(** [match.group(n)] *)
Definition group (m : Match) (n : nat) : outcome pyval :=
  match n with
  | O => Ret (PyStr (slice (m_string m) (m_start m) (m_end m)))
  | S _ =>
      if (n <=? m_ngroups m)%nat then
        match m_marks m !! n with
        | Some (a, b) => Ret (PyStr (slice (m_string m) a b))
        | None => Ret PyNone
        end
      else Raise IndexError
  end.
#[global] Arguments group : simpl never.

Record Pattern := {
  p_code : regex;
  p_groups : nat
}.

(** [pattern.finditer(text)]: the successive matches of a scanner, each
    search starting where the previous match ended. *)
Fixpoint scan (fuel : nat) (p : Pattern) (text rest : str) (i : nat)
  (must_advance : bool) : list Match :=
  match fuel with
  | O => []
  | S fuel' =>
      match search (p_code p) rest i must_advance with
      | None => []
      | Some (st, (en, mk, rest')) =>
          {| m_string := text; m_start := st; m_end := en; m_marks := mk;
             m_ngroups := p_groups p |}
            :: scan fuel' p text rest' en (en =? st)%nat
      end
  end.

Definition finditer (p : Pattern) (text : str) : list Match :=
  scan (2 * length text + 3) p text text 0 false.

(** [re.compile(pattern)] for a pattern given as text *)
Definition compile (src : str) : outcome Pattern :=
  '(x, rest, g) ← parse_alt (S (length src)) src O;
  match rest with
  | [] => Ret {| p_code := x; p_groups := g |}
  | _ :: _ => Raise ReError
  end.

(** *** What an attempt goes through

    [path r s i mk s' j mk'] says, without the continuation, that [r] can
    take the text [s] at position [i], with marks [mk], to the text [s'] at
    position [j] with marks [mk']. *)

Definition step : Type := str -> nat -> marks -> str -> nat -> marks -> Prop.

(** [n] repetitions in a row, each consuming something. *)
Inductive iter (R : step) : nat -> step :=
| iter_O s i mk : iter R O s i mk s i mk
| iter_S n s i mk s1 j1 mk1 s2 j2 mk2 :
    R s i mk s1 j1 mk1 -> j1 <> i ->
    iter R n s1 j1 mk1 s2 j2 mk2 ->
    iter R (S n) s i mk s2 j2 mk2.

Definition at_most (n : nat) (hi : option nat) : Prop :=
  match hi with
  | Some h => (n <= h)%nat
  | None => True
  end.

Fixpoint path (r : regex) : step :=
  fun s i mk s' j mk' =>
    match r with
    | REmpty => s' = s /\ j = i /\ mk' = mk
    | RLit c => s = c :: s' /\ j = S i /\ mk' = mk
    | RAny => exists d, d <> 10%N /\ s = d :: s' /\ j = S i /\ mk' = mk
    | RIn negate items =>
        exists d, in_test negate items d = true /\ s = d :: s' /\ j = S i /\ mk' = mk
    | RSeq r1 r2 =>
        exists s1 j1 mk1, path r1 s i mk s1 j1 mk1 /\ path r2 s1 j1 mk1 s' j mk'
    | RAlt r1 r2 => path r1 s i mk s' j mk' \/ path r2 s i mk s' j mk'
    | RRep lo hi r1 =>
        exists n, (lo <= n)%nat /\ at_most n hi /\ iter (path r1) n s i mk s' j mk'
    | RGroup n r1 =>
        exists mk1, path r1 s i mk s' j mk1 /\ mk' = <[n := (i, j)]> mk1
    end.

(** *** Groups that always capture digits

    [sets_digits n r] is a check on the syntax: every way through [r]
    leaves in group [n] a non-empty run of decimal digits. *)

Fixpoint mentions (n : nat) (r : regex) : bool :=
  match r with
  | REmpty | RLit _ | RAny | RIn _ _ => false
  | RSeq r1 r2 | RAlt r1 r2 => mentions n r1 || mentions n r2
  | RRep _ _ r1 => mentions n r1
  | RGroup m r1 => (m =? n)%nat || mentions n r1
  end.

Definition digit_run (r : regex) : bool :=
  match r with
  | RRep lo _ (RIn false [SDigit]) => (1 <=? lo)%nat
  | _ => false
  end.

Fixpoint sets_digits (n : nat) (r : regex) : bool :=
  match r with
  | REmpty | RLit _ | RAny | RIn _ _ => false
  | RSeq r1 r2 => sets_digits n r1 && negb (mentions n r2) || sets_digits n r2
  | RAlt r1 r2 => sets_digits n r1 && sets_digits n r2
  | RRep lo _ r1 => (1 <=? lo)%nat && sets_digits n r1
  | RGroup m r1 => if (m =? n)%nat then digit_run r1 else sets_digits n r1
  end.

(** Group [n] holds a non-empty run of decimal digits of [text]. *)
Definition digits_at (text : str) (mk : marks) (n : nat) : Prop :=
  exists a b,
    mk !! n = Some (a, b)
    /\ slice text a b <> []
    /\ Forall (fun c => Unicode.isdecimal c = true) (slice text a b).

Definition sound (body : str -> nat -> marks -> cont -> option found) (R : step) : Prop :=
  forall s i mk k f,
    body s i mk k = Some f ->
    exists s' j mk', R s i mk s' j mk' /\ k s' j mk' = Some f.

End Re.

(** ** Floating point: [a / b] on integers and [round(x, 2)]

    A Python [float] is an IEEE 754 binary64 number; both operations are
    correctly rounded, ties to even. *)

Module Float.

Definition prec : Z := 53.
Definition emax : Z := 1024.

Definition of_int (z : Z) : spec_float :=
  match z with
  | Z0 => S754_zero false
  | Zpos p => S754_finite false p 0
  | Zneg p => S754_finite true p 0
  end.

(** [float(z)]: the float nearest to the integer. *)
Definition from_int (z : Z) : spec_float := binary_normalize prec emax z 0 false.

Definition is_infinite (x : spec_float) : bool :=
  match x with S754_infinity _ => true | _ => false end.

(** [a / b] for integers, [b] not zero: the float nearest to the exact
    quotient. *)
Definition truediv (a b : Z) : outcome spec_float :=
  let q := SFdiv prec emax (of_int a) (of_int b) in
  if is_infinite q then Raise OverflowError else Ret q.

(** The integer nearest to [a / b] for [0 <= a] and [0 < b], ties to even. *)
Definition div_nearest_even (a b : Z) : Z :=
  let q := a / b in
  let r := a mod b in
  match 2 * r ?= b with
  | Lt => q
  | Gt => q + 1
  | Eq => if Z.even q then q else q + 1
  end.

(** The integer nearest to [|x| * 100] for the finite [x = m * 2^e]. *)
Definition hundredths (m : positive) (e : Z) : Z :=
  if 0 <=? e then Zpos m * 2 ^ e * 100
  else div_nearest_even (Zpos m * 100) (2 ^ (- e)).

(** [round(x, 2)] for a float: the exact value is rounded to two decimal
    places, and the decimal result is read back as the nearest float. *)
Definition round2 (x : spec_float) : outcome spec_float :=
  match x with
  | S754_finite s m e =>
      match hundredths m e with
      | Zpos n =>
          let y := SFdiv prec emax (S754_finite s n 0) (S754_finite false 100 0) in
          if is_infinite y then Raise OverflowError else Ret y
      | _ => Ret (S754_zero s)
      end
  | _ => Ret x
  end.

End Float.

(** A number as [analyze_results] reports it: the integer [0] or a float. *)
Inductive pynum :=
| NInt (z : Z)
| NFloat (x : spec_float).

(** ** [config.py]

    The state of a [Config] object is its [config] dictionary. (The copy
    kept in [default_config] is never read again.) *)

Module Config.

Definition default_kpi_patterns : list str :=
  [ u "(\d{4})年?第?[一二三四]季度KPI考核自评(\d{1,3})分";
    u "季度KPI考核自评(\d{1,3})分";
    u "KPI\s*自评得分\s*(\d{1,3})\s*分";
    u "自评得分\s*(\d{1,3})\s*分";
    u "KPI考核自评(\d{1,3})分" ].

Definition default_config : pydict :=
  <[ "check_last_paragraphs" := PyInt 10 ]>
  (<[ "kpi_patterns" := PyList (PyStr <$> default_kpi_patterns) ]>
  (<[ "report" := PyDict
        (<[ "default_format" := PyStr (u "excel") ]>
        (<[ "excel_filename" := PyStr (u "KPI检查报告.xlsx") ]>
        (<[ "txt_filename" := PyStr (u "KPI检查报告.txt") ]> ∅))) ]>
  (<[ "fixer" := PyDict
        (<[ "enabled" := PyBool false ]>
        (<[ "template" := PyStr (u "{year}年第{quarter}季度KPI考核自评__分。") ]> ∅)) ]>
   ∅))).

(** *** Files

    What [open] finds at a path, and what [json.load] makes of a file.
    [json.dump] followed by [json.load] gives back the value written (the
    values here are those JSON has, and text is taken to be encodable as
    UTF-8), so a file written by [json.dump] is kept as that value. *)

Inductive content :=
| Json (v : pyval)
| NotJson        (* text that is not JSON: json.JSONDecodeError *)
| NotText.       (* bytes that are not UTF-8: UnicodeDecodeError *)

Inductive node :=
| File (c : content)
| Directory.

Abbreviation fs := (gmap string node).

(** One turn of the loop of [load_config]. *)
Definition merge (key : string) (value : pyval) (config : pydict) : pydict :=
  match value, config !! key with
  | PyDict v, Some (PyDict old) => <[key := PyDict (v ∪ old)]> config
  | _, _ => <[key := value]> config
  end.

(** [load_config]: a file that cannot be opened or parsed is reported and
    leaves the configuration as it was. Only [json.JSONDecodeError] and
    [IOError] are caught: a JSON value that is not an object, or a file
    that is not text, raises. *)
Definition load_config (config_file : string) (disk : fs) (config : pydict)
  : outcome pydict :=
  match disk !! config_file with
  | Some (File (Json (PyDict user_config))) =>
      Ret (map_fold merge config user_config)
  | Some (File (Json _)) => Raise AttributeError
  | Some (File NotText) => Raise ValueError
  | Some (File NotJson) | Some Directory | None => Ret config
  end.

(** [save_config]: a path that cannot be opened for writing is reported
    and nothing is written. *)
Definition save_config (config_file : string) (config : pydict) (disk : fs) : fs :=
  match disk !! config_file with
  | Some Directory => disk
  | _ => <[config_file := File (Json (PyDict config))]> disk
  end.

(** [Config(config_file)] *)
Definition init (config_file : option string) (disk : fs) : outcome pydict :=
  match config_file with
  | Some path =>
      if negb (bool_decide (path = "")) && bool_decide (is_Some (disk !! path))
      then load_config path disk default_config
      else Ret default_config
  | None => Ret default_config
  end.

Definition get (key : string) (default : pyval) (config : pydict) : pyval :=
  dict_get config key default.

Definition set (key : string) (value : pyval) (config : pydict) : pydict :=
  <[key := value]> config.

Definition get_kpi_patterns (config : pydict) : pyval :=
  dict_get config "kpi_patterns" (PyList []).

(** [pattern == v] for a string [pattern] *)
Definition eq_str (pattern : str) (v : pyval) : bool :=
  match v with
  | PyStr s => str_eqb pattern s
  | _ => false
  end.

(** [add_kpi_pattern]. When the value under the key is a string or a
    dictionary, [in] is a substring or key test and [append] is missing:
    that case is left out. *)
Definition add_kpi_pattern (pattern : str) (config : pydict) : outcome pydict :=
  let config :=
    match config !! "kpi_patterns" with
    | None => <["kpi_patterns" := PyList []]> config
    | Some _ => config
    end in
  match config !! "kpi_patterns" with
  | Some (PyList l) =>
      if negb (existsb (eq_str pattern) l)
      then Ret (<["kpi_patterns" := PyList (l ++ [PyStr pattern])]> config)
      else Ret config
  | Some (PyStr _) | Some (PyDict _) => Raise NotModelled
  | _ => Raise TypeError
  end.

(** *** Notions used to state the properties of the configuration *)

(** The pattern list of a configuration: the list under [kpi_patterns],
    empty when the key is missing. *)
Definition patterns_list (config : pydict) : option (list pyval) :=
  match config !! "kpi_patterns" with
  | None => Some []
  | Some (PyList l) => Some l
  | Some _ => None
  end.

(** What [load_config] stores under a key, given the value in the file and
    the value the configuration had. *)
Definition merged (value : pyval) (old : option pyval) : pyval :=
  match value, old with
  | PyDict v, Some (PyDict o) => PyDict (v ∪ o)
  | _, _ => value
  end.

End Config.

(** ** [kpi_checker.py] *)

Module KPIChecker.

Record t := { patterns : pyval }.

(** [KPIChecker(config)] *)
Definition init (config : pydict) : t :=
  {| patterns := Config.get_kpi_patterns config |}.

(** A checker over a list of pattern texts. *)
Definition of_patterns (ps : list str) : t :=
  {| patterns := PyList (PyStr <$> ps) |}.

(** The dictionary returned when nothing is found. *)
Definition absent : pydict :=
  <[ "has_kpi_statement" := PyBool false ]>
  (<[ "score" := PyNone ]>
  (<[ "matching_pattern" := PyNone ]>
  (<[ "match_text" := PyNone ]>
  (<[ "year" := PyNone ]> ∅)))).

Definition verdict (score pattern match_text year : pyval) : pydict :=
  <[ "has_kpi_statement" := PyBool true ]>
  (<[ "score" := score ]>
  (<[ "matching_pattern" := pattern ]>
  (<[ "match_text" := match_text ]>
  (<[ "year" := year ]> ∅)))).

(** [for pattern in self.patterns] *)
Definition iterate (v : pyval) : outcome (list pyval) :=
  match v with
  | PyList l => Ret l
  | PyStr s => Ret ((fun c => PyStr [c]) <$> s)
  | PyDict _ => Raise NotModelled
  | PyNone | PyBool _ | PyInt _ => Raise TypeError
  end.

(** [re.compile(pattern)] *)
Definition re_compile (v : pyval) : outcome Re.Pattern :=
  match v with
  | PyStr s => Re.compile s
  | _ => Raise TypeError
  end.

(** [match.group(n)] for a group of the pattern is the text the group
    captured, or [None] when the group took no part in the match. *)
Definition capture (m : Re.Match) (n : nat) : pyval :=
  match Re.m_marks m !! n with
  | Some (a, b) => PyStr (slice (Re.m_string m) a b)
  | None => PyNone
  end.

(** The index of the group that [extract] reads the score from. *)
Definition score_group (i : nat) : nat := if (i =? 0)%nat then 2%nat else 1%nat.

(** The body of the inner loop, at the first match of pattern [i]. *)
Definition extract (self_patterns : list pyval) (i : nat) (m : Re.Match)
  : outcome pydict :=
  match_text ← Re.group m 0;
  if (i =? 0)%nat then
    year ← Re.group m 1;
    score ← Re.group m 2;
    match self_patterns !! i with
    | Some p => Ret (verdict score p match_text year)
    | None => Raise IndexError
    end
  else
    score ← Re.group m 1;
    match self_patterns !! i with
    | Some p => Ret (verdict score p match_text PyNone)
    | None => Raise IndexError
    end.

(** The outer loop from index [i] on. The first component lists the
    indices of the patterns that were searched in the text, in order. *)
Fixpoint check_from (self_patterns : list pyval) (i : nat)
  (compiled_patterns : list Re.Pattern) (text : str)
  : list nat * outcome pydict :=
  match compiled_patterns with
  | [] => ([], Ret absent)
  | pattern :: rest =>
      match Re.finditer pattern text with
      | m :: _ => ([i], extract self_patterns i m)
      | [] =>
          let '(searched, r) := check_from self_patterns (S i) rest text in
          (i :: searched, r)
      end
  end.

Definition check_text_trace (self : t) (text : pyval)
  : list nat * outcome pydict :=
  if negb (truthy text) || negb (isinstance_str text) then ([], Ret absent)
  else
    match text with
    | PyStr s =>
        match
          ps ← iterate (patterns self);
          compiled_patterns ← mapM re_compile ps;
          Ret (ps, compiled_patterns)
        with
        | Ret (ps, compiled_patterns) => check_from ps 0 compiled_patterns s
        | Raise e => ([], Raise e)
        end
    | _ => ([], Ret absent)
    end.

Definition check_text (self : t) (text : pyval) : outcome pydict :=
  snd (check_text_trace self text).

(** [check_files]: the contents and the results in insertion order. *)
Fixpoint check_files (self : t) (file_contents : list (string * pyval))
  : outcome (list (string * pydict)) :=
  match file_contents with
  | [] => Ret []
  | (file_path, content) :: rest =>
      r ← check_text self content;
      rs ← check_files self rest;
      Ret ((file_path, r) :: rs)
  end.

(** *** [analyze_results] *)

Record summary := {
  total_files : Z;
  files_with_kpi : Z;
  files_without_kpi : Z;
  score_distribution : gmap Z Z;
  average_score : pynum
}.

Definition has_kpi (result : pydict) : bool :=
  truthy (dict_get result "has_kpi_statement" (PyBool false)).

Definition count_with_kpi (results : list (string * pydict)) : Z :=
  Z.of_nat (length (filter (fun kv => has_kpi kv.2 = true) results)).

(** The loop that fills [score_distribution]. *)
Fixpoint distribute (results : list (string * pydict)) (dist : gmap Z Z)
  : outcome (gmap Z Z) :=
  match results with
  | [] => Ret dist
  | (_, result) :: rest =>
      let score := dict_get result "score" PyNone in
      if truthy score then
        score ← py_int score;
        match dist !! score with
        | Some n => distribute rest (<[score := n + 1]> dist)
        | None => distribute rest (<[score := 1]> dist)
        end
      else distribute rest dist
  end.

(** [sum(int(result.get('score', 0)) for ... if result.get('score'))] *)
Fixpoint sum_scores (results : list (string * pydict)) : outcome Z :=
  match results with
  | [] => Ret 0
  | (_, result) :: rest =>
      if truthy (dict_get result "score" PyNone) then
        x ← py_int (dict_get result "score" (PyInt 0));
        s ← sum_scores rest;
        Ret (x + s)
      else sum_scores rest
  end.

(** [round(avg_score, 2)]: an integer is returned as it is. *)
Definition py_round2 (x : pynum) : outcome pynum :=
  match x with
  | NInt z => Ret (NInt z)
  | NFloat f => NFloat <$> Float.round2 f
  end.

Definition analyze_results (results : list (string * pydict)) : outcome summary :=
  let total_files := Z.of_nat (length results) in
  let files_with_kpi := count_with_kpi results in
  let files_without_kpi := total_files - files_with_kpi in
  score_distribution ← distribute results ∅;
  total_score ← sum_scores results;
  avg_score ←
    (if 0 <? files_with_kpi
     then NFloat <$> Float.truediv total_score files_with_kpi
     else Ret (NInt 0));
  average_score ← py_round2 avg_score;
  Ret {| total_files := total_files;
         files_with_kpi := files_with_kpi;
         files_without_kpi := files_without_kpi;
         score_distribution := score_distribution;
         average_score := average_score |}.

(** *** Results with a usable score *)

(** The absent dictionary, or a statement whose score is a non-empty
    string of decimal digits, which [int] accepts. *)
Definition well_formed (v : pydict) : Prop :=
  v = absent
  \/ exists ds p mt yr z,
       v = verdict (PyStr ds) (PyStr p) (PyStr mt) yr
       /\ ds <> [] /\ int_of_str ds = Some z /\ 0 <= z.

(** Pattern [i] has the groups that [extract] reads, and its score group
    always captures digits. *)
Definition pattern_ok (i : nat) (p : Re.Pattern) : bool :=
  (score_group i <=? Re.p_groups p)%nat
  && Re.sets_digits (score_group i) (Re.p_code p).

(** The default patterns, compiled. *)
Definition default_compiled : list Re.Pattern :=
  Eval vm_compute in
    match mapM re_compile (PyStr <$> Config.default_kpi_patterns) with
    | Ret cs => cs
    | Raise _ => []
    end.

(** *** Notions used to state the properties of [analyze_results] *)

(** The sum of the counts of a histogram. *)
Definition sum_counts (d : gmap Z Z) : Z :=
  map_fold (fun _ n acc => n + acc) 0 d.

(** [if score:] in the loops of [analyze_results]. *)
Definition has_score (result : pydict) : bool :=
  truthy (dict_get result "score" PyNone).

Definition count_with_score (results : list (string * pydict)) : Z :=
  Z.of_nat (length (filter (fun kv => has_score kv.2 = true) results)).



(** Every score that the loops convert is one that [int] accepts. *)
Definition scores_numeric (results : list (string * pydict)) : Prop :=
  Forall (fun kv : string * pydict =>
            has_score kv.2 = true ->
            exists z, py_int (dict_get kv.2 "score" PyNone) = Ret z) results.

End KPIChecker.

(** ** More of [kpi_checker.py] and of its callers *)

Module Aggregation.
Import KPIChecker.

(** The result goes to the bucket [k] of the histogram: its score is true
    and [int] makes [k] of it. *)
Definition converts_to (k : Z) (result : pydict) : bool :=
  has_score result
  && match py_int (dict_get result "score" PyNone) with
     | Ret z => z =? k
     | Raise _ => false
     end.

Definition count_score (k : Z) (results : list (string * pydict)) : Z :=
  Z.of_nat (length (filter (fun kv => converts_to k kv.2 = true) results)).

(** [main]: the files handed to the fixer,
    [[file_path for file_path, result in results.items()
      if not result.get('has_kpi_statement', False)]]. *)
Definition files_to_fix (results : list (string * pydict)) : list string :=
  fst <$> filter (fun kv => has_kpi kv.2 = false) results.

End Aggregation.

(** ** How much of the text a group can hold *)

Module Width.
Import Re.





End Width.

(** ** The texts that an expression matches *)

Module Lang.
Import Re.

(** [n] non-empty pieces in a row, each taken from [L]. *)
Inductive reps (L : str -> Prop) : nat -> str -> Prop :=
| reps_O : reps L O []
| reps_S n a b : a <> [] -> L a -> reps L n b -> reps L (S n) (a ++ b).

(** [lang r cs]: the expression [r] can consume exactly [cs]. *)
Fixpoint lang (r : regex) (cs : str) : Prop :=
  match r with
  | REmpty => cs = []
  | RLit c => cs = [c]
  | RAny => exists d, d <> 10%N /\ cs = [d]
  | RIn negate items => exists d, in_test negate items d = true /\ cs = [d]
  | RSeq r1 r2 => exists a b, cs = a ++ b /\ lang r1 a /\ lang r2 b
  | RAlt r1 r2 => lang r1 cs \/ lang r2 cs
  | RRep lo hi r1 => exists n, (lo <= n)%nat /\ at_most n hi /\ reps (lang r1) n cs
  | RGroup _ r1 => lang r1 cs
  end.

(** Somewhere in the text stands a piece that [r] matches. *)
Definition occurs (r : regex) (text : str) : Prop :=
  exists before cs after, text = before ++ cs ++ after /\ lang r cs.

Definition decimal_run (ds : str) : Prop :=
  (1 <= length ds <= 3)%nat /\ Forall (fun c => Unicode.isdecimal c = true) ds.

Definition spaces (ws : str) : Prop := Forall (fun c => Unicode.isspace c = true) ws.

(** The two wordings that the default patterns have in common: every
    default pattern ends in one of them. *)
Definition states_score (text : str) : Prop :=
  exists before ds after,
    decimal_run ds
    /\ (text = before ++ u "KPI考核自评" ++ ds ++ u "分" ++ after
        \/ exists ws1 ws2,
             spaces ws1 /\ spaces ws2
             /\ text = before ++ u "自评得分" ++ ws1 ++ ds ++ ws2 ++ u "分" ++ after).

(** The two wordings, as pieces of text. *)
Definition first_wording (piece : str) : Prop :=
  exists ds, decimal_run ds /\ piece = u "KPI考核自评" ++ ds ++ u "分".

Definition second_wording (piece : str) : Prop :=
  exists ws1 ds ws2,
    spaces ws1 /\ decimal_run ds /\ spaces ws2
    /\ piece = u "自评得分" ++ ws1 ++ ds ++ ws2 ++ u "分".

(** The syntax tree of the default pattern of index [i]. *)
Definition default_code (i : nat) : Re.regex :=
  match KPIChecker.default_compiled !! i with
  | Some p => Re.p_code p
  | None => Re.REmpty
  end.

End Lang.

(** ** The configurations that a [Config] object can hold *)

Module ConfigStates.
Import Config.

(** The dictionary of an object built by the constructor and changed only
    through [load_config], [set] and [add_kpi_pattern] ([save_config] and
    the getters leave it alone; a call that raises leaves it alone too). *)
Inductive reachable : pydict -> Prop :=
| reach_init config_file disk config :
    init config_file disk = Ret config -> reachable config
| reach_load config_file disk config config' :
    reachable config -> load_config config_file disk config = Ret config' ->
    reachable config'
| reach_set key value config :
    reachable config -> reachable (Config.set key value config)
| reach_add pattern config config' :
    reachable config -> add_kpi_pattern pattern config = Ret config' ->
    reachable config'.

End ConfigStates.

(** ** Documents on disk

    [docx_parser.py] and [file_fixer.py] reach the documents through the
    [python-docx] library and the file system. A path holds a file, with
    its bytes, or a directory; what the library makes of the bytes is a
    parameter of the definitions below. Permissions are left out: every
    file can be read and written. *)

Module Disk.

Inductive node (bytes : Type) :=
| File (b : bytes)
| Directory.
Arguments File {bytes} b.
Arguments Directory {bytes}.

Abbreviation store bytes := (gmap string (node bytes)).

(** [os.path.basename] for paths with [/] as separator: what follows the
    last separator. *)
Fixpoint basename_from (path acc : string) : string :=
  match path with
  | EmptyString => acc
  | String c rest =>
      if Ascii.eqb c "/" then basename_from rest ""
      else basename_from rest (acc +:+ String c "")
  end.

Definition basename (path : string) : string := basename_from path "".

Fixpoint ends_with_slash (path : string) : bool :=
  match path with
  | EmptyString => false
  | String c EmptyString => Ascii.eqb c "/"
  | String _ rest => ends_with_slash rest
  end.

(** [os.path.join(directory, name)] for a [name] without separator. *)
Definition join_path (directory name : string) : string :=
  if String.eqb directory "" || ends_with_slash directory then directory +:+ name
  else directory +:+ "/" +:+ name.

End Disk.

(** ** [docx_parser.py] *)

Module DocxParser.
Import Disk.

(** [sep.join(l)] *)
Fixpoint join (sep : str) (l : list str) : str :=
  match l with
  | [] => []
  | [x] => x
  | x :: rest => x ++ sep ++ join sep rest
  end.

Definition newline : str := [10%N].

(** [l[start:]] for any integer [start]. *)
Definition slice_from {A} (start : Z) (l : list A) : list A :=
  let n := Z.of_nat (length l) in
  let i := if start <? 0 then Z.max (n + start) 0 else Z.min start n in
  drop (Z.to_nat i) l.

(** [l[i:j]] for [0 <= i]. *)
Definition slice_between {A} (i j : Z) (l : list A) : list A :=
  take (Z.to_nat (j - i)) (drop (Z.to_nat i) l).

(** [min(v, n)] for an integer [n]; the first of two equal values is
    returned, which makes no difference to the slice taken with it. *)
Definition min_with_len (v : pyval) (n : Z) : outcome Z :=
  match v with
  | PyInt z => Ret (Z.min z n)
  | PyBool b => Ret (Z.min (if b then 1 else 0) n)
  | PyNone | PyStr _ | PyList _ | PyDict _ => Raise TypeError
  end.

(** [range(0, stop, step)] for [0 <= stop]. *)
Definition range_from_zero (stop step : Z) : outcome (list Z) :=
  if step =? 0 then Raise ValueError
  else if step <? 0 then Ret []
  else Ret ((fun k => Z.of_nat k * step) <$> seq 0 (Z.to_nat ((stop + step - 1) / step))).

Definition nonempty (s : str) : bool :=
  match s with
  | [] => false
  | _ :: _ => true
  end.

(** [[p.text.strip() for p in doc.paragraphs if p.text.strip()]] *)
Definition kept (texts : list str) : list str :=
  List.filter nonempty (strip <$> texts).

(** The dictionary that [parse_file] returns for a document. *)
Record parsed := {
  file_path : string;
  file_name : string;
  total_paragraphs : Z;
  content : list str;
  last_paragraphs : list str;
  last_paragraphs_text : str
}.

(** A dictionary with the key [error], or the dictionary of a document. *)
Inductive parse_result :=
| Error
| Parsed (r : parsed).

Section Parser.
Context {bytes : Type}.

(** The texts of the paragraphs of [Document(path)], when the bytes are a
    document that the library opens; it raises otherwise. *)
Variable paragraphs_of : bytes -> option (list str).

(** [DocxParser(last_paragraphs).parse_file(file_path)]: every exception
    from [Document] on is turned into the error dictionary. *)
Definition parse_file (last_paragraphs : pyval) (disk : store bytes)
  (file_path : string) : parse_result :=
  match disk !! file_path with
  | None => Error
  | Some Directory => Error
  | Some (File b) =>
      match paragraphs_of b with
      | None => Error
      | Some texts =>
          let paragraphs := kept texts in
          match min_with_len last_paragraphs (Z.of_nat (length paragraphs)) with
          | Raise _ => Error
          | Ret last_n =>
              let last :=
                match paragraphs with
                | [] => []
                | _ :: _ => slice_from (- last_n) paragraphs
                end in
              Parsed {| file_path := file_path;
                        file_name := basename file_path;
                        total_paragraphs := Z.of_nat (length paragraphs);
                        content := paragraphs;
                        last_paragraphs := last;
                        last_paragraphs_text := join newline last |}
          end
      end
  end.

(** [get_text_blocks]: the call of [range] is outside every [try]. *)
Definition get_text_blocks (last_paragraphs : pyval) (disk : store bytes)
  (file_path : string) (block_size : Z) : outcome (list str) :=
  match parse_file last_paragraphs disk file_path with
  | Error => Ret []
  | Parsed result =>
      let paragraphs := content result in
      match range_from_zero (Z.of_nat (length paragraphs)) block_size with
      | Raise e => Raise e
      | Ret starts =>
          Ret ((fun i => join newline (slice_between i (i + block_size) paragraphs))
                 <$> starts)
      end
  end.

(** [extract_kpi_section] *)
Definition extract_kpi_section (last_paragraphs : pyval) (disk : store bytes)
  (file_path : string) : option str * parse_result :=
  match parse_file last_paragraphs disk file_path with
  | Error => (None, Error)
  | Parsed result => (Some (last_paragraphs_text result), Parsed result)
  end.

End Parser.

(** *** Notions used to state the properties of the parser *)

(** A text that starts and ends with something other than white space. *)
Definition trimmed (s : str) : Prop :=
  (exists c rest, s = c :: rest /\ Unicode.isspace c = false)
  /\ (exists front c, s = front ++ [c] /\ Unicode.isspace c = false).

(** The last [n] elements of a list. *)
Definition last_n {A} (n : nat) (l : list A) : list A :=
  drop (length l - n) l.

End DocxParser.

(** ** [file_fixer.py] *)

Module FileFixer.
Import Disk.

(** [str(n)] for an integer. *)
Fixpoint digits_of (fuel : nat) (n : N) (acc : str) : str :=
  match fuel with
  | O => acc
  | S fuel' =>
      let acc' := (48 + n mod 10)%N :: acc in
      if (n / 10 =? 0)%N then acc' else digits_of fuel' (n / 10) acc'
  end.

Definition str_of_int (z : Z) : str :=
  let n := Z.to_N (Z.abs z) in
  let digits := digits_of (S (N.to_nat (N.log2 n))) n [] in
  if z <? 0 then ch "-" :: digits else digits.

(** [Config.get_current_year_quarter], for the year and the month that
    [datetime.datetime.now()] gives. *)
Definition get_current_year_quarter (year month : Z) : str * str :=
  let quarter :=
    if (1 <=? month) && (month <=? 3) then u "一"
    else if (4 <=? month) && (month <=? 6) then u "二"
    else if (7 <=? month) && (month <=? 9) then u "三"
    else u "四" in
  (str_of_int year, quarter).

(** Why a call that formats and adds the template does not go through. *)
Inductive failure :=
| KeyError                (* a field that is neither year nor quarter *)
| PositionalField         (* IndexError: a field without a name, or a number *)
| UnbalancedBrace         (* ValueError *)
| NotAString              (* AttributeError: the template has no [format] *)
| FormatNotModelled.      (* conversions, format specifications, attributes *)

Fixpoint lookup_field (name : str) (kwargs : list (str * str)) : option str :=
  match kwargs with
  | [] => None
  | (k, v) :: rest => if str_eqb name k then Some v else lookup_field name rest
  end.

Definition field_value (name : str) (kwargs : list (str * str)) : failure + str :=
  if forallb Unicode.isdecimal name then inl PositionalField
  else match lookup_field name kwargs with
       | Some v => inr v
       | None => inl KeyError
       end.

(** [template.format] with named string arguments: [reading] holds the
    name of the field that is being read, [acc] the text made so far. *)
Fixpoint format_from (template : str) (kwargs : list (str * str))
  (reading : option str) (acc : str) {struct template} : failure + str :=
  match template with
  | [] =>
      match reading with
      | None => inr acc
      | Some _ => inl UnbalancedBrace
      end
  | c :: rest =>
      match reading with
      | Some name =>
          if (c =? ch "}")%N then
            match field_value name kwargs with
            | inr v => format_from rest kwargs None (acc ++ v)
            | inl e => inl e
            end
          else if (c =? ch "{")%N || (c =? ch ".")%N || (c =? ch "[")%N
                  || (c =? ch "!")%N || (c =? ch ":")%N
          then inl FormatNotModelled
          else format_from rest kwargs (Some (name ++ [c])) acc
      | None =>
          if (c =? ch "{")%N then
            match rest with
            | d :: rest' =>
                if (d =? ch "{")%N then format_from rest' kwargs None (acc ++ [c])
                else format_from rest kwargs (Some []) acc
            | [] => inl UnbalancedBrace
            end
          else if (c =? ch "}")%N then
            match rest with
            | d :: rest' =>
                if (d =? ch "}")%N then format_from rest' kwargs None (acc ++ [c])
                else inl UnbalancedBrace
            | [] => inl UnbalancedBrace
            end
          else format_from rest kwargs None (acc ++ [c])
      end
  end.

(** [self.template.format(year=..., quarter=...)] *)
Definition format_template (template : pyval) (year quarter : str) : failure + str :=
  match template with
  | PyStr t => format_from t [(u "year", year); (u "quarter", quarter)] None []
  | _ => inl NotAString
  end.

Definition default_template : str := u "{year}年第{quarter}季度KPI考核自评__分。".

(** [FileFixer(config)]: the template of the object. *)
Definition init (config : pydict) : outcome pyval :=
  match dict_get config "fixer" (PyDict ∅) with
  | PyDict fixer => Ret (dict_get fixer "template" (PyStr default_template))
  | _ => Raise AttributeError
  end.

(** What [fix_file] returns: the dictionary of a success, or a dictionary
    with [success] false and an error message. *)
Record fixed := {
  file_path : string;
  template_added : str;
  backup_created : bool;
  backup_path : option string
}.

Inductive fix_result :=
| NotFixed
| Fixed (r : fixed).

Definition backup_of (file_path : string) : string := file_path +:+ ".bak".

Section Fixer.
Context {bytes : Type}.

(** The texts of the paragraphs of [Document(path)], when the library
    opens the bytes. *)
Variable paragraphs_of : bytes -> option (list str).

(** The bytes that [doc.save] writes after [doc.add_paragraph(text)]. *)
Variable with_paragraph : bytes -> str -> bytes.

(** [shutil.copy2(src, dst)]: [None] when it raises. A destination that
    is a directory receives the file under its own name. Paths are taken
    as the names of what they hold, one path for one file. *)
Definition copy2 (src dst : string) (disk : store bytes) : option (store bytes) :=
  match disk !! src with
  | Some (File b) =>
      let target :=
        match disk !! dst with
        | Some Directory => join_path dst (basename src)
        | _ => dst
        end in
      if String.eqb target src then None
      else match disk !! target with
           | Some Directory => None
           | _ => Some (<[target := File b]> disk)
           end
  | Some Directory | None => None
  end.

(** [fix_file]: every exception after the test of existence is turned
    into the dictionary of a failure; what was done before it stays
    done. [Raise] stands for a template outside the model only. *)
Definition fix_file (template : pyval) (year month : Z) (file_path : string)
  (create_backup : bool) (disk : store bytes)
  : outcome (fix_result * store bytes) :=
  match disk !! file_path with
  | None => Ret (NotFixed, disk)
  | Some _ =>
      match (if create_backup then copy2 file_path (backup_of file_path) disk
             else Some disk) with
      | None => Ret (NotFixed, disk)
      | Some disk1 =>
          match disk1 !! file_path with
          | Some (File b) =>
              match paragraphs_of b with
              | None => Ret (NotFixed, disk1)
              | Some _ =>
                  let '(year, quarter) := get_current_year_quarter year month in
                  match format_template template year quarter with
                  | inl FormatNotModelled => Raise NotModelled
                  | inl _ => Ret (NotFixed, disk1)
                  | inr template_text =>
                      Ret (Fixed {| file_path := file_path;
                                    template_added := template_text;
                                    backup_created := create_backup;
                                    backup_path :=
                                      if create_backup
                                      then Some (backup_of file_path) else None |},
                           <[file_path := File (with_paragraph b template_text)]> disk1)
                  end
              end
          | Some Directory | None => Ret (NotFixed, disk1)
          end
      end
  end.

(** [restore_from_backup]: whether it succeeded, and the disk after it. *)
Definition restore_from_backup (file_path : string) (disk : store bytes)
  : bool * store bytes :=
  match disk !! backup_of file_path with
  | None => (false, disk)
  | Some _ =>
      match copy2 (backup_of file_path) file_path disk with
      | Some disk' => (true, disk')
      | None => (false, disk)
      end
  end.

End Fixer.

(** The text that the fixer adds with the default template. *)
Definition placeholder (year quarter : str) : str :=
  year ++ u "年第" ++ quarter ++ u "季度KPI考核自评__分。".

(** A non-empty text of the digits [0] to [9], as [str] makes of a year. *)
Definition year_text (y : str) : Prop :=
  y <> [] /\ Forall (fun c => (48 <= c <= 57)%N) y.

Definition quarter_text (q : str) : Prop :=
  q = u "一" \/ q = u "二" \/ q = u "三" \/ q = u "四".

End FileFixer.

(** ** [main.py]: from the scanned files to the results *)

Module Main.
Import Disk DocxParser.

(** [d[key] = value] on a dictionary kept in insertion order. *)
Fixpoint dict_set {V} (key : string) (value : V) (d : list (string * V))
  : list (string * V) :=
  match d with
  | [] => [(key, value)]
  | (k, v) :: rest =>
      if String.eqb k key then (k, value) :: rest
      else (k, v) :: dict_set key value rest
  end.

Definition is_parsed (r : parse_result) : bool :=
  match r with
  | Parsed _ => true
  | Error => false
  end.

Section Main.
Context {bytes : Type}.
Variable paragraphs_of : bytes -> option (list str).

(** The loop that fills [file_contents]: a file that cannot be parsed is
    reported and left out. *)
Definition file_contents_of (last_paragraphs : pyval) (disk : store bytes)
  (docx_files : list string) : list (string * pyval) :=
  fold_left
    (fun file_contents file_path =>
       match extract_kpi_section paragraphs_of last_paragraphs disk file_path with
       | (_, Error) => file_contents
       | (kpi_text, Parsed _) =>
           dict_set file_path
             (match kpi_text with Some t => PyStr t | None => PyNone end)
             file_contents
       end)
    docx_files [].

(** What a scanned file contributes to [file_contents]. *)
Definition entry (last_paragraphs : pyval) (disk : store bytes) (path : string)
  : option (string * pyval) :=
  match parse_file paragraphs_of last_paragraphs disk path with
  | Parsed r => Some (path, PyStr (last_paragraphs_text r))
  | Error => None
  end.

(** [results = checker.check_files(file_contents)] for the parser and the
    checker that [main] builds from the configuration. *)
Definition main_results (config : pydict) (disk : store bytes)
  (docx_files : list string) : outcome (list (string * pydict)) :=
  let last_paragraphs := Config.get "check_last_paragraphs" (PyInt 10) config in
  KPIChecker.check_files (KPIChecker.init config)
    (file_contents_of last_paragraphs disk docx_files).

End Main.

End Main.

(** ** The pattern list as a shared object

    [KPIChecker(config)] keeps the list that [config.get_kpi_patterns()]
    returns, which is the list object held by the configuration and not a
    copy. Here the list objects live in a heap and the configuration and
    the checker hold references to them. A list handed to [set] is taken
    to be a list that nothing else refers to. *)

Module Shared.

Definition loc := nat.

(** What the configuration holds under a key. *)
Inductive value :=
| Plain (v : pyval)          (* a value that is not a list *)
| ListAt (l : loc).          (* a list object *)

Record state := {
  heap : gmap loc (list pyval);
  config : gmap string value
}.

Definition alloc (items : list pyval) (h : gmap loc (list pyval))
  : loc * gmap loc (list pyval) :=
  let l := fresh (dom h) in (l, <[l := items]> h).

(** [Config()] *)
Definition init : state :=
  let '(l, h) := alloc (PyStr <$> Config.default_kpi_patterns) ∅ in
  {| heap := h;
     config := <[ "kpi_patterns" := ListAt l ]>
                 (Plain <$> delete "kpi_patterns" Config.default_config) |}.

(** [config.set(key, value)] *)
Definition set (key : string) (v : pyval) (s : state) : state :=
  match v with
  | PyList items =>
      let '(l, h) := alloc items (heap s) in
      {| heap := h; config := <[key := ListAt l]> (config s) |}
  | _ => {| heap := heap s; config := <[key := Plain v]> (config s) |}
  end.

(** [config.get_kpi_patterns()]: the object under the key, or a new empty
    list. *)
Definition get_kpi_patterns (s : state) : value :=
  match config s !! "kpi_patterns" with
  | Some v => v
  | None => Plain (PyList [])
  end.

(** [config.add_kpi_pattern(pattern)]: [append] changes the list object
    in place. *)
Definition add_kpi_pattern (pattern : str) (s : state) : outcome state :=
  let s1 :=
    match config s !! "kpi_patterns" with
    | None =>
        let '(l, h) := alloc [] (heap s) in
        {| heap := h; config := <[ "kpi_patterns" := ListAt l ]> (config s) |}
    | Some _ => s
    end in
  match config s1 !! "kpi_patterns" with
  | Some (ListAt l) =>
      match heap s1 !! l with
      | Some items =>
          if negb (existsb (Config.eq_str pattern) items)
          then Ret {| heap := <[l := items ++ [PyStr pattern]]> (heap s1);
                      config := config s1 |}
          else Ret s1
      | None => Raise NotModelled
      end
  | Some (Plain (PyStr _)) | Some (Plain (PyDict _)) => Raise NotModelled
  | _ => Raise TypeError
  end.

(** [KPIChecker(config)] *)
Record checker := { patterns : value }.

Definition make_checker (s : state) : checker :=
  {| patterns := get_kpi_patterns s |}.

(** The value that a reference stands for at the moment. *)
Definition resolve (h : gmap loc (list pyval)) (v : value) : pyval :=
  match v with
  | Plain p => p
  | ListAt l =>
      match h !! l with
      | Some items => PyList items
      | None => PyNone
      end
  end.

(** [checker.check_text(text)] at a moment when the heap is [h]. *)
Definition check_text (h : gmap loc (list pyval)) (c : checker) (text : pyval)
  : outcome pydict :=
  KPIChecker.check_text {| KPIChecker.patterns := resolve h (patterns c) |} text.

(** The configuration as a dictionary of values. *)
Definition view (s : state) : pydict := resolve (heap s) <$> config s.

(** Every list that the configuration refers to is in the heap, and no
    two keys refer to the same list. *)
Definition well_formed (s : state) : Prop :=
  (forall key l, config s !! key = Some (ListAt l) -> is_Some (heap s !! l))
  /\ (forall k1 k2 l,
        config s !! k1 = Some (ListAt l) -> config s !! k2 = Some (ListAt l) ->
        k1 = k2).

End Shared.

(** ** Sample inputs *)

Module Samples.
Import KPIChecker.

Definition fifth_pattern : pyval := PyStr (u "KPI考核自评(\d{1,3})分").

(** Four results: three statements and one file without. *)
Definition four_results : list (string * pydict) :=
  [ ("a.docx", verdict (PyStr (u "80")) fifth_pattern (PyStr (u "KPI考核自评80分")) PyNone);
    ("b.docx", verdict (PyStr (u "90")) fifth_pattern (PyStr (u "KPI考核自评90分")) PyNone);
    ("c.docx", absent);
    ("d.docx", verdict (PyStr (u "100")) fifth_pattern (PyStr (u "KPI考核自评100分")) PyNone) ].

Definition four_summary : summary :=
  {| total_files := 4; files_with_kpi := 3; files_without_kpi := 1;
     score_distribution := <[100 := 1]> (<[90 := 1]> (<[80 := 1]> ∅));
     average_score := NFloat (Float.from_int 90) |}.


Definition two_files : list (string * pyval) :=
  [ ("a.docx", PyStr (u "本季度KPI考核自评80分。")); ("b.docx", PyStr (u "工作总结")) ].

(** A stand-in for the library: the bytes of a file are the paragraphs
    that the library would read, or nothing when it would not open the
    file. *)
Definition plain_paragraphs_of (b : option (list str)) : option (list str) := b.

Definition plain_with_paragraph (b : option (list str)) (t : str)
  : option (list str) :=
  match b with
  | Some texts => Some (texts ++ [t])
  | None => None
  end.

Definition report : option (list str) :=
  Some [u "工作总结"; u "  "; u " 本季度完成三项任务 "].

Definition two_on_disk : Disk.store (option (list str)) :=
  <[ "a.docx" := Disk.File report ]> (<[ "b.docx" := Disk.File None ]> ∅).

Definition scored : option (list str) :=
  Some [u "工作总结"; u "本季度KPI考核自评80分。"].

Definition scored_on_disk : Disk.store (option (list str)) :=
  <[ "c.docx" := Disk.File scored ]> ∅.

(** A configuration with one pattern, as a heap and references. *)
Definition one_pattern : Shared.state :=
  {| Shared.heap := <[ 0%nat := [PyStr (u "自评(\d+)分")] ]> ∅;
     Shared.config := <[ "kpi_patterns" := Shared.ListAt 0%nat ]> ∅ |}.

End Samples.

(** * Properties of [int] on digits *)

Module IntFacts.

(** No decimal digit is white space, an underscore or a sign: no such
    character lies in a block of digits. *)
Lemma blocks_avoid :
  forallb (fun w =>
             forallb (fun z => negb ((z <=? w)%N && (w <? z + 10)%N))
               Unicode.decimal_zeros)
    (ch "_" :: ch "+" :: ch "-" :: Unicode.whitespace) = true.
Proof. vm_compute. reflexivity. Qed.

Lemma decimal_not_special c w :
  Unicode.isdecimal c = true ->
  In w (ch "_" :: ch "+" :: ch "-" :: Unicode.whitespace) ->
  c <> w.
Proof.
  unfold Unicode.isdecimal, Unicode.todecimal. intros Hc Hw ->.
  destruct (find (fun z => (z <=? w)%N && (w <? z + 10)%N) Unicode.decimal_zeros)
    as [z|] eqn:Hf; [|discriminate].
  apply find_some in Hf as [Hz Hb].
  pose proof blocks_avoid as Hall. rewrite forallb_forall in Hall.
  specialize (Hall w Hw). rewrite forallb_forall in Hall.
  specialize (Hall z Hz). rewrite Hb in Hall. discriminate.
Qed.

Lemma decimal_not_space c :
  Unicode.isdecimal c = true -> Unicode.isspace c = false.
Proof.
  intros Hc. unfold Unicode.isspace.
  destruct (existsb (N.eqb c) Unicode.whitespace) eqn:He; [|reflexivity].
  apply existsb_exists in He as (w & Hw & Heq). apply N.eqb_eq in Heq.
  exfalso. apply (decimal_not_special c w Hc); [|exact Heq].
  do 3 right. exact Hw.
Qed.

Lemma lstrip_decimal ds :
  Forall (fun c => Unicode.isdecimal c = true) ds -> lstrip ds = ds.
Proof.
  intros Hall. destruct Hall as [|c ds Hc _]; [reflexivity|].
  simpl. rewrite (decimal_not_space c Hc). reflexivity.
Qed.

Lemma strip_decimal ds :
  Forall (fun c => Unicode.isdecimal c = true) ds -> strip ds = ds.
Proof.
  intros Hall. unfold strip. rewrite (lstrip_decimal ds Hall).
  rewrite lstrip_decimal; [apply rev_involutive|].
  apply Forall_forall. intros c Hin. rewrite Forall_forall in Hall.
  apply Hall. apply list_elem_of_In. apply list_elem_of_In in Hin.
  apply in_rev. exact Hin.
Qed.

Lemma int_digits_decimal ds : forall acc sep,
  ds <> [] -> Forall (fun c => Unicode.isdecimal c = true) ds -> 0 <= acc ->
  exists z, int_digits acc sep ds = Some z /\ 0 <= z.
Proof.
  induction ds as [|c ds IH]; intros acc sep Hne Hall Hacc; [contradiction|].
  inversion Hall as [|? ? Hc Hrest]; subst. simpl.
  destruct (N.eqb_spec c (ch "_")) as [Heq|_].
  { exfalso. apply (decimal_not_special c (ch "_") Hc); [left; reflexivity|exact Heq]. }
  unfold Unicode.isdecimal in Hc.
  destruct (Unicode.todecimal c) as [d|]; [|discriminate].
  destruct ds as [|c' ds].
  - simpl. eexists. split; [reflexivity|lia].
  - apply IH; [discriminate|exact Hrest|lia].
Qed.

(** [int] accepts every non-empty string of decimal digits. *)
Lemma int_of_str_decimal ds :
  ds <> [] -> Forall (fun c => Unicode.isdecimal c = true) ds ->
  exists z, int_of_str ds = Some z /\ 0 <= z.
Proof.
  intros Hne Hall. unfold int_of_str. rewrite (strip_decimal ds Hall).
  destruct ds as [|c ds]; [contradiction|].
  inversion Hall as [|? ? Hc _]; subst.
  destruct (N.eqb_spec c (ch "-")) as [Heq|_].
  { exfalso. apply (decimal_not_special c (ch "-") Hc); [|exact Heq].
    right. right. left. reflexivity. }
  destruct (N.eqb_spec c (ch "+")) as [Heq|_].
  { exfalso. apply (decimal_not_special c (ch "+") Hc); [|exact Heq].
    right. left. reflexivity. }
  apply int_digits_decimal; [discriminate|exact Hall|lia].
Qed.

End IntFacts.

(** * Properties of the matcher *)

Module ReFacts.
Import Re.

Lemma rep_loop_sound body R lo hi k :
  sound body R ->
  forall fuel n s i mk f,
    at_most n hi ->
    rep_loop body lo hi k fuel n s i mk = Some f ->
    exists m s' j mk',
      iter R m s i mk s' j mk' /\ (lo <= n + m)%nat /\ at_most (n + m) hi
      /\ k s' j mk' = Some f.
Proof.
  intros Hbody fuel.
  assert (Hstop : forall n s i mk f,
             at_most n hi ->
             (if (lo <=? n)%nat then k s i mk else None) = Some f ->
             exists m s' j mk',
               iter R m s i mk s' j mk' /\ (lo <= n + m)%nat
               /\ at_most (n + m) hi /\ k s' j mk' = Some f).
  { intros n s i mk f Hn H. destruct (Nat.leb_spec lo n); [|discriminate].
    exists O, s, i, mk. rewrite Nat.add_0_r. repeat split; auto. constructor. }
  induction fuel as [|fuel IH]; intros n s i mk f Hn H; simpl in H.
  - eauto.
  - destruct (below n hi) eqn:Hb; [|eauto].
    destruct (body s i mk _) as [f'|] eqn:Hm; [|eauto].
    injection H as ->.
    apply Hbody in Hm as (s1 & j1 & mk1 & HR & Hk).
    destruct (Nat.eqb_spec j1 i) as [|Hne]; [discriminate|].
    apply IH in Hk as (m & s' & j & mk' & Hit & Hlo & Hhi & Hk).
    + exists (S m), s', j, mk'. rewrite Nat.add_succ_r.
      repeat split; auto. econstructor; eauto.
    + destruct hi as [h|]; simpl in *; [|exact I].
      apply Nat.ltb_lt in Hb. lia.
Qed.

Lemma rmatch_sound r : sound (rmatch r) (path r).
Proof.
  induction r as [|c| |negate items|r1 IH1 r2 IH2|r1 IH1 r2 IH2|lo hi r1 IH1|n r1 IH1];
    intros s i mk k f H; simpl in H.
  - exists s, i, mk. simpl. auto.
  - destruct s as [|d s']; [discriminate|].
    destruct (N.eqb_spec c d) as [->|]; [|discriminate].
    exists s', (S i), mk. simpl. auto.
  - destruct s as [|d s']; [discriminate|].
    destruct (N.eqb_spec d 10); [discriminate|].
    exists s', (S i), mk. simpl. eauto 10.
  - destruct s as [|d s']; [discriminate|].
    destruct (in_test negate items d) eqn:Ht; [|discriminate].
    exists s', (S i), mk. simpl. eauto 10.
  - apply IH1 in H as (s1 & j1 & mk1 & H1 & H).
    apply IH2 in H as (s2 & j2 & mk2 & H2 & H).
    exists s2, j2, mk2. simpl. eauto 10.
  - destruct (rmatch r1 s i mk k) as [f'|] eqn:H1.
    + injection H as ->. apply IH1 in H1 as (s1 & j1 & mk1 & H1 & H).
      exists s1, j1, mk1. simpl. auto.
    + apply IH2 in H as (s1 & j1 & mk1 & H2 & H).
      exists s1, j1, mk1. simpl. auto.
  - eapply rep_loop_sound in H as (m & s' & j & mk' & Hit & Hlo & Hhi & Hk);
      [|exact IH1|destruct hi; simpl; [lia|exact I]].
    exists s', j, mk'. simpl. eauto 10.
  - apply IH1 in H as (s1 & j1 & mk1 & H1 & H).
    exists s1, j1, (<[n := (i, j1)]> mk1). simpl. eauto.
Qed.

(** A path moves forward, and the text it leaves is the text that follows. *)

Lemma iter_pos (R : step) :
  (forall s i mk s' j mk', R s i mk s' j mk' -> (i <= j)%nat /\ s' = drop (j - i) s) ->
  forall n s i mk s' j mk',
    iter R n s i mk s' j mk' -> (i <= j)%nat /\ s' = drop (j - i) s.
Proof.
  intros HR n s i mk s' j mk' Hit.
  induction Hit as [s i mk|n s i mk s1 j1 mk1 s2 j2 mk2 H1 Hne _ [Hle ->]].
  - rewrite Nat.sub_diag. auto.
  - apply HR in H1 as [Hle1 ->]. split; [lia|].
    rewrite drop_drop. f_equal. lia.
Qed.

Lemma path_pos r s i mk s' j mk' :
  path r s i mk s' j mk' -> (i <= j)%nat /\ s' = drop (j - i) s.
Proof.
  revert s i mk s' j mk'.
  induction r as [|c| |negate items|r1 IH1 r2 IH2|r1 IH1 r2 IH2|lo hi r1 IH1|n r1 IH1];
    intros s i mk s' j mk' H; simpl in H.
  - destruct H as (-> & -> & _). rewrite Nat.sub_diag. auto.
  - destruct H as (-> & -> & _). split; [lia|].
    replace (S i - i)%nat with 1%nat by lia. reflexivity.
  - destruct H as (d & _ & -> & -> & _). split; [lia|].
    replace (S i - i)%nat with 1%nat by lia. reflexivity.
  - destruct H as (d & _ & -> & -> & _). split; [lia|].
    replace (S i - i)%nat with 1%nat by lia. reflexivity.
  - destruct H as (s1 & j1 & mk1 & H1 & H2).
    apply IH1 in H1 as [Hle1 ->]. apply IH2 in H2 as [Hle2 ->].
    split; [lia|]. rewrite drop_drop. f_equal. lia.
  - destruct H as [H|H]; eauto.
  - destruct H as (m & _ & _ & Hit). eapply iter_pos; eauto.
  - destruct H as (mk1 & H & _). eauto.
Qed.

(** An attempt, a search and a scan in terms of positions. *)

Lemma match_at_path r rest i adv j mk rest' :
  match_at r rest i adv = Some (j, mk, rest') ->
  path r rest i ∅ rest' j mk /\ (adv = true -> j <> i).
Proof.
  unfold match_at. intros H.
  apply rmatch_sound in H as (s1 & j1 & mk1 & Hp & Hk).
  unfold accept in Hk.
  destruct (adv && (j1 =? i)%nat) eqn:Ha; [discriminate|].
  injection Hk as -> -> ->. split; [exact Hp|].
  intros ->. simpl in Ha. apply Nat.eqb_neq in Ha. exact Ha.
Qed.

Lemma search_pos r rest i adv st en mk rest' :
  search r rest i adv = Some (st, (en, mk, rest')) ->
  (i <= st)%nat /\ (st <= en)%nat /\ (adv = true -> en <> i).
Proof.
  revert i adv. induction rest as [|c rest IH]; intros i adv H; simpl in H.
  - destruct (match_at r [] i adv) as [[[j mk1] s1]|] eqn:Hm; [|discriminate].
    injection H as -> -> -> ->.
    apply match_at_path in Hm as [Hp Hadv]. apply path_pos in Hp as [Hle _].
    auto.
  - destruct (match_at r (c :: rest) i adv) as [[[j mk1] s1]|] eqn:Hm.
    + injection H as -> -> -> ->.
      apply match_at_path in Hm as [Hp Hadv]. apply path_pos in Hp as [Hle _].
      auto.
    + apply IH in H as (H1 & H2 & _). repeat split; [lia|lia|]. intros _. lia.
Qed.

(** Every match of a scan lies at or after the starting position, and
    each match starts where the previous one ended or later. *)
Lemma scan_ordered fuel p text : forall rest i adv,
  Forall (fun m => (i <= m_start m)%nat /\ (m_start m <= m_end m)%nat)
    (scan fuel p text rest i adv)
  /\ StronglySorted (fun a b => (m_end a <= m_start b)%nat)
       (scan fuel p text rest i adv).
Proof.
  induction fuel as [|fuel IH]; intros rest i adv; simpl.
  - split; constructor.
  - destruct (search (p_code p) rest i adv) as [[st [[en mk] rest']]|] eqn:Hs.
    + apply search_pos in Hs as (H1 & H2 & _).
      destruct (IH rest' en (en =? st)%nat) as [Hall Hsorted].
      split.
      * constructor; [simpl; lia|].
        eapply Forall_impl; [exact Hall|]. simpl. intros m [? ?]. lia.
      * constructor; [exact Hsorted|].
        eapply Forall_impl; [exact Hall|]. simpl. intros m [? ?]. lia.
    + split; constructor.
Qed.

Lemma scan_fields fuel p text : forall rest i adv,
  Forall (fun m => m_string m = text /\ m_ngroups m = p_groups p)
    (scan fuel p text rest i adv).
Proof.
  induction fuel as [|fuel IH]; intros rest i adv; simpl.
  - constructor.
  - destruct (search (p_code p) rest i adv) as [[st [[en mk] rest']]|];
      constructor; auto.
Qed.

(** The first match of [finditer] is what a search from the start finds. *)
Lemma finditer_head p text :
  head (finditer p text) =
  match search (p_code p) text 0 false with
  | Some (st, (en, mk, _)) =>
      Some {| m_string := text; m_start := st; m_end := en; m_marks := mk;
              m_ngroups := p_groups p |}
  | None => None
  end.
Proof.
  unfold finditer.
  replace (2 * length text + 3)%nat with (S (2 * length text + 2)) by lia.
  simpl scan.
  destruct (search (p_code p) text 0 false) as [[st [[en mk] rest']]|];
    reflexivity.
Qed.


Lemma finditer_fields p text m :
  In m (finditer p text) ->
  m_string m = text /\ m_ngroups m = p_groups p
  /\ (m_start m <= m_end m)%nat.
Proof.
  intros Hin. unfold finditer in Hin.
  pose proof (scan_fields (2 * length text + 3) p text text 0%nat false) as Hf.
  pose proof (scan_ordered (2 * length text + 3) p text text 0%nat false) as [Ho _].
  rewrite Forall_forall in Hf, Ho.
  apply list_elem_of_In in Hin.
  destruct (Hf _ Hin) as [? ?]. destruct (Ho _ Hin) as [? ?]. auto.
Qed.

(** ** Groups that always capture digits *)

(** Repetitions of a class consume that many characters of the class and
    leave the marks alone. *)
Lemma iter_class negate items n : forall s i mk s' j mk',
  iter (path (RIn negate items)) n s i mk s' j mk' ->
  exists cs,
    s = cs ++ s' /\ length cs = n /\ j = (i + n)%nat /\ mk' = mk
    /\ Forall (fun c => in_test negate items c = true) cs.
Proof.
  induction n as [|n IH]; intros s i mk s' j mk' H; inversion H; subst.
  - exists []. rewrite Nat.add_0_r. repeat split; auto.
  - match goal with
    | H1 : path _ _ _ _ _ _ _ |- _ =>
        simpl in H1; destruct H1 as (d & Hd & -> & -> & ->)
    end.
    match goal with
    | H2 : iter _ _ _ _ _ _ _ _ |- _ =>
        apply IH in H2 as (cs & -> & Hlen & -> & -> & Hall)
    end.
    exists (d :: cs). simpl. rewrite Hlen. repeat split; auto; lia.
Qed.

Lemma in_test_digit c : in_test false [SDigit] c = true -> Unicode.isdecimal c = true.
Proof.
  unfold in_test. simpl. rewrite orb_false_r. auto.
Qed.

Lemma slice_drop_app (text cs s' : str) i :
  drop i text = cs ++ s' -> slice text i (i + length cs) = cs.
Proof.
  intros H. unfold slice.
  replace (i + length cs - i)%nat with (length cs) by lia.
  change (skipn i text) with (drop i text). rewrite H.
  change (firstn (length cs) (cs ++ s')) with (take (length cs) (cs ++ s')).
  apply take_app_length.
Qed.

Lemma digits_at_insert_ne text mk n m x :
  m <> n -> digits_at text mk n -> digits_at text (<[m := x]> mk) n.
Proof.
  intros Hne (a & b & Hk & H). exists a, b.
  rewrite lookup_insert_ne by exact Hne. auto.
Qed.

Lemma digits_at_same text (mk mk' : marks) n :
  mk' !! n = mk !! n -> digits_at text mk n -> digits_at text mk' n.
Proof. intros Heq (a & b & Hk & H). exists a, b. rewrite Heq. auto. Qed.

(** Along a path, a group that the expression does not mention keeps its
    mark, and a group that it always sets to digits holds digits. *)
Lemma path_marks text n r : forall s i mk s' j mk',
  path r s i mk s' j mk' ->
  s = drop i text ->
  (mentions n r = false -> mk' !! n = mk !! n)
  /\ (sets_digits n r = true -> digits_at text mk' n).
Proof.
  induction r as [|c| |negate items|r1 IH1 r2 IH2|r1 IH1 r2 IH2|lo hi r1 IH1|m r1 IH1];
    intros s i mk s' j mk' H Hs; simpl in H.
  - destruct H as (_ & _ & ->). split; [reflexivity|discriminate].
  - destruct H as (_ & _ & ->). split; [reflexivity|discriminate].
  - destruct H as (d & _ & _ & _ & ->). split; [reflexivity|discriminate].
  - destruct H as (d & _ & _ & _ & ->). split; [reflexivity|discriminate].
  - destruct H as (s1 & j1 & mk1 & H1 & H2).
    pose proof (path_pos _ _ _ _ _ _ _ H1) as [Hle Hs1].
    assert (Hs1' : s1 = drop j1 text).
    { rewrite Hs1, Hs, drop_drop. f_equal. lia. }
    destruct (IH1 _ _ _ _ _ _ H1 Hs) as [A1 B1].
    destruct (IH2 _ _ _ _ _ _ H2 Hs1') as [A2 B2].
    simpl. split.
    + intros Hm. apply orb_false_iff in Hm as [M1 M2].
      rewrite (A2 M2). apply A1. exact M1.
    + intros Hd. apply orb_true_iff in Hd as [Hd|Hd]; [|auto].
      apply andb_true_iff in Hd as [D1 M2]. apply negb_true_iff in M2.
      eapply digits_at_same; [apply A2; exact M2|]. auto.
  - simpl. destruct H as [H|H].
    + destruct (IH1 _ _ _ _ _ _ H Hs) as [A B]. split.
      * intros Hm. apply orb_false_iff in Hm as [M1 M2]. auto.
      * intros Hd. apply andb_true_iff in Hd as [D1 D2]. auto.
    + destruct (IH2 _ _ _ _ _ _ H Hs) as [A B]. split.
      * intros Hm. apply orb_false_iff in Hm as [M1 M2]. auto.
      * intros Hd. apply andb_true_iff in Hd as [D1 D2]. auto.
  - destruct H as (k & Hlo & _ & Hit). simpl.
    assert (Hiter : forall k s i mk s' j mk',
               iter (path r1) k s i mk s' j mk' -> s = drop i text ->
               (mentions n r1 = false -> mk' !! n = mk !! n)
               /\ (sets_digits n r1 = true -> (1 <= k)%nat -> digits_at text mk' n)).
    { clear - IH1. intros k s i mk s' j mk' Hit.
      induction Hit as [s i mk|k s i mk s1 j1 mk1 s2 j2 mk2 H1 Hne Hit IH];
        intros Hs.
      - split; [reflexivity|]. intros _ Hk. lia.
      - pose proof (path_pos _ _ _ _ _ _ _ H1) as [Hle Hs1].
        assert (Hs1' : s1 = drop j1 text).
        { rewrite Hs1, Hs, drop_drop. f_equal. lia. }
        destruct (IH1 _ _ _ _ _ _ H1 Hs) as [A1 B1].
        destruct (IH Hs1') as [A2 B2]. split.
        + intros Hm. rewrite (A2 Hm). auto.
        + intros Hd _. destruct k as [|k].
          * inversion Hit; subst. auto.
          * apply B2; [exact Hd|lia]. }
    destruct (Hiter _ _ _ _ _ _ _ Hit Hs) as [A B]. split; [exact A|].
    intros Hd. apply andb_true_iff in Hd as [Hlo1 Hd].
    destruct lo; [discriminate|]. apply B; [exact Hd|lia].
  - destruct H as (mk1 & H & ->). simpl.
    destruct (Nat.eqb_spec m n) as [->|Hne].
    + split; [discriminate|]. intros Hrun.
      destruct r1 as [| | | | | |lo hi body|]; try discriminate.
      destruct body as [| | |negate items| | | |]; try discriminate.
      destruct negate; [discriminate|].
      destruct items as [|[] [|]]; try discriminate.
      assert (Hlo1 : (1 <= lo)%nat) by (destruct lo; [discriminate|lia]).
      destruct H as (k & Hlo & _ & Hit).
      apply iter_class in Hit as (cs & Hcs & Hlen & -> & _ & Hall).
      exists i, (i + k)%nat. rewrite lookup_insert_eq.
      rewrite Hs in Hcs. rewrite <- Hlen.
      rewrite (slice_drop_app text cs s' i Hcs).
      split; [reflexivity|]. split.
      * destruct cs; [simpl in Hlen; lia|discriminate].
      * eapply Forall_impl; [exact Hall|]. intros c. apply in_test_digit.
    + destruct (IH1 _ _ _ _ _ _ H Hs) as [A B]. split.
      * intros Hm. rewrite lookup_insert_ne by exact Hne. auto.
      * intros Hd. apply digits_at_insert_ne; auto.
Qed.

Lemma search_path r : forall rest i adv st en mk rest',
  search r rest i adv = Some (st, (en, mk, rest')) ->
  (i <= st)%nat /\ path r (drop (st - i) rest) st ∅ rest' en mk.
Proof.
  induction rest as [|c rest IH]; intros i adv st en mk rest' H; simpl in H.
  - destruct (match_at r [] i adv) as [[[j mk1] s1]|] eqn:Hm; [|discriminate].
    injection H as -> -> -> ->. apply match_at_path in Hm as [Hp _].
    rewrite Nat.sub_diag. auto.
  - destruct (match_at r (c :: rest) i adv) as [[[j mk1] s1]|] eqn:Hm.
    + injection H as -> -> -> ->. apply match_at_path in Hm as [Hp _].
      rewrite Nat.sub_diag. auto.
    + apply IH in H as [Hle Hp]. split; [lia|].
      replace (st - i)%nat with (S (st - S i)) by lia. exact Hp.
Qed.

(** Every match of a scan has digits in a group that the pattern always
    sets to digits. *)
Lemma scan_digits fuel p text n :
  sets_digits n (p_code p) = true ->
  forall rest i adv,
    rest = drop i text ->
    Forall (fun m => digits_at text (m_marks m) n) (scan fuel p text rest i adv).
Proof.
  intros Hd. induction fuel as [|fuel IH]; intros rest i adv Hrest; simpl.
  - constructor.
  - destruct (search (p_code p) rest i adv) as [[st [[en mk] rest']]|] eqn:Hs;
      [|constructor].
    apply search_path in Hs as [Hle Hp].
    assert (Hst : drop (st - i) rest = drop st text).
    { rewrite Hrest, drop_drop. f_equal. lia. }
    rewrite Hst in Hp.
    pose proof (path_pos _ _ _ _ _ _ _ Hp) as [Hle2 Hrest'].
    constructor.
    + simpl. apply (path_marks text n _ _ _ _ _ _ _ Hp eq_refl). exact Hd.
    + apply IH. rewrite Hrest', drop_drop. f_equal. lia.
Qed.

Lemma finditer_digits p text n m :
  sets_digits n (p_code p) = true ->
  In m (finditer p text) ->
  digits_at text (m_marks m) n.
Proof.
  intros Hd Hin.
  pose proof (scan_digits (2 * length text + 3) p text n Hd text 0%nat false eq_refl)
    as Hall.
  rewrite Forall_forall in Hall. apply Hall, list_elem_of_In. exact Hin.
Qed.

End ReFacts.

(** * Properties of the classifier *)

Module CheckerFacts.
Import KPIChecker.

Lemma check_from_first ps text cs : forall i0 i p m ms,
  cs !! i = Some p ->
  Re.finditer p text = m :: ms ->
  (forall j q, cs !! j = Some q -> Re.finditer q text <> [] -> (i <= j)%nat) ->
  check_from ps i0 cs text = (seq i0 (S i), extract ps (i0 + i) m).
Proof.
  induction cs as [|c cs IH]; intros i0 i p m ms Hi Hm Hmin.
  - destruct i; discriminate.
  - destruct i as [|i]; simpl in Hi.
    + injection Hi as ->. simpl. rewrite Hm, Nat.add_0_r. reflexivity.
    + simpl. destruct (Re.finditer c text) as [|m0 ms0] eqn:Hc.
      * rewrite (IH (S i0) i p m ms Hi Hm).
        -- rewrite Nat.add_succ_r. reflexivity.
        -- intros j q Hj Hq. specialize (Hmin (S j) q Hj Hq). lia.
      * exfalso. specialize (Hmin 0%nat c eq_refl). rewrite Hc in Hmin.
        specialize (Hmin ltac:(discriminate)). lia.
Qed.

Lemma check_from_none ps text cs : forall i0,
  Forall (fun q => Re.finditer q text = []) cs ->
  check_from ps i0 cs text = (seq i0 (length cs), Ret absent).
Proof.
  induction cs as [|c cs IH]; intros i0 Hall; simpl.
  - reflexivity.
  - inversion Hall as [|? ? Hc Hrest]; subst.
    rewrite Hc, (IH (S i0) Hrest). reflexivity.
Qed.

Lemma check_text_trace_compiled self ps cs text :
  text <> [] ->
  iterate (patterns self) = Ret ps ->
  mapM re_compile ps = Ret cs ->
  check_text_trace self (PyStr text) = check_from ps 0 cs text.
Proof.
  intros Hne Hps Hcs. unfold check_text_trace.
  destruct text as [|c text]; [contradiction|]. simpl.
  rewrite Hps. simpl. rewrite Hcs. reflexivity.
Qed.

Lemma mapM_lookup {A B} (f : A -> outcome B) l : forall l' i y,
  mapM f l = Ret l' -> l' !! i = Some y ->
  exists x, l !! i = Some x /\ f x = Ret y.
Proof.
  induction l as [|a l IH]; intros l' i y H Hi; simpl in H.
  - injection H as <-. destruct i; discriminate.
  - destruct (f a) as [b|e] eqn:Hfa; [|discriminate]. simpl in H.
    destruct (mapM f l) as [bs|e] eqn:Hl; [|discriminate]. simpl in H.
    injection H as <-. destruct i as [|i]; simpl in Hi.
    + injection Hi as <-. exists a. auto.
    + destruct (IH bs i y eq_refl Hi) as (x & Hx & Hfx). exists x. auto.
Qed.

Lemma re_compile_str x c : re_compile x = Ret c -> exists s, x = PyStr s.
Proof. destruct x; try discriminate. eauto. Qed.

(** What the loop returns is the absent dictionary, or what [extract]
    makes of the first match of some pattern. *)
Lemma check_from_cases ps text cs : forall i0 tr v,
  check_from ps i0 cs text = (tr, Ret v) ->
  v = absent
  \/ exists i p m ms,
       cs !! i = Some p /\ Re.finditer p text = m :: ms
       /\ extract ps (i0 + i) m = Ret v.
Proof.
  induction cs as [|c cs IH]; intros i0 tr v H; simpl in H.
  - injection H as _ <-. auto.
  - destruct (Re.finditer c text) as [|m ms] eqn:Hc.
    + destruct (check_from ps (S i0) cs text) as [tr' r] eqn:Hrest.
      injection H as _ ->.
      destruct (IH _ _ _ Hrest) as [->|(i & p & m & ms & Hi & Hm & He)]; [auto|].
      right. exists (S i), p, m, ms. rewrite Nat.add_succ_r. auto.
    + injection H as _ He. right. exists 0%nat, c, m, ms.
      rewrite Nat.add_0_r. auto.
Qed.

Lemma group_capture m n g :
  n <> 0%nat -> Re.group m n = Ret g -> g = capture m n.
Proof.
  intros Hn H. unfold Re.group in H. destruct n as [|n]; [contradiction|].
  destruct (S n <=? Re.m_ngroups m)%nat; [|discriminate].
  unfold capture. destruct (Re.m_marks m !! S n) as [[a b]|]; congruence.
Qed.

Lemma extract_fields ps i m v :
  extract ps i m = Ret v ->
  exists p,
    ps !! i = Some p
    /\ v = verdict (capture m (score_group i)) p
             (PyStr (slice (Re.m_string m) (Re.m_start m) (Re.m_end m)))
             (if (i =? 0)%nat then capture m 1 else PyNone).
Proof.
  unfold extract, score_group. simpl. intros H.
  destruct (i =? 0)%nat.
  - destruct (Re.group m 1) as [y|] eqn:Hy; [|discriminate]. simpl in H.
    destruct (Re.group m 2) as [sc|] eqn:Hsc; [|discriminate]. simpl in H.
    destruct (ps !! i) as [p|]; [|discriminate]. injection H as <-.
    apply group_capture in Hy; [|discriminate].
    apply group_capture in Hsc; [|discriminate]. subst. eauto.
  - destruct (Re.group m 1) as [sc|] eqn:Hsc; [|discriminate]. simpl in H.
    destruct (ps !! i) as [p|]; [|discriminate]. injection H as <-.
    apply group_capture in Hsc; [|discriminate]. subst. eauto.
Qed.

Lemma verdict_fields sc p mt yr :
  verdict sc p mt yr !! "has_kpi_statement" = Some (PyBool true)
  /\ verdict sc p mt yr !! "score" = Some sc
  /\ verdict sc p mt yr !! "matching_pattern" = Some p
  /\ verdict sc p mt yr !! "match_text" = Some mt
  /\ verdict sc p mt yr !! "year" = Some yr.
Proof. repeat split; vm_compute; reflexivity. Qed.

Lemma capture_present m n :
  capture m n <> PyNone <-> is_Some (Re.m_marks m !! n).
Proof.
  unfold capture. destruct (Re.m_marks m !! n) as [[a b]|]; split.
  - eauto.
  - discriminate.
  - congruence.
  - intros [x Hx]. discriminate.
Qed.

(** The histogram loop of [analyze_results] on a single result whose
    score is the string [s]. *)
Lemma distribute_single f v s z :
  v !! "score" = Some (PyStr s) -> s <> [] -> int_of_str s = Some z ->
  distribute [(f, v)] ∅ = Ret {[ z := 1 ]}.
Proof.
  intros Hv Hs Hz. simpl. unfold dict_get. rewrite Hv.
  destruct s as [|c s]; [contradiction|]. simpl. rewrite Hz. simpl.
  rewrite lookup_empty. reflexivity.
Qed.

Lemma check_text_trace_other self v :
  isinstance_str v = false -> check_text_trace self v = ([], Ret absent).
Proof.
  intros Hv. unfold check_text_trace. rewrite Hv, orb_true_r. reflexivity.
Qed.

(** ** Results with a usable score *)

Lemma group_in_range m n :
  n <> 0%nat -> (n <= Re.m_ngroups m)%nat -> Re.group m n = Ret (capture m n).
Proof.
  intros Hn Hle. unfold Re.group, capture. destruct n as [|n]; [contradiction|].
  apply Nat.leb_le in Hle. rewrite Hle.
  destruct (Re.m_marks m !! S n) as [[a b]|]; reflexivity.
Qed.

Lemma group_zero m :
  Re.group m 0 = Ret (PyStr (slice (Re.m_string m) (Re.m_start m) (Re.m_end m))).
Proof. reflexivity. Qed.

Lemma extract_well_formed ps i p text m src :
  ps !! i = Some (PyStr src) ->
  pattern_ok i p = true ->
  In m (Re.finditer p text) ->
  exists v, extract ps i m = Ret v /\ well_formed v.
Proof.
  intros Hsrc Hok Hin. unfold pattern_ok in Hok.
  apply andb_true_iff in Hok as [Hg Hd]. apply Nat.leb_le in Hg.
  destruct (ReFacts.finditer_fields p text m Hin) as (Hs & Hn & _).
  destruct (ReFacts.finditer_digits p text _ m Hd Hin) as (a & b & Hk & Hne & Hall).
  destruct (IntFacts.int_of_str_decimal _ Hne Hall) as (z & Hz & Hz0).
  assert (Hcap : capture m (score_group i) = PyStr (slice text a b)).
  { unfold capture. rewrite Hk, Hs. reflexivity. }
  assert (Hscore : Re.group m (score_group i) = Ret (PyStr (slice text a b))).
  { rewrite <- Hcap. apply group_in_range; [|rewrite Hn; exact Hg].
    unfold score_group. destruct (i =? 0)%nat; discriminate. }
  unfold extract. rewrite group_zero. simpl.
  unfold score_group in Hscore, Hg. destruct (i =? 0)%nat.
  - rewrite (group_in_range m 1) by (try discriminate; rewrite Hn; lia).
    simpl. rewrite Hscore. simpl. rewrite Hsrc.
    eexists. split; [reflexivity|]. right.
    exists (slice text a b), src,
      (slice (Re.m_string m) (Re.m_start m) (Re.m_end m)), (capture m 1), z.
    auto.
  - rewrite Hscore. simpl. rewrite Hsrc.
    eexists. split; [reflexivity|]. right.
    exists (slice text a b), src,
      (slice (Re.m_string m) (Re.m_start m) (Re.m_end m)), PyNone, z.
    auto.
Qed.

Lemma check_from_well_formed ps text cs : forall i0,
  (forall i p, cs !! i = Some p ->
     pattern_ok (i0 + i) p = true /\ exists src, ps !! (i0 + i)%nat = Some (PyStr src)) ->
  exists tr v, check_from ps i0 cs text = (tr, Ret v) /\ well_formed v.
Proof.
  induction cs as [|c cs IH]; intros i0 Hok; simpl.
  - exists [], absent. split; [reflexivity|]. left. reflexivity.
  - destruct (Re.finditer c text) as [|m ms] eqn:Hc.
    + destruct (IH (S i0)) as (tr & v & Hv & Hwf).
      { intros i p Hi. specialize (Hok (S i) p Hi).
        rewrite Nat.add_succ_r in Hok. exact Hok. }
      rewrite Hv. eauto.
    + destruct (Hok 0%nat c eq_refl) as [Hp [src Hsrc]].
      rewrite Nat.add_0_r in Hp, Hsrc.
      destruct (extract_well_formed ps i0 c text m src Hsrc Hp) as (v & Hv & Hwf).
      { rewrite Hc. left. reflexivity. }
      rewrite Hv. eauto.
Qed.

Lemma default_patterns_compile :
  mapM re_compile (PyStr <$> Config.default_kpi_patterns) = Ret default_compiled.
Proof. vm_compute. reflexivity. Qed.

Lemma default_patterns_iterate :
  iterate (patterns (init Config.default_config))
  = Ret (PyStr <$> Config.default_kpi_patterns).
Proof. vm_compute. reflexivity. Qed.

Lemma default_patterns_ok i p :
  default_compiled !! i = Some p ->
  pattern_ok (0 + i) p = true
  /\ exists src, (PyStr <$> Config.default_kpi_patterns) !! (0 + i)%nat = Some (PyStr src).
Proof.
  intros Hi.
  destruct i as [|[|[|[|[|i]]]]]; try discriminate;
    injection Hi as <-; (split; [vm_compute; reflexivity|eexists; reflexivity]).
Qed.

(** With the default patterns [check_text] raises no exception, whatever
    it is given, and its result has a usable score. *)
Lemma check_text_default text :
  exists v, check_text (init Config.default_config) text = Ret v /\ well_formed v.
Proof.
  assert (Habs : exists v, Ret absent = Ret v /\ well_formed v)
    by (exists absent; split; [reflexivity|left; reflexivity]).
  unfold check_text.
  destruct (isinstance_str text) eqn:Hstr;
    [|rewrite (check_text_trace_other _ text Hstr); exact Habs].
  destruct text as [| | |s| |]; try discriminate.
  destruct s as [|c s]; [exact Habs|].
  rewrite (check_text_trace_compiled _ _ _ (c :: s) ltac:(discriminate)
             default_patterns_iterate default_patterns_compile).
  destruct (check_from_well_formed (PyStr <$> Config.default_kpi_patterns)
              (c :: s) default_compiled 0 default_patterns_ok)
    as (tr & v & Hv & Hwf).
  rewrite Hv. eauto.
Qed.

Lemma check_files_default file_contents :
  exists results,
    check_files (init Config.default_config) file_contents = Ret results
    /\ Forall (fun kv : string * pydict => well_formed kv.2) results.
Proof.
  induction file_contents as [|[f content] rest (results & Hr & Hall)]; simpl.
  - exists []. split; [reflexivity|constructor].
  - destruct (check_text_default content) as (v & Hv & Hwf).
    rewrite Hv. simpl. rewrite Hr. simpl.
    exists ((f, v) :: results). split; [reflexivity|]. constructor; auto.
Qed.

Lemma well_formed_score v :
  well_formed v ->
  has_kpi v = has_score v
  /\ (has_score v = true ->
      exists z, py_int (dict_get v "score" PyNone) = Ret z)
  /\ (v !! "score" <> Some PyNone <-> v !! "has_kpi_statement" = Some (PyBool true)).
Proof.
  intros [->|(ds & p & mt & yr & z & -> & Hne & Hz & _)].
  - split; [reflexivity|]. split; [discriminate|].
    split; [intros H; exfalso; apply H; reflexivity|discriminate].
  - destruct (verdict_fields (PyStr ds) (PyStr p) (PyStr mt) yr)
      as (F1 & F2 & _).
    unfold has_kpi, has_score, dict_get. rewrite F1, F2.
    destruct ds as [|c ds]; [contradiction|]. simpl.
    split; [reflexivity|]. split.
    + intros _. exists z. simpl in Hz |- *. rewrite Hz. reflexivity.
    + split; [reflexivity|discriminate].
Qed.

(** C1. When several patterns have a match in the text, the result is
    what the pattern of lowest index gives at its first match, wherever in
    the text the matches lie, and the patterns after it are not searched:
    the patterns searched are exactly those of index [0] to [i]. *)
Theorem check_text_lowest_index self ps cs text i p m ms :
  text <> [] ->
  iterate (patterns self) = Ret ps ->
  mapM re_compile ps = Ret cs ->
  cs !! i = Some p ->
  Re.finditer p text = m :: ms ->
  (forall j q, cs !! j = Some q -> Re.finditer q text <> [] -> (i <= j)%nat) ->
  check_text self (PyStr text) = extract ps i m
  /\ fst (check_text_trace self (PyStr text)) = seq 0 (S i)
  /\ (forall j, In j (fst (check_text_trace self (PyStr text))) <-> (j <= i)%nat).
Proof.
  intros Hne Hps Hcs Hi Hm Hmin. unfold check_text.
  rewrite (check_text_trace_compiled self ps cs text Hne Hps Hcs).
  rewrite (check_from_first ps text cs 0 i p m ms Hi Hm Hmin). cbn [fst snd].
  split; [reflexivity|]. split; [reflexivity|].
  intros j. rewrite in_seq. lia.
Qed.

(** C6. Empty or absent text, and any text in which no pattern has a
    match, give the dictionary with [has_kpi_statement] false and every
    other field [None]; no exception is raised. *)
Theorem check_text_absent self :
  check_text self (PyStr []) = Ret absent
  /\ check_text self PyNone = Ret absent
  /\ (forall ps cs text,
        iterate (patterns self) = Ret ps ->
        mapM re_compile ps = Ret cs ->
        Forall (fun q => Re.finditer q text = []) cs ->
        check_text self (PyStr text) = Ret absent)
  /\ absent !! "has_kpi_statement" = Some (PyBool false)
  /\ absent !! "score" = Some PyNone
  /\ absent !! "matching_pattern" = Some PyNone
  /\ absent !! "match_text" = Some PyNone
  /\ absent !! "year" = Some PyNone.
Proof.
  split; [reflexivity|]. split; [reflexivity|]. split; [|repeat split].
  intros ps cs text Hps Hcs Hall. unfold check_text.
  destruct text as [|c text]; [reflexivity|].
  rewrite (check_text_trace_compiled self ps cs (c :: text) ltac:(discriminate) Hps Hcs).
  rewrite (check_from_none ps (c :: text) cs 0 Hall). reflexivity.
Qed.



(** C2, as the code has it. The score field is the text captured by the
    score group, a string and not an integer; the year field is the text
    captured by the first group of pattern 0 and [None] for the other
    patterns. The integer is computed from the string later, by the
    histogram loop of [analyze_results]. *)
Theorem check_text_score_is_captured_text self ps cs text i p m ms v :
  text <> [] ->
  iterate (patterns self) = Ret ps ->
  mapM re_compile ps = Ret cs ->
  cs !! i = Some p ->
  Re.finditer p text = m :: ms ->
  (forall j q, cs !! j = Some q -> Re.finditer q text <> [] -> (i <= j)%nat) ->
  check_text self (PyStr text) = Ret v ->
  Re.m_string m = text
  /\ v !! "has_kpi_statement" = Some (PyBool true)
  /\ v !! "score" = Some (capture m (score_group i))
  /\ v !! "year" = Some (if (i =? 0)%nat then capture m 1 else PyNone)
  /\ v !! "matching_pattern" = ps !! i
  /\ v !! "match_text" = Some (PyStr (slice text (Re.m_start m) (Re.m_end m)))
  /\ (forall z, v !! "score" <> Some (PyInt z))
  /\ (forall f s z,
        v !! "score" = Some (PyStr s) -> s <> [] -> int_of_str s = Some z ->
        distribute [(f, v)] ∅ = Ret {[ z := 1 ]}).
Proof.
  intros Hne Hps Hcs Hi Hm Hmin Hv. unfold check_text in Hv.
  rewrite (check_text_trace_compiled self ps cs text Hne Hps Hcs) in Hv.
  rewrite (check_from_first ps text cs 0 i p m ms Hi Hm Hmin) in Hv.
  cbn [fst snd] in Hv. rewrite Nat.add_0_l in Hv.
  apply extract_fields in Hv as (x & Hx & ->).
  destruct (ReFacts.finditer_fields p text m) as (Hs & _ & _);
    [rewrite Hm; left; reflexivity|].
  destruct (verdict_fields (capture m (score_group i)) x
              (PyStr (slice (Re.m_string m) (Re.m_start m) (Re.m_end m)))
              (if (i =? 0)%nat then capture m 1 else PyNone))
    as (F1 & F2 & F3 & F4 & F5).
  split; [exact Hs|]. rewrite F1, F2, F3, F4, F5, Hx.
  repeat split; auto.
  - rewrite Hs. reflexivity.
  - intros z. unfold capture.
    destruct (Re.m_marks m !! score_group i) as [[a b]|]; discriminate.
  - intros f s z H. apply distribute_single. rewrite F2. exact H.
Qed.

(** The fields of a returned dictionary, and where they come from. *)
Lemma check_text_fields self text v :
  check_text self text = Ret v ->
  exists b sc pat mt yr,
    v !! "has_kpi_statement" = Some (PyBool b)
    /\ v !! "score" = Some sc
    /\ v !! "matching_pattern" = Some pat
    /\ v !! "match_text" = Some mt
    /\ v !! "year" = Some yr
    /\ (pat <> PyNone <-> b = true)
    /\ (mt <> PyNone <-> b = true)
    /\ (b = false -> sc = PyNone /\ yr = PyNone)
    /\ (b = true ->
        exists s ps cs i p m ms,
          text = PyStr s
          /\ iterate (patterns self) = Ret ps
          /\ mapM re_compile ps = Ret cs
          /\ cs !! i = Some p
          /\ Re.finditer p s = m :: ms
          /\ sc = capture m (score_group i)
          /\ (sc <> PyNone <-> is_Some (Re.m_marks m !! score_group i))).
Proof.
  assert (Habsent : exists b sc pat mt yr,
    absent !! "has_kpi_statement" = Some (PyBool b)
    /\ absent !! "score" = Some sc
    /\ absent !! "matching_pattern" = Some pat
    /\ absent !! "match_text" = Some mt
    /\ absent !! "year" = Some yr
    /\ (pat <> PyNone <-> b = true)
    /\ (mt <> PyNone <-> b = true)
    /\ (b = false -> sc = PyNone /\ yr = PyNone)
    /\ (b = true ->
        exists s ps cs i p m ms,
          text = PyStr s
          /\ iterate (patterns self) = Ret ps
          /\ mapM re_compile ps = Ret cs
          /\ cs !! i = Some p
          /\ Re.finditer p s = m :: ms
          /\ sc = capture m (score_group i)
          /\ (sc <> PyNone <-> is_Some (Re.m_marks m !! score_group i)))).
  { exists false, PyNone, PyNone, PyNone, PyNone.
    repeat split; try reflexivity; try congruence; try discriminate. }
  intros Hv. unfold check_text, check_text_trace in Hv.
  destruct (negb (truthy text) || negb (isinstance_str text)) eqn:Hguard.
  { injection Hv as <-. exact Habsent. }
  destruct text as [| | |s| |]; try (injection Hv as <-; exact Habsent).
  destruct (iterate (patterns self)) as [ps|e] eqn:Hps; [|discriminate].
  simpl in Hv.
  destruct (mapM re_compile ps) as [cs|e] eqn:Hcs; [|discriminate].
  simpl in Hv.
  destruct (check_from ps 0 cs s) as [tr r] eqn:Hfrom. simpl in Hv. subst r.
  apply check_from_cases in Hfrom
    as [->|(i & p & m & ms & Hi & Hm & He)]; [exact Habsent|].
  rewrite Nat.add_0_l in He.
  apply extract_fields in He as (x & Hx & ->).
  destruct (mapM_lookup re_compile ps cs i p Hcs Hi) as (x' & Hx' & Hc).
  rewrite Hx in Hx'. injection Hx' as <-.
  apply re_compile_str in Hc as [src ->].
  destruct (verdict_fields (capture m (score_group i)) (PyStr src)
              (PyStr (slice (Re.m_string m) (Re.m_start m) (Re.m_end m)))
              (if (i =? 0)%nat then capture m 1 else PyNone))
    as (F1 & F2 & F3 & F4 & F5).
  exists true, (capture m (score_group i)), (PyStr src),
    (PyStr (slice (Re.m_string m) (Re.m_start m) (Re.m_end m))),
    (if (i =? 0)%nat then capture m 1 else PyNone).
  repeat split; auto; try discriminate.
  intros _. exists s, ps, cs, i, p, m, ms.
  repeat split; auto; apply capture_present.
Qed.


(** C5, as the code has it. [matching_pattern] and [match_text] are set
    exactly when [has_kpi_statement] is true, and [score] and [year] are
    [None] when it is false. When it is true the score is what the score
    group of the first match of the winning pattern captured: it is set
    exactly when that group took part in the match, which is always so
    with the default patterns. *)
Theorem check_text_fields_together self text v :
  check_text self text = Ret v ->
  exists b sc pat mt yr,
    v !! "has_kpi_statement" = Some (PyBool b)
    /\ v !! "score" = Some sc
    /\ v !! "matching_pattern" = Some pat
    /\ v !! "match_text" = Some mt
    /\ v !! "year" = Some yr
    /\ (pat <> PyNone <-> b = true)
    /\ (mt <> PyNone <-> b = true)
    /\ (b = false -> sc = PyNone /\ yr = PyNone)
    /\ (b = true ->
        exists s ps cs i p m ms,
          text = PyStr s
          /\ iterate (patterns self) = Ret ps
          /\ mapM re_compile ps = Ret cs
          /\ cs !! i = Some p
          /\ Re.finditer p s = m :: ms
          /\ sc = capture m (score_group i)
          /\ (sc <> PyNone <-> is_Some (Re.m_marks m !! score_group i)))
    /\ (self = init Config.default_config -> (sc <> PyNone <-> b = true)).
Proof.
  intros Hv.
  destruct (check_text_fields self text v Hv)
    as (b & sc & pat & mt & yr & Hb & Hsc & Hpat & Hmt & Hyr & H1 & H2 & H3 & H4).
  exists b, sc, pat, mt, yr. repeat (split; [assumption|]).
  intros ->. destruct (check_text_default text) as (v' & Hv' & Hwf).
  rewrite Hv in Hv'. injection Hv' as <-.
  destruct (well_formed_score v Hwf) as (_ & _ & Hiff).
  rewrite Hsc, Hb in Hiff. destruct Hiff as [Hto Hback]. split.
  - intros Hne. assert (Hs : Some sc <> Some PyNone) by congruence.
    apply Hto in Hs. congruence.
  - intros -> ->. apply Hback; reflexivity.
Qed.

End CheckerFacts.

(** * Properties of the rounding *)

Module FloatFacts.



End FloatFacts.

(** * Properties of the aggregator *)

Module AggregatorFacts.
Import KPIChecker.

Lemma sum_counts_insert_new (d : gmap Z Z) k n :
  d !! k = None -> sum_counts (<[k := n]> d) = n + sum_counts d.
Proof.
  intros Hk. unfold sum_counts.
  apply (map_fold_insert_L (fun _ n acc => n + acc)); [|exact Hk].
  intros. lia.
Qed.

Lemma sum_counts_insert_old (d : gmap Z Z) k n n' :
  d !! k = Some n -> sum_counts (<[k := n']> d) = sum_counts d - n + n'.
Proof.
  intros Hk.
  rewrite <- (insert_delete_eq d k n') at 1.
  rewrite <- (insert_delete_id d k n Hk) at 2.
  rewrite !sum_counts_insert_new by apply lookup_delete_eq. lia.
Qed.

Lemma sum_counts_empty : sum_counts ∅ = 0.
Proof. reflexivity. Qed.

(** The histogram loop adds one to the sum of the counts for every result
    with a score. *)
Lemma distribute_sum results : forall d d',
  distribute results d = Ret d' ->
  sum_counts d' = sum_counts d + count_with_score results.
Proof.
  unfold count_with_score.
  induction results as [|[f r] results IH]; intros d d' H; simpl in H.
  - injection H as <-. simpl. lia.
  - rewrite filter_cons. cbn [snd]. fold (has_score r) in H |- *.
    destruct (has_score r) eqn:Hs.
    + rewrite decide_True by reflexivity.
      destruct (py_int (dict_get r "score" PyNone)) as [z|] eqn:Hz; [|discriminate].
      simpl in H. destruct (d !! z) as [n|] eqn:Hd; apply IH in H; rewrite H.
      * rewrite (sum_counts_insert_old d z n (n + 1) Hd). simpl length. lia.
      * rewrite (sum_counts_insert_new d z 1 Hd). simpl length. lia.
    + rewrite decide_False by discriminate. apply IH in H. exact H.
Qed.

Lemma count_consistent results :
  Forall (fun kv : string * pydict => has_kpi kv.2 = has_score kv.2) results ->
  count_with_score results = count_with_kpi results.
Proof.
  unfold count_with_score, count_with_kpi. intros Hall. do 2 f_equal.
  induction Hall as [|kv results Hkv _ IH]; [reflexivity|].
  rewrite !filter_cons, IH, Hkv. reflexivity.
Qed.

(** What a returned summary was computed from. *)
Lemma analyze_results_inv results s :
  analyze_results results = Ret s ->
  total_files s = Z.of_nat (length results)
  /\ files_with_kpi s = count_with_kpi results
  /\ files_without_kpi s = total_files s - files_with_kpi s
  /\ distribute results ∅ = Ret (score_distribution s)
  /\ exists total_score,
       sum_scores results = Ret total_score
       /\ (if 0 <? count_with_kpi results
           then exists q r,
                  Float.truediv total_score (count_with_kpi results) = Ret q
                  /\ Float.round2 q = Ret r /\ average_score s = NFloat r
           else average_score s = NInt 0).
Proof.
  unfold analyze_results. intros H.
  destruct (distribute results ∅) as [dist|] eqn:Hd; [|discriminate]. simpl in H.
  destruct (sum_scores results) as [total|] eqn:Ht; [|discriminate]. simpl in H.
  destruct (0 <? count_with_kpi results) eqn:Hpos.
  - destruct (Float.truediv total (count_with_kpi results)) as [q|] eqn:Hq;
      [|discriminate].
    simpl in H.
    destruct (Float.round2 q) as [r|] eqn:Hr; [|discriminate]. simpl in H.
    injection H as <-. simpl. repeat split; eauto 10.
  - simpl in H. injection H as <-. simpl. repeat split; eauto.
Qed.

Lemma dict_get_score_default (r : pydict) :
  has_score r = true ->
  dict_get r "score" (PyInt 0) = dict_get r "score" PyNone.
Proof.
  unfold has_score, dict_get. destruct (r !! "score"); [reflexivity|discriminate].
Qed.


Lemma loops_return results :
  scores_numeric results ->
  (forall d, exists d', distribute results d = Ret d')
  /\ exists t, sum_scores results = Ret t.
Proof.
  intros Hall.
  induction Hall as [|[f r] results Hr _ [IHd [t IHs]]]; simpl.
  - split; eauto.
  - fold (has_score r). cbn [snd] in Hr. destruct (has_score r) eqn:Hs.
    + destruct (Hr eq_refl) as [z Hz].
      rewrite (dict_get_score_default r Hs), Hz. simpl. rewrite IHs. simpl.
      split; [|eauto]. intros d. destruct (d !! z); apply IHd.
    + split; [exact IHd|eauto].
Qed.

(** The results that [check_files] returns with the default patterns have
    a true score exactly when they have a statement, and scores that
    [int] accepts. *)
Lemma default_results_consistent file_contents results :
  check_files (init Config.default_config) file_contents = Ret results ->
  Forall (fun kv : string * pydict => has_kpi kv.2 = has_score kv.2) results
  /\ scores_numeric results.
Proof.
  intros H. destruct (CheckerFacts.check_files_default file_contents)
    as (results' & H' & Hall).
  rewrite H in H'. injection H' as <-. unfold scores_numeric. split.
  - eapply Forall_impl; [exact Hall|]. intros kv Hwf.
    apply (CheckerFacts.well_formed_score _ Hwf).
  - eapply Forall_impl; [exact Hall|]. intros kv Hwf.
    apply (CheckerFacts.well_formed_score _ Hwf).
Qed.

(** C3, as the code has it. The two file counts add up to the total; the
    counts of the histogram add up to the number of results whose score is
    true, which is [files_with_kpi] when every result has a true score
    exactly when its [has_kpi_statement] is true, as the results of
    [check_files] with the default patterns have. *)
Theorem analyze_results_counts results s :
  analyze_results results = Ret s ->
  files_with_kpi s + files_without_kpi s = total_files s
  /\ sum_counts (score_distribution s) = count_with_score results
  /\ (Forall (fun kv : string * pydict => has_kpi kv.2 = has_score kv.2) results ->
      sum_counts (score_distribution s) = files_with_kpi s)
  /\ (forall file_contents,
        check_files (init Config.default_config) file_contents = Ret results ->
        sum_counts (score_distribution s) = files_with_kpi s).
Proof.
  intros H. apply analyze_results_inv in H as (Ht & Hw & Hwo & Hd & _).
  apply distribute_sum in Hd. rewrite sum_counts_empty in Hd.
  split; [lia|]. split; [lia|].
  assert (Hcons : Forall (fun kv : string * pydict => has_kpi kv.2 = has_score kv.2)
                    results -> sum_counts (score_distribution s) = files_with_kpi s).
  { intros Hall. rewrite Hd, Hw. apply count_consistent. exact Hall. }
  split; [exact Hcons|].
  intros file_contents Hfc. apply Hcons.
  apply (default_results_consistent file_contents results Hfc).
Qed.


End AggregatorFacts.

(** * Properties of the configuration *)

Module ConfigFacts.
Import Config.

Lemma eq_str_spec pattern v : eq_str pattern v = true <-> v = PyStr pattern.
Proof.
  destruct v; simpl; try (split; [discriminate|congruence]).
  unfold str_eqb. rewrite bool_decide_eq_true. split; congruence.
Qed.

Lemma existsb_eq_str pattern l :
  existsb (eq_str pattern) l = true <-> In (PyStr pattern) l.
Proof.
  rewrite existsb_exists. split.
  - intros (v & Hin & Hv). apply eq_str_spec in Hv. subst. exact Hin.
  - intros Hin. exists (PyStr pattern). split; [exact Hin|].
    apply eq_str_spec. reflexivity.
Qed.

Lemma merge_merged key value (config : pydict) :
  merge key value config = <[key := merged value (config !! key)]> config.
Proof.
  unfold merge, merged. destruct value; try reflexivity.
  destruct (config !! key) as [[]|]; reflexivity.
Qed.

(** After the loop of [load_config], a key of the file holds the merged
    value and every other key holds what it held. *)
Lemma load_loop_lookup (config user_config : pydict) key :
  map_fold merge config user_config !! key =
  match user_config !! key with
  | Some value => Some (merged value (config !! key))
  | None => config !! key
  end.
Proof.
  revert key.
  apply (map_fold_weak_ind
           (fun (r : pydict) (m : pydict) =>
              forall key, r !! key =
                match m !! key with
                | Some value => Some (merged value (config !! key))
                | None => config !! key
                end) merge config).
  - intros key. rewrite lookup_empty. reflexivity.
  - intros i x m r Hi IH key. rewrite merge_merged.
    destruct (decide (i = key)) as [->|Hne].
    + rewrite !lookup_insert_eq. rewrite (IH key), Hi. reflexivity.
    + rewrite !lookup_insert_ne by exact Hne. apply IH.
Qed.

(** Every configuration has a value under [kpi_patterns]: the default
    has one, and no operation removes a key. *)
Lemma default_has_patterns : is_Some (default_config !! "kpi_patterns").
Proof. eexists. vm_compute. reflexivity. Qed.

Lemma set_keeps_patterns key value (config : pydict) :
  is_Some (config !! "kpi_patterns") ->
  is_Some (Config.set key value config !! "kpi_patterns").
Proof.
  intros H. unfold Config.set. rewrite lookup_insert.
  destruct (decide (key = "kpi_patterns")); eauto.
Qed.

Lemma load_keeps_patterns config_file disk (config config' : pydict) :
  is_Some (config !! "kpi_patterns") ->
  load_config config_file disk config = Ret config' ->
  is_Some (config' !! "kpi_patterns").
Proof.
  intros H. unfold load_config.
  destruct (disk !! config_file) as [[[[]| |]|]|]; try discriminate;
    intros Heq; injection Heq as <-; try exact H.
  rewrite load_loop_lookup. destruct (d !! "kpi_patterns"); eauto.
Qed.

Lemma add_keeps_patterns pattern (config config' : pydict) :
  add_kpi_pattern pattern config = Ret config' ->
  is_Some (config' !! "kpi_patterns").
Proof.
  unfold add_kpi_pattern.
  destruct (config !! "kpi_patterns") as [v|] eqn:Hk.
  - rewrite Hk. destruct v; try discriminate.
    destruct (negb _); intros H; injection H as <-.
    + rewrite lookup_insert_eq. eauto.
    + rewrite Hk. eauto.
  - rewrite lookup_insert_eq. simpl. intros H. injection H as <-.
    rewrite lookup_insert_eq. eauto.
Qed.

(** C8. [add_kpi_pattern] appends the pattern at the end of the list when
    no equal string is in it, and changes nothing otherwise; the patterns
    that were there stay at the front, in their order, and no other key of
    the configuration changes. *)
Theorem add_kpi_pattern_appends pattern config l :
  patterns_list config = Some l ->
  exists config',
    add_kpi_pattern pattern config = Ret config'
    /\ (In (PyStr pattern) l -> config' = config /\ patterns_list config' = Some l)
    /\ (~ In (PyStr pattern) l ->
        patterns_list config' = Some (l ++ [PyStr pattern]))
    /\ (exists added, patterns_list config' = Some (l ++ added))
    /\ (forall key, key <> "kpi_patterns" -> config' !! key = config !! key).
Proof.
  unfold patterns_list, add_kpi_pattern. intros Hl.
  destruct (config !! "kpi_patterns") as [v|] eqn:Hk.
  - destruct v; try discriminate. injection Hl as ->. rewrite Hk.
    destruct (existsb (eq_str pattern) l) eqn:Hex; simpl.
    + apply existsb_eq_str in Hex. exists config. rewrite Hk.
      split; [reflexivity|]. split; [auto|]. split; [intros Hnot; contradiction|].
      split; [exists []; rewrite app_nil_r; reflexivity|]. reflexivity.
    + assert (Hnot : ~ In (PyStr pattern) l).
      { intros Hin. apply existsb_eq_str in Hin. congruence. }
      eexists. split; [reflexivity|]. rewrite lookup_insert_eq.
      split; [intros Hin; contradiction|]. split; [reflexivity|].
      split; [eauto|].
      intros key Hne. rewrite lookup_insert_ne by congruence. reflexivity.
  - injection Hl as <-. rewrite lookup_insert_eq. simpl.
    eexists. split; [reflexivity|]. rewrite lookup_insert_eq.
    split; [intros []|]. split; [reflexivity|]. split; [eauto|].
    intros key Hne. rewrite !lookup_insert_ne by congruence. reflexivity.
Qed.

(** C9. A configuration saved to a file that can be written and loaded
    into a fresh [Config] gives back the same list of patterns, element
    for element and in the same order. *)
Theorem save_then_load_keeps_patterns config_file config disk v :
  disk !! config_file <> Some Directory ->
  config !! "kpi_patterns" = Some v ->
  exists config',
    load_config config_file (save_config config_file config disk) default_config
      = Ret config'
    /\ config' !! "kpi_patterns" = Some v
    /\ get_kpi_patterns config' = get_kpi_patterns config
    /\ (config_file <> "" ->
        init (Some config_file) (save_config config_file config disk) = Ret config').
Proof.
  intros Hw Hv.
  assert (Hsaved : save_config config_file config disk !! config_file
                   = Some (File (Json (PyDict config)))).
  { unfold save_config. destruct (disk !! config_file) as [[c|]|] eqn:Hd;
      try apply lookup_insert_eq. contradiction. }
  exists (map_fold merge default_config config).
  assert (Hk : map_fold merge default_config config !! "kpi_patterns" = Some v).
  { rewrite load_loop_lookup, Hv. f_equal. unfold merged.
    destruct v; reflexivity. }
  split; [unfold load_config; rewrite Hsaved; reflexivity|].
  split; [exact Hk|]. split.
  - unfold get_kpi_patterns, dict_get. rewrite Hk, Hv. reflexivity.
  - intros Hne. unfold init.
    rewrite bool_decide_eq_false_2 by exact Hne.
    rewrite bool_decide_eq_true_2 by (rewrite Hsaved; eauto).
    simpl. unfold load_config. rewrite Hsaved. reflexivity.
Qed.

End ConfigFacts.

(** * More properties of the aggregator *)

Module AggregationFacts.
Import KPIChecker Aggregation.

Lemma count_score_cons k f r results :
  count_score k ((f, r) :: results)
  = (if converts_to k r then 1 else 0) + count_score k results.
Proof.
  unfold count_score. rewrite filter_cons. cbn [snd].
  destruct (converts_to k r).
  - rewrite decide_True by reflexivity. simpl length. lia.
  - rewrite decide_False by discriminate. lia.
Qed.

Lemma count_score_nonneg k results : 0 <= count_score k results.
Proof. unfold count_score. lia. Qed.

(** After the histogram loop a bucket holds what it held plus the number
    of results that go to it; a bucket that would hold nothing does not
    exist. *)
Lemma distribute_lookup results : forall d d',
  distribute results d = Ret d' ->
  forall k,
    d' !! k =
    match d !! k with
    | Some n => Some (n + count_score k results)
    | None => if count_score k results =? 0 then None
              else Some (count_score k results)
    end.
Proof.
  induction results as [|[f r] results IH]; intros d d' H k; simpl in H.
  - injection H as <-. change (count_score k []) with 0.
    destruct (d !! k); [f_equal; lia|reflexivity].
  - rewrite count_score_cons. pose proof (count_score_nonneg k results) as Hc.
    unfold converts_to. fold (has_score r) in H |- *.
    destruct (has_score r) eqn:Hs; simpl andb.
    + destruct (py_int (dict_get r "score" PyNone)) as [z|] eqn:Hz; [|discriminate].
      simpl in H.
      destruct (d !! z) as [n|] eqn:Hd; rewrite (IH _ _ H k);
        (destruct (Z.eqb_spec z k) as [->|Hne];
         [rewrite lookup_insert_eq, Hd
         |rewrite lookup_insert_ne by exact Hne; rewrite !Z.add_0_l]).
      * f_equal. lia.
      * reflexivity.
      * destruct (Z.eqb_spec (1 + count_score k results) 0); [lia|reflexivity].
      * reflexivity.
    + rewrite (IH _ _ H k), !Z.add_0_l. reflexivity.
Qed.

(** The loops return only when [int] accepts every score they convert. *)
Lemma distribute_numeric results : forall d d',
  distribute results d = Ret d' -> scores_numeric results.
Proof.
  unfold scores_numeric.
  induction results as [|[f r] results IH]; intros d d' H; simpl in H.
  - constructor.
  - fold (has_score r) in H. destruct (has_score r) eqn:Hs.
    + destruct (py_int (dict_get r "score" PyNone)) as [z|] eqn:Hz; [|discriminate].
      simpl in H. constructor.
      * cbn [snd]. eauto.
      * destruct (d !! z); eapply IH; exact H.
    + constructor; [cbn [snd]; congruence|]. eapply IH. exact H.
Qed.

Lemma sum_scores_perm results results' :
  results ≡ₚ results' ->
  forall t, sum_scores results = Ret t -> sum_scores results' = Ret t.
Proof.
  induction 1 as [|[f r] l l' _ IH|[f1 r1] [f2 r2] l|l l' l'' _ IH1 _ IH2];
    intros t H.
  - exact H.
  - simpl in H |- *. destruct (truthy (dict_get r "score" PyNone)); [|auto].
    destruct (py_int _) as [x|]; [|discriminate]. simpl in H |- *.
    destruct (sum_scores l) as [s|]; [|discriminate].
    rewrite (IH s eq_refl). exact H.
  - simpl in H |- *.
    destruct (truthy (dict_get r1 "score" PyNone));
      destruct (truthy (dict_get r2 "score" PyNone)); try exact H.
    destruct (py_int (dict_get r2 "score" (PyInt 0))) as [x2|]; [|discriminate].
    simpl in H |- *.
    destruct (py_int (dict_get r1 "score" (PyInt 0))) as [x1|]; [|discriminate].
    simpl in H |- *.
    destruct (sum_scores l) as [s|]; [|discriminate]. simpl in H |- *.
    injection H as <-. f_equal. lia.
  - auto.
Qed.

Lemma counts_perm results results' :
  results ≡ₚ results' ->
  Z.of_nat (length results) = Z.of_nat (length results')
  /\ count_with_kpi results = count_with_kpi results'
  /\ forall k, count_score k results = count_score k results'.
Proof.
  intros Hp. unfold count_with_kpi, count_score.
  split; [rewrite Hp; reflexivity|]. split; [rewrite Hp; reflexivity|].
  intros k. rewrite Hp. reflexivity.
Qed.

Lemma scores_numeric_perm results results' :
  results ≡ₚ results' -> scores_numeric results -> scores_numeric results'.
Proof. unfold scores_numeric. intros Hp H. rewrite <- Hp. exact H. Qed.

Lemma distribute_perm results results' d :
  results ≡ₚ results' ->
  distribute results ∅ = Ret d -> distribute results' ∅ = Ret d.
Proof.
  intros Hp H.
  pose proof (scores_numeric_perm _ _ Hp (distribute_numeric _ _ _ H)) as Hnum.
  destruct (AggregatorFacts.loops_return results' Hnum) as [Hd _].
  destruct (Hd ∅) as [d' Hd']. rewrite Hd'. f_equal.
  apply map_eq. intros k.
  rewrite (distribute_lookup _ _ _ Hd' k), (distribute_lookup _ _ _ H k).
  destruct (counts_perm _ _ Hp) as (_ & _ & Hc). rewrite (Hc k). reflexivity.
Qed.

(** X8. The histogram. Under [k], [score_distribution] holds the number of
    results whose score is true and converts to [k]; a value that no
    score converts to is not a key. *)
Theorem histogram_counts results s :
  analyze_results results = Ret s ->
  forall k,
    score_distribution s !! k =
    if count_score k results =? 0 then None else Some (count_score k results).
Proof.
  intros H k. apply AggregatorFacts.analyze_results_inv in H as (_ & _ & _ & Hd & _).
  rewrite (distribute_lookup _ _ _ Hd k), lookup_empty. reflexivity.
Qed.

(** X9. The order of the results does not matter. A summary returned for
    the results is returned for every rearrangement of them. *)
Theorem analyze_results_any_order results results' s :
  results ≡ₚ results' ->
  analyze_results results = Ret s ->
  analyze_results results' = Ret s.
Proof.
  intros Hp H. unfold analyze_results in *.
  destruct (distribute results ∅) as [d|] eqn:Hd; [|discriminate].
  destruct (sum_scores results) as [t|] eqn:Ht; [|discriminate].
  rewrite (distribute_perm _ _ _ Hp Hd), (sum_scores_perm _ _ Hp _ Ht).
  destruct (counts_perm _ _ Hp) as (Hlen & Hkpi & _).
  rewrite <- Hlen, <- Hkpi. exact H.
Qed.


Lemma filter_split {A} (P : A -> bool) (l : list A) :
  (length (filter (fun x => P x = true) l)
   + length (filter (fun x => P x = false) l) = length l)%nat.
Proof.
  induction l as [|x l IH]; [reflexivity|].
  rewrite !filter_cons. destruct (P x).
  - rewrite decide_True, decide_False by congruence. simpl. lia.
  - rewrite decide_False, decide_True by congruence. simpl. lia.
Qed.

(** X11. The bounds of a summary. The two file counts lie between zero and
    the total, and every count of the histogram is at least one and at
    most the total. *)
Theorem summary_bounds results s :
  analyze_results results = Ret s ->
  0 <= files_with_kpi s <= total_files s
  /\ 0 <= files_without_kpi s <= total_files s
  /\ (forall k n, score_distribution s !! k = Some n -> 1 <= n <= total_files s).
Proof.
  intros H.
  pose proof (AggregatorFacts.analyze_results_inv _ _ H) as (Ht & Hw & Hwo & Hd & _).
  assert (Hbound : forall (P : string * pydict -> Prop) `{!forall kv, Decision (P kv)},
             (length (filter P results) <= length results)%nat).
  { intros P HP. apply length_filter. }
  assert (Hwith : 0 <= count_with_kpi results <= Z.of_nat (length results)).
  { unfold count_with_kpi. split; [lia|]. apply inj_le, Hbound. }
  split; [lia|]. split; [lia|].
  intros k n Hk. rewrite (distribute_lookup _ _ _ Hd k), lookup_empty in Hk.
  destruct (Z.eqb_spec (count_score k results) 0) as [|Hne]; [discriminate|].
  injection Hk as <-. pose proof (count_score_nonneg k results).
  split; [lia|]. rewrite Ht. unfold count_score. apply inj_le, Hbound.
Qed.

(** X7. [check_files]. The results come under the same identifiers, in
    the same order, each the result of [check_text] on the content of its
    file, so the summary counts as many files as were given; an exception
    of [check_text] on any content is an exception of [check_files]. *)
Theorem check_files_keeps_files self file_contents :
  (forall results,
     check_files self file_contents = Ret results ->
     fst <$> results = fst <$> file_contents
     /\ Forall2 (fun (c : string * pyval) (r : string * pydict) =>
                   check_text self c.2 = Ret r.2) file_contents results
     /\ (forall s, analyze_results results = Ret s ->
                   total_files s = Z.of_nat (length file_contents)))
  /\ (forall kv e,
        In kv file_contents -> check_text self kv.2 = Raise e ->
        exists e', check_files self file_contents = Raise e').
Proof.
  assert (Hret : forall results,
             check_files self file_contents = Ret results ->
             fst <$> results = fst <$> file_contents
             /\ Forall2 (fun (c : string * pyval) (r : string * pydict) =>
                           check_text self c.2 = Ret r.2) file_contents results).
  { induction file_contents as [|[f c] rest IH]; intros results H; simpl in H.
    - injection H as <-. split; [reflexivity|constructor].
    - destruct (check_text self c) as [r|] eqn:Hc; [|discriminate]. simpl in H.
      destruct (check_files self rest) as [rs|]; [|discriminate]. simpl in H.
      injection H as <-. destruct (IH rs eq_refl) as [Hk Hall].
      split; [simpl; f_equal; exact Hk|]. constructor; [exact Hc|exact Hall]. }
  split.
  - intros results H. destruct (Hret results H) as [Hk Hall].
    split; [exact Hk|]. split; [exact Hall|].
    intros s Hs. apply AggregatorFacts.analyze_results_inv in Hs as (-> & _).
    f_equal. apply (f_equal length) in Hk. rewrite !length_fmap in Hk. exact Hk.
  - intros kv e Hin He.
    destruct (check_files self file_contents) as [results|e'] eqn:Hf; [|eauto].
    exfalso. destruct (Hret results eq_refl) as [_ Hall].
    apply list_elem_of_In in Hin.
    apply list_elem_of_lookup_1 in Hin as [i Hi].
    destruct (Forall2_lookup_l _ _ _ _ _ Hall Hi) as (r & _ & Hr).
    congruence.
Qed.

(** X12. The files handed to the fixer in [main] are those whose result has
    no statement, and there are [files_without_kpi] of them. *)
Theorem files_to_fix_count results s :
  analyze_results results = Ret s ->
  Z.of_nat (length (files_to_fix results)) = files_without_kpi s
  /\ (forall f, In f (files_to_fix results) <->
                exists r, In (f, r) results /\ has_kpi r = false).
Proof.
  intros H. apply AggregatorFacts.analyze_results_inv in H as (Ht & Hw & Hwo & _).
  split.
  - unfold files_to_fix. rewrite length_fmap, Hwo, Ht, Hw. unfold count_with_kpi.
    pose proof (filter_split (fun kv : string * pydict => has_kpi kv.2) results).
    lia.
  - intros f. unfold files_to_fix. rewrite <- list_elem_of_In, list_elem_of_fmap.
    split.
    + intros ([f' r] & -> & Hin). apply list_elem_of_filter in Hin as [Hk Hin].
      exists r. split; [apply list_elem_of_In; exact Hin|exact Hk].
    + intros (r & Hin & Hk). exists (f, r). split; [reflexivity|].
      apply list_elem_of_filter. split; [exact Hk|apply list_elem_of_In; exact Hin].
Qed.

End AggregationFacts.

(** * More properties of the matcher *)

Module ReSpans.
Import Re.

(** A path consumes a piece of the text in front of what it leaves. *)
Lemma iter_consumes (R : step) :
  (forall s i mk s' j mk', R s i mk s' j mk' ->
     (i <= j)%nat /\ exists cs, s = cs ++ s' /\ length cs = (j - i)%nat) ->
  forall n s i mk s' j mk',
    iter R n s i mk s' j mk' ->
    (i <= j)%nat /\ exists cs, s = cs ++ s' /\ length cs = (j - i)%nat.
Proof.
  intros HR n s i mk s' j mk' Hit.
  induction Hit as [s i mk|n s i mk s1 j1 mk1 s2 j2 mk2 H1 Hne _ (Hle & cs2 & -> & Hl2)].
  - split; [lia|]. exists []. rewrite Nat.sub_diag. auto.
  - apply HR in H1 as (Hle1 & cs1 & -> & Hl1). split; [lia|].
    exists (cs1 ++ cs2). rewrite <- app_assoc, length_app. split; [reflexivity|lia].
Qed.

Lemma path_consumes r : forall s i mk s' j mk',
  path r s i mk s' j mk' ->
  (i <= j)%nat /\ exists cs, s = cs ++ s' /\ length cs = (j - i)%nat.
Proof.
  induction r as [|c| |negate items|r1 IH1 r2 IH2|r1 IH1 r2 IH2|lo hi r1 IH1|n r1 IH1];
    intros s i mk s' j mk' H; simpl in H.
  - destruct H as (-> & -> & _). split; [lia|]. exists []. rewrite Nat.sub_diag. auto.
  - destruct H as (-> & -> & _). split; [lia|]. exists [c]. split; [reflexivity|simpl; lia].
  - destruct H as (d & _ & -> & -> & _). split; [lia|].
    exists [d]. split; [reflexivity|simpl; lia].
  - destruct H as (d & _ & -> & -> & _). split; [lia|].
    exists [d]. split; [reflexivity|simpl; lia].
  - destruct H as (s1 & j1 & mk1 & H1 & H2).
    apply IH1 in H1 as (Hle1 & cs1 & -> & Hl1).
    apply IH2 in H2 as (Hle2 & cs2 & -> & Hl2). split; [lia|].
    exists (cs1 ++ cs2). rewrite <- app_assoc, length_app. split; [reflexivity|lia].
  - destruct H as [H|H]; eauto.
  - destruct H as (m & _ & _ & Hit). eapply iter_consumes; eauto.
  - destruct H as (mk1 & H & _). eauto.
Qed.









End ReSpans.

(** * Bounds on groups *)

Module WidthFacts.
Import Re Width.









End WidthFacts.

(** * The matcher finds what there is to find *)

Module ReComplete.
Import Re Lang.

Lemma rep_loop_complete body (R : step) lo hi k :
  (forall s i mk k' s' j mk',
     R s i mk s' j mk' -> is_Some (k' s' j mk') -> is_Some (body s i mk k')) ->
  (forall s i mk s' j mk', R s i mk s' j mk' ->
     (i <= j)%nat /\ exists cs, s = cs ++ s' /\ length cs = (j - i)%nat) ->
  forall m s i mk s' j mk',
    iter R m s i mk s' j mk' ->
    forall fuel n,
      (length s <= fuel)%nat -> (lo <= n + m)%nat -> at_most (n + m) hi ->
      is_Some (k s' j mk') ->
      is_Some (rep_loop body lo hi k fuel n s i mk).
Proof.
  intros Hbody Hcons m s i mk s' j mk' Hit.
  induction Hit as [s i mk|m s i mk s1 j1 mk1 s2 j2 mk2 H1 Hne Hit IH];
    intros fuel n Hfuel Hlo Hhi Hk.
  - rewrite Nat.add_0_r in Hlo. apply Nat.leb_le in Hlo.
    destruct fuel as [|fuel]; simpl; rewrite Hlo; [exact Hk|].
    destruct (below n hi); [|exact Hk].
    match goal with |- is_Some (match ?b with _ => _ end) => destruct b end;
      [eauto|exact Hk].
  - destruct (Hcons _ _ _ _ _ _ H1) as (Hle & cs & -> & Hlen).
    assert (Hpos : (1 <= length cs)%nat) by lia.
    rewrite length_app in Hfuel.
    destruct fuel as [|fuel]; [lia|]. simpl.
    assert (Hb : below n hi = true).
    { destruct hi as [h|]; simpl in *; [apply Nat.ltb_lt; lia|reflexivity]. }
    rewrite Hb.
    assert (Hsome : is_Some (body (cs ++ s1) i mk
              (fun rest' j mk' =>
                 if (j =? i)%nat then None
                 else rep_loop body lo hi k fuel (S n) rest' j mk'))).
    { eapply Hbody; [exact H1|].
      destruct (Nat.eqb_spec j1 i) as [|_]; [contradiction|].
      apply IH; [lia|lia| |exact Hk].
      replace (S n + m)%nat with (n + S m)%nat by lia. exact Hhi. }
    destruct Hsome as [f ->]. eauto.
Qed.

(** If [r] has a path that the rest of the pattern accepts, the matcher
    finds a match (that path or one it prefers). *)
Lemma rmatch_complete r : forall s i mk k s' j mk',
  path r s i mk s' j mk' -> is_Some (k s' j mk') -> is_Some (rmatch r s i mk k).
Proof.
  induction r as [|c| |negate items|r1 IH1 r2 IH2|r1 IH1 r2 IH2|lo hi r1 IH1|n r1 IH1];
    intros s i mk k s' j mk' H Hk; simpl in H; simpl.
  - destruct H as (-> & -> & ->). exact Hk.
  - destruct H as (-> & -> & ->). rewrite N.eqb_refl. exact Hk.
  - destruct H as (d & Hd & -> & -> & ->).
    destruct (N.eqb_spec d 10); [contradiction|exact Hk].
  - destruct H as (d & Hd & -> & -> & ->). rewrite Hd. exact Hk.
  - destruct H as (s1 & j1 & mk1 & H1 & H2).
    eapply IH1; [exact H1|]. eapply IH2; eauto.
  - destruct (rmatch r1 s i mk k) as [f|] eqn:E; [eauto|].
    destruct H as [H|H]; [|eauto].
    pose proof (IH1 _ _ _ _ _ _ _ H Hk) as [f Hf]. congruence.
  - destruct H as (m & Hlo & Hhi & Hit).
    apply (rep_loop_complete (rmatch r1) (path r1) lo hi k IH1
             (ReSpans.path_consumes r1) m s i mk s' j mk' Hit);
      [lia|exact Hlo|exact Hhi|exact Hk].
  - destruct H as (mk1 & H & ->). eapply IH1; [exact H|]. exact Hk.
Qed.

Lemma search_finds r : forall (before : str) (i : nat) s s' j mk,
  path r s (i + length before)%nat ∅ s' j mk ->
  is_Some (search r (before ++ s) i false).
Proof.
  induction before as [|c before IH]; intros i s s' j mk H.
  - simpl in H. rewrite Nat.add_0_r in H.
    assert (Hm : is_Some (match_at r s i false)).
    { unfold match_at. eapply rmatch_complete; [exact H|]. unfold accept. simpl. eauto. }
    destruct Hm as [f Hf]. destruct s; simpl; rewrite Hf; eauto.
  - simpl. destruct (match_at r (c :: before ++ s) i false); [eauto|].
    apply (IH (S i) s s' j mk). simpl in H.
    replace (S i + length before)%nat with (i + S (length before))%nat by lia.
    exact H.
Qed.

Lemma finditer_finds p before s s' j mk :
  path (p_code p) s (length before) ∅ s' j mk ->
  finditer p (before ++ s) <> [].
Proof.
  intros H Hnil. pose proof (ReFacts.finditer_head p (before ++ s)) as Hh.
  rewrite Hnil in Hh. simpl in Hh.
  destruct (search_finds (p_code p) before 0 s s' j mk H) as [[st [[en mk1] r1]] Hs].
  rewrite Hs in Hh. discriminate.
Qed.

(** Paths and the texts they consume. *)

Lemma iter_reps r :
  (forall s i mk s' j mk', path r s i mk s' j mk' ->
     exists cs, s = cs ++ s' /\ lang r cs) ->
  forall n s i mk s' j mk',
    iter (path r) n s i mk s' j mk' ->
    exists cs, s = cs ++ s' /\ reps (lang r) n cs.
Proof.
  intros IH n s i mk s' j mk' Hit.
  induction Hit as [s i mk|n s i mk s1 j1 mk1 s2 j2 mk2 H1 Hne _ (b & -> & Hb)].
  - exists []. split; [reflexivity|constructor].
  - destruct (ReSpans.path_consumes _ _ _ _ _ _ _ H1) as (Hle & a' & Ha' & Hlen).
    destruct (IH _ _ _ _ _ _ H1) as (a & -> & Ha).
    apply app_inv_tail in Ha'. subst a'.
    exists (a ++ b). rewrite <- app_assoc. split; [reflexivity|].
    constructor; auto. intros ->. simpl in Hlen. lia.
Qed.

Lemma path_lang r : forall s i mk s' j mk',
  path r s i mk s' j mk' -> exists cs, s = cs ++ s' /\ lang r cs.
Proof.
  induction r as [|c| |negate items|r1 IH1 r2 IH2|r1 IH1 r2 IH2|lo hi r1 IH1|n r1 IH1];
    intros s i mk s' j mk' H; simpl in H; simpl.
  - destruct H as (-> & _). exists []. auto.
  - destruct H as (-> & _). exists [c]. auto.
  - destruct H as (d & Hd & -> & _). exists [d]. eauto.
  - destruct H as (d & Hd & -> & _). exists [d]. eauto.
  - destruct H as (s1 & j1 & mk1 & H1 & H2).
    apply IH1 in H1 as (a & -> & Ha). apply IH2 in H2 as (b & -> & Hb).
    exists (a ++ b). rewrite <- app_assoc. eauto 10.
  - destruct H as [H|H]; [apply IH1 in H|apply IH2 in H];
      destruct H as (cs & -> & Hcs); eauto.
  - destruct H as (m & Hlo & Hhi & Hit).
    apply (iter_reps r1 IH1) in Hit as (cs & -> & Hcs). eauto 10.
  - destruct H as (mk1 & H & _). eauto.
Qed.

Lemma reps_iter r :
  (forall cs, lang r cs -> forall s' (i : nat) mk,
     exists mk', path r (cs ++ s') i mk s' (i + length cs)%nat mk') ->
  forall n cs, reps (lang r) n cs ->
  forall s' (i : nat) mk,
    exists mk', iter (path r) n (cs ++ s') i mk s' (i + length cs)%nat mk'.
Proof.
  intros IH n cs Hr.
  induction Hr as [|n a b Hne Ha _ IHb]; intros s' i mk.
  - exists mk. simpl. rewrite Nat.add_0_r. constructor.
  - destruct (IH a Ha (b ++ s') i mk) as (mk1 & H1).
    destruct (IHb s' (i + length a)%nat mk1) as (mk2 & H2).
    exists mk2. rewrite <- app_assoc, length_app, Nat.add_assoc.
    econstructor; [exact H1| |exact H2].
    destruct a; [contradiction|]. simpl. lia.
Qed.

Lemma lang_path r : forall cs, lang r cs -> forall s' (i : nat) mk,
  exists mk', path r (cs ++ s') i mk s' (i + length cs)%nat mk'.
Proof.
  induction r as [|c| |negate items|r1 IH1 r2 IH2|r1 IH1 r2 IH2|lo hi r1 IH1|n r1 IH1];
    intros cs H s' i mk; simpl in H; simpl.
  - subst. exists mk. simpl. rewrite Nat.add_0_r. auto.
  - subst. exists mk. simpl. rewrite Nat.add_1_r. auto.
  - destruct H as (d & Hd & ->). exists mk, d. simpl. rewrite Nat.add_1_r. auto.
  - destruct H as (d & Hd & ->). exists mk, d. simpl. rewrite Nat.add_1_r. auto.
  - destruct H as (a & b & -> & Ha & Hb).
    destruct (IH1 a Ha (b ++ s') i mk) as (mk1 & H1).
    destruct (IH2 b Hb s' (i + length a)%nat mk1) as (mk2 & H2).
    exists mk2, (b ++ s'), (i + length a)%nat, mk1.
    rewrite <- app_assoc, length_app, Nat.add_assoc. auto.
  - destruct H as [H|H]; [destruct (IH1 cs H s' i mk) as (mk' & Hp)
                         |destruct (IH2 cs H s' i mk) as (mk' & Hp)]; eauto.
  - destruct H as (m & Hlo & Hhi & Hr).
    destruct (reps_iter r1 IH1 m cs Hr s' i mk) as (mk' & Hit). eauto 10.
  - destruct (IH1 cs H s' i mk) as (mk1 & Hp). eauto.
Qed.

(** A pattern has a match in a text exactly when a piece that it matches
    occurs in the text. *)
Lemma finditer_occurs p text :
  finditer p text <> [] <-> occurs (p_code p) text.
Proof.
  split.
  - intros Hne. pose proof (ReFacts.finditer_head p text) as Hh.
    destruct (search (p_code p) text 0 false) as [[st [[en mk] rest']]|] eqn:Hs.
    + apply ReFacts.search_path in Hs as [_ Hp]. rewrite Nat.sub_0_r in Hp.
      apply path_lang in Hp as (cs & Hcs & Hl).
      exists (take st text), cs, rest'. split; [|exact Hl].
      rewrite <- Hcs. symmetry. apply take_drop.
    + destruct (finditer p text); [contradiction|discriminate].
  - intros (before & cs & after & -> & Hl).
    destruct (lang_path _ cs Hl after (length before) ∅) as (mk & Hp).
    eapply finditer_finds; exact Hp.
Qed.

End ReComplete.

(** * What the default patterns recognise *)

Module DefaultPatterns.
Import Re Lang KPIChecker.

Lemma reps_class it n cs :
  reps (lang (RIn false [it])) n cs
  <-> length cs = n /\ Forall (fun c => item_test c it = true) cs.
Proof.
  split.
  - intros H. induction H as [|n a b _ (d & Hd & ->) _ [IHl IHf]].
    + split; [reflexivity|constructor].
    + simpl. split; [lia|]. constructor; [|exact IHf].
      unfold in_test in Hd. simpl in Hd. rewrite orb_false_r in Hd. exact Hd.
  - intros [<- Hall]. induction Hall as [|c cs Hc _ IH]; [constructor|].
    change (c :: cs) with ([c] ++ cs). constructor; [discriminate| |exact IH].
    exists c. split; [|reflexivity].
    unfold in_test. simpl. rewrite orb_false_r. exact Hc.
Qed.

Lemma lang_digits ds :
  lang (RRep 1 (Some 3%nat) (RIn false [SDigit])) ds <-> decimal_run ds.
Proof.
  unfold decimal_run. split.
  - intros (n & Hlo & Hhi & Hr). apply reps_class in Hr as [<- Hall].
    simpl in Hhi. auto.
  - intros [[Hlo Hhi] Hall]. exists (length ds). split; [exact Hlo|].
    split; [exact Hhi|]. apply reps_class. auto.
Qed.

Lemma lang_spaces ws :
  lang (RRep 0 None (RIn false [SSpace])) ws <-> spaces ws.
Proof.
  unfold spaces. split.
  - intros (n & _ & _ & Hr). apply reps_class in Hr as [_ Hall]. exact Hall.
  - intros Hall. exists (length ws). split; [lia|]. split; [exact I|].
    apply reps_class. auto.
Qed.

Lemma literal_kpi : u "KPI考核自评" = [75; 80; 73; 32771; 26680; 33258; 35780]%N.
Proof. vm_compute. reflexivity. Qed.

Lemma literal_score : u "自评得分" = [33258; 35780; 24471; 20998]%N.
Proof. vm_compute. reflexivity. Qed.

Lemma literal_points : u "分" = [20998]%N.
Proof. vm_compute. reflexivity. Qed.

(* A sequence of literals matches the text made of them. *)
Ltac literals :=
  lazymatch goal with
  | |- lang (RSeq _ (RLit ?c)) ?l =>
      let a := eval cbv in (removelast l) in
      exists a, [c]; split; [reflexivity|split; [literals|reflexivity]]
  | |- lang (RLit _) _ => reflexivity
  end.

(** The fifth pattern, [KPI考核自评(\d{1,3})分]. *)
Lemma lang_fifth cs :
  lang (default_code 4) cs
  <-> exists ds, decimal_run ds /\ cs = u "KPI考核自评" ++ ds ++ u "分".
Proof.
  rewrite literal_kpi, literal_points.
  change (default_code 4) with
    (RSeq (RSeq (RSeq (RSeq (RSeq (RSeq (RSeq (RSeq (RLit 75) (RLit 80)) (RLit 73))
       (RLit 32771)) (RLit 26680)) (RLit 33258)) (RLit 35780))
       (RGroup 1 (RRep 1 (Some 3%nat) (RIn false [SDigit])))) (RLit 20998))%N.
  split.
  - intros (a & b & -> & (a1 & ds & -> & Hlit & Hds) & ->).
    apply lang_digits in Hds. exists ds. split; [exact Hds|].
    simpl in Hlit.
    repeat match goal with
           | H : exists _, _ |- _ => destruct H
           | H : _ /\ _ |- _ => destruct H
           end; subst.
    rewrite <- !app_assoc. reflexivity.
  - intros (ds & Hds & ->). apply lang_digits in Hds.
    exists ([75; 80; 73; 32771; 26680; 33258; 35780]%N ++ ds), [20998%N].
    split; [rewrite <- app_assoc; reflexivity|]. split; [|reflexivity].
    exists [75; 80; 73; 32771; 26680; 33258; 35780]%N, ds.
    split; [reflexivity|]. split; [|exact Hds].
    literals.
Qed.

(** The fourth pattern, [自评得分\s*(\d{1,3})\s*分]. *)
Lemma lang_fourth cs :
  lang (default_code 3) cs
  <-> exists ws1 ds ws2,
        spaces ws1 /\ decimal_run ds /\ spaces ws2
        /\ cs = u "自评得分" ++ ws1 ++ ds ++ ws2 ++ u "分".
Proof.
  rewrite literal_score, literal_points.
  change (default_code 3) with
    (RSeq (RSeq (RSeq (RSeq
       (RSeq (RSeq (RSeq (RLit 33258) (RLit 35780)) (RLit 24471)) (RLit 20998))
       (RRep 0 None (RIn false [SSpace])))
       (RGroup 1 (RRep 1 (Some 3%nat) (RIn false [SDigit]))))
       (RRep 0 None (RIn false [SSpace]))) (RLit 20998))%N.
  split.
  - intros (a & b & -> & (a1 & ws2 & -> & (a2 & ds & -> & (a3 & ws1 & -> & Hlit & Hws1)
                                            & Hds) & Hws2) & ->).
    apply lang_digits in Hds. apply lang_spaces in Hws1. apply lang_spaces in Hws2.
    exists ws1, ds, ws2. repeat (split; [assumption|]).
    do 3 (destruct Hlit as [? [? [-> [Hlit ->]]]]). simpl in Hlit. subst.
    rewrite <- !app_assoc. reflexivity.
  - intros (ws1 & ds & ws2 & Hws1 & Hds & Hws2 & ->).
    apply lang_digits in Hds. apply lang_spaces in Hws1. apply lang_spaces in Hws2.
    exists ((([33258; 35780; 24471; 20998]%N ++ ws1) ++ ds) ++ ws2), [20998%N].
    split; [rewrite <- !app_assoc; reflexivity|]. split; [|reflexivity].
    exists (([33258; 35780; 24471; 20998]%N ++ ws1) ++ ds), ws2.
    split; [reflexivity|]. split; [|exact Hws2].
    exists ([33258; 35780; 24471; 20998]%N ++ ws1), ds.
    split; [reflexivity|]. split; [|exact Hds].
    exists [33258; 35780; 24471; 20998]%N, ws1.
    split; [reflexivity|]. split; [|exact Hws1].
    literals.
Qed.

(** The first two patterns end as the fifth does, and the third as the
    fourth does. *)
Lemma lang_first cs :
  lang (default_code 0) cs -> exists x y, cs = x ++ y /\ lang (default_code 4) y.
Proof.
  change (default_code 0) with
    (RSeq (RSeq (RSeq (RSeq (RSeq (RSeq (RSeq (RSeq (RSeq (RSeq (RSeq (RSeq
       (RSeq (RSeq (RGroup 1 (RRep 4 (Some 4%nat) (RIn false [SDigit])))
                   (RRep 0 (Some 1%nat) (RLit 24180)))
             (RRep 0 (Some 1%nat) (RLit 31532)))
       (RIn false [SChar 19968; SChar 20108; SChar 19977; SChar 22235]))
       (RLit 23395)) (RLit 24230)) (RLit 75)) (RLit 80)) (RLit 73)) (RLit 32771))
       (RLit 26680)) (RLit 33258)) (RLit 35780))
       (RGroup 2 (RRep 1 (Some 3%nat) (RIn false [SDigit])))) (RLit 20998))%N.
  intros (a & b & -> & (a1 & ds & -> & Hlit & Hds) & ->).
  apply lang_digits in Hds.
  do 7 (destruct Hlit as [? [? [-> [Hlit ->]]]]).
  rewrite <- !app_assoc. simpl.
  lazymatch goal with |- exists x y, ?a ++ ?b = _ /\ _ => exists a, b end.
  split; [reflexivity|].
  apply lang_fifth. exists ds. rewrite literal_kpi, literal_points. auto.
Qed.

Lemma lang_second cs :
  lang (default_code 1) cs -> exists x y, cs = x ++ y /\ lang (default_code 4) y.
Proof.
  change (default_code 1) with
    (RSeq (RSeq (RSeq (RSeq (RSeq (RSeq (RSeq (RSeq (RSeq (RSeq
       (RLit 23395) (RLit 24230)) (RLit 75)) (RLit 80)) (RLit 73)) (RLit 32771))
       (RLit 26680)) (RLit 33258)) (RLit 35780))
       (RGroup 1 (RRep 1 (Some 3%nat) (RIn false [SDigit])))) (RLit 20998))%N.
  intros (a & b & -> & (a1 & ds & -> & Hlit & Hds) & ->).
  apply lang_digits in Hds.
  do 7 (destruct Hlit as [? [? [-> [Hlit ->]]]]).
  rewrite <- !app_assoc. simpl.
  lazymatch goal with |- exists x y, ?a ++ ?b = _ /\ _ => exists a, b end.
  split; [reflexivity|].
  apply lang_fifth. exists ds. rewrite literal_kpi, literal_points. auto.
Qed.

Lemma lang_third cs :
  lang (default_code 2) cs -> exists x y, cs = x ++ y /\ lang (default_code 3) y.
Proof.
  change (default_code 2) with
    (RSeq (RSeq (RSeq (RSeq (RSeq (RSeq (RSeq (RSeq
       (RSeq (RSeq (RSeq (RLit 75) (RLit 80)) (RLit 73))
             (RRep 0 None (RIn false [SSpace])))
       (RLit 33258)) (RLit 35780)) (RLit 24471)) (RLit 20998))
       (RRep 0 None (RIn false [SSpace])))
       (RGroup 1 (RRep 1 (Some 3%nat) (RIn false [SDigit]))))
       (RRep 0 None (RIn false [SSpace]))) (RLit 20998))%N.
  intros (a & b & -> & (a1 & ws2 & -> & (a2 & ds & -> & (a3 & ws1 & -> & Hlit & Hws1)
                                          & Hds) & Hws2) & ->).
  apply lang_digits in Hds. apply lang_spaces in Hws1. apply lang_spaces in Hws2.
  do 4 (destruct Hlit as [? [? [-> [Hlit ->]]]]).
  rewrite <- !app_assoc. simpl.
  lazymatch goal with |- exists x y, ?a ++ ?b = _ /\ _ => exists a, b end.
  split; [reflexivity|].
  apply lang_fourth. exists ws1, ds, ws2.
  rewrite literal_score, literal_points. auto.
Qed.

Lemma occurs_suffix r r' text :
  (forall cs, lang r cs -> exists x y, cs = x ++ y /\ lang r' y) ->
  occurs r text -> occurs r' text.
Proof.
  intros Hsub (before & cs & after & -> & Hl).
  destruct (Hsub cs Hl) as (x & y & -> & Hy).
  exists (before ++ x), y, after. rewrite <- !app_assoc. auto.
Qed.

(** Some default pattern has a match in the text exactly when the text
    states a score in one of the two wordings. *)
Lemma default_occurs text :
  Exists (fun q => finditer q text <> []) default_compiled <-> states_score text.
Proof.
  assert (H4 : occurs (default_code 4) text
               <-> exists before ds after,
                     decimal_run ds
                     /\ text = before ++ u "KPI考核自评" ++ ds ++ u "分" ++ after).
  { split.
    - intros (before & cs & after & -> & Hl).
      apply lang_fifth in Hl as (ds & Hds & ->).
      exists before, ds, after. rewrite <- !app_assoc. auto.
    - intros (before & ds & after & Hds & ->).
      exists before, (u "KPI考核自评" ++ ds ++ u "分"), after.
      split; [rewrite <- !app_assoc; reflexivity|].
      apply lang_fifth. eauto. }
  assert (H3 : occurs (default_code 3) text
               <-> exists before ds after ws1 ws2,
                     decimal_run ds /\ spaces ws1 /\ spaces ws2
                     /\ text = before ++ u "自评得分" ++ ws1 ++ ds ++ ws2
                                 ++ u "分" ++ after).
  { split.
    - intros (before & cs & after & -> & Hl).
      apply lang_fourth in Hl as (ws1 & ds & ws2 & Hws1 & Hds & Hws2 & ->).
      exists before, ds, after, ws1, ws2. rewrite <- !app_assoc. auto.
    - intros (before & ds & after & ws1 & ws2 & Hds & Hws1 & Hws2 & ->).
      exists before, (u "自评得分" ++ ws1 ++ ds ++ ws2 ++ u "分"), after.
      split; [rewrite <- !app_assoc; reflexivity|].
      apply lang_fourth. eauto 10. }
  assert (Hall : Exists (fun q => finditer q text <> []) default_compiled
                 <-> occurs (default_code 3) text \/ occurs (default_code 4) text).
  { split.
    - intros Hex. apply Exists_exists in Hex as (q & Hin & Hq).
      apply ReComplete.finditer_occurs in Hq.
      apply list_elem_of_lookup_1 in Hin as [i Hi].
      destruct i as [|[|[|[|[|i]]]]]; try discriminate; injection Hi as <-.
      + right. eapply occurs_suffix; [apply lang_first|exact Hq].
      + right. eapply occurs_suffix; [apply lang_second|exact Hq].
      + left. eapply occurs_suffix; [apply lang_third|exact Hq].
      + left. exact Hq.
      + right. exact Hq.
    - intros [H|H]; apply Exists_exists.
      + eexists. split; [apply (list_elem_of_lookup_2 _ 3%nat); reflexivity|].
        apply ReComplete.finditer_occurs. exact H.
      + eexists. split; [apply (list_elem_of_lookup_2 _ 4%nat); reflexivity|].
        apply ReComplete.finditer_occurs. exact H. }
  rewrite Hall, H3, H4. unfold states_score. split.
  - intros [(before & ds & after & ws1 & ws2 & Hds & Hws1 & Hws2 & ->)
           |(before & ds & after & Hds & ->)];
      exists before, ds, after; split; eauto 10.
  - intros (before & ds & after & Hds & [->|(ws1 & ws2 & Hws1 & Hws2 & ->)]);
      [right|left]; eauto 10.
Qed.

(** What the loop returns says whether some pattern had a match. *)
Lemma check_from_has ps text cs : forall i0 tr v,
  check_from ps i0 cs text = (tr, Ret v) ->
  (v !! "has_kpi_statement" = Some (PyBool true)
   <-> Exists (fun q => finditer q text <> []) cs).
Proof.
  induction cs as [|c cs IH]; intros i0 tr v H; simpl in H.
  - injection H as _ <-. split; [discriminate|]. intros Hex. inversion Hex.
  - destruct (finditer c text) as [|m ms] eqn:Hc.
    + destruct (check_from ps (S i0) cs text) as [tr' r] eqn:Hrest.
      injection H as _ ->. rewrite (IH _ _ _ Hrest). split.
      * intros Hex. apply Exists_cons. auto.
      * intros Hex. apply Exists_cons in Hex as [Hex|Hex]; [|exact Hex].
        congruence.
    + injection H as _ He. apply CheckerFacts.extract_fields in He as (p & _ & ->).
      split; [|intros _; apply CheckerFacts.verdict_fields].
      intros _. apply Exists_cons. left. rewrite Hc. discriminate.
Qed.

End DefaultPatterns.

(** * More properties of [check_text] *)

Module CheckTextFacts.
Import Re Lang Width KPIChecker.


Lemma mapM_raises {A B} (f : A -> outcome B) good x rest cs e :
  mapM f good = Ret cs -> f x = Raise e ->
  mapM f (good ++ x :: rest) = Raise e.
Proof.
  revert cs. induction good as [|a good IH]; intros cs Hgood Hx; simpl.
  - rewrite Hx. reflexivity.
  - simpl in Hgood. destruct (f a) as [b|]; [|discriminate]. simpl in *.
    destruct (mapM f good) as [bs|]; [|discriminate].
    rewrite (IH bs eq_refl Hx). reflexivity.
Qed.



(** X1. With the default patterns a text is reported to hold a KPI
    statement exactly when it states a score in one of the two wordings
    that the patterns share: [KPI考核自评], one to three decimal digits,
    [分]; or [自评得分], the digits and [分], with white space allowed
    around the digits. *)
Theorem check_text_default_recognises text :
  exists v,
    check_text (init Config.default_config) (PyStr text) = Ret v
    /\ (v !! "has_kpi_statement" = Some (PyBool true) <-> states_score text).
Proof.
  destruct (CheckerFacts.check_text_default (PyStr text)) as (v & Hv & _).
  exists v. split; [exact Hv|].
  destruct text as [|c text].
  - injection Hv as <-. split; [discriminate|].
    intros (before & ds & after & _ & [H|(ws1 & ws2 & _ & _ & H)]);
      apply (f_equal length) in H; rewrite !length_app in H;
      [rewrite DefaultPatterns.literal_kpi in H
      |rewrite DefaultPatterns.literal_score in H]; simpl in H; lia.
  - unfold check_text in Hv.
    rewrite (CheckerFacts.check_text_trace_compiled _ _ _ (c :: text)
               ltac:(discriminate) CheckerFacts.default_patterns_iterate
               CheckerFacts.default_patterns_compile) in Hv.
    destruct (check_from (PyStr <$> Config.default_kpi_patterns) 0
                default_compiled (c :: text)) as [tr r] eqn:Hfrom.
    simpl in Hv. subst r.
    rewrite (DefaultPatterns.check_from_has _ _ _ _ _ _ Hfrom).
    apply DefaultPatterns.default_occurs.
Qed.

(** X3. For any list of patterns that compile: when [check_text] returns
    on a non-empty text, it reports a statement exactly when some pattern
    of the list matches some piece of the text. *)
Theorem check_text_recognises self ps cs text v :
  text <> [] ->
  iterate (patterns self) = Ret ps ->
  mapM re_compile ps = Ret cs ->
  check_text self (PyStr text) = Ret v ->
  (v !! "has_kpi_statement" = Some (PyBool true)
   <-> exists i p, cs !! i = Some p /\ occurs (p_code p) text).
Proof.
  intros Hne Hps Hcs Hv. unfold check_text in Hv.
  rewrite (CheckerFacts.check_text_trace_compiled self ps cs text Hne Hps Hcs) in Hv.
  destruct (check_from ps 0 cs text) as [tr r] eqn:Hfrom. simpl in Hv. subst r.
  rewrite (DefaultPatterns.check_from_has _ _ _ _ _ _ Hfrom).
  rewrite Exists_exists. split.
  - intros (q & Hin & Hq). apply list_elem_of_lookup_1 in Hin as [i Hi].
    exists i, q. split; [exact Hi|]. apply ReComplete.finditer_occurs. exact Hq.
  - intros (i & p & Hi & Hocc). exists p.
    split; [eapply list_elem_of_lookup_2; exact Hi|].
    apply ReComplete.finditer_occurs. exact Hocc.
Qed.

(** X4. The patterns are all compiled before any is searched: when one of
    them does not compile (and those before it do), [check_text] raises
    its error on every non-empty text, also on a text that an earlier
    pattern matches, while an empty text and a value that is not a string
    still give the absent dictionary. *)
Theorem check_text_bad_pattern self good x rest cs e :
  iterate (patterns self) = Ret (good ++ x :: rest) ->
  mapM re_compile good = Ret cs ->
  re_compile x = Raise e -> e <> NotModelled ->
  (forall text, text <> [] -> check_text self (PyStr text) = Raise e)
  /\ check_text self (PyStr []) = Ret absent
  /\ (forall v, isinstance_str v = false -> check_text self v = Ret absent).
Proof.
  intros Hps Hgood Hx _. split; [|split].
  - intros text Hne. unfold check_text, check_text_trace.
    destruct text as [|c text]; [contradiction|]. simpl.
    rewrite Hps. simpl. rewrite (mapM_raises re_compile good x rest cs e Hgood Hx).
    reflexivity.
  - reflexivity.
  - intros v Hv. unfold check_text.
    rewrite (CheckerFacts.check_text_trace_other self v Hv). reflexivity.
Qed.

(** X5. The score is read from group 2 for the pattern of index 0 and from
    group 1 for the others: when the first pattern with a match has fewer
    groups than that, [check_text] raises [IndexError]. *)
Theorem check_text_missing_group self ps cs text i p m ms :
  text <> [] ->
  iterate (patterns self) = Ret ps ->
  mapM re_compile ps = Ret cs ->
  cs !! i = Some p ->
  finditer p text = m :: ms ->
  (forall j q, cs !! j = Some q -> finditer q text <> [] -> (i <= j)%nat) ->
  (p_groups p < score_group i)%nat ->
  check_text self (PyStr text) = Raise IndexError.
Proof.
  intros Hne Hps Hcs Hi Hm Hmin Hg. unfold check_text.
  rewrite (CheckerFacts.check_text_trace_compiled self ps cs text Hne Hps Hcs).
  rewrite (CheckerFacts.check_from_first ps text cs 0 i p m ms Hi Hm Hmin).
  cbn [fst snd]. rewrite Nat.add_0_l.
  assert (Hin : In m (finditer p text)) by (rewrite Hm; left; reflexivity).
  destruct (ReFacts.finditer_fields p text m Hin) as (_ & Hn & _).
  unfold extract. rewrite CheckerFacts.group_zero. simpl.
  unfold score_group in Hg. destruct (i =? 0)%nat.
  - unfold group. rewrite Hn.
    destruct (p_groups p) as [|[|g]]; [reflexivity| |lia].
    simpl. destruct (m_marks m !! 1%nat) as [[a b]|]; reflexivity.
  - unfold group. rewrite Hn.
    destruct (p_groups p) as [|g]; [reflexivity|lia].
Qed.


End CheckTextFacts.

(** * More properties of the configuration *)

Module ConfigMoreFacts.
Import Config ConfigStates.

Lemma merged_same value : merged value (Some value) = value.
Proof.
  destruct value; try reflexivity. simpl. f_equal. apply map_eq. intros k.
  rewrite lookup_union. destruct (d !! k); reflexivity.
Qed.

Lemma merged_twice value old :
  merged value (Some (merged value old)) = merged value old.
Proof.
  destruct value; try reflexivity.
  assert (Hsame : PyDict (d ∪ d) = PyDict d) by apply (merged_same (PyDict d)).
  destruct old as [[| | | | |o]|]; simpl; try exact Hsame.
  f_equal. rewrite (assoc_L (∪)). f_equal.
  injection Hsame as Hsame. exact Hsame.
Qed.

Lemma saved_lookup config_file config disk :
  disk !! config_file <> Some Directory ->
  save_config config_file config disk !! config_file
  = Some (File (Json (PyDict config))).
Proof.
  intros Hw. unfold save_config.
  destruct (disk !! config_file) as [[c|]|] eqn:Hd;
    try apply lookup_insert_eq. contradiction.
Qed.

Lemma load_keeps_keys config_file disk (config config' : pydict) key :
  is_Some (config !! key) ->
  load_config config_file disk config = Ret config' ->
  is_Some (config' !! key).
Proof.
  intros H. unfold load_config.
  destruct (disk !! config_file) as [[[[]| |]|]|]; try discriminate;
    intros Heq; injection Heq as <-; try exact H.
  rewrite ConfigFacts.load_loop_lookup. destruct (d !! key); eauto.
Qed.

Lemma add_keeps_keys pattern (config config' : pydict) key :
  is_Some (config !! key) ->
  add_kpi_pattern pattern config = Ret config' ->
  is_Some (config' !! key).
Proof.
  intros H. unfold add_kpi_pattern.
  destruct (config !! "kpi_patterns") as [v|] eqn:Hk.
  - rewrite Hk. destruct v; try discriminate.
    destruct (negb _); intros Heq; injection Heq as <-; [|exact H].
    rewrite lookup_insert. destruct (decide ("kpi_patterns" = key)); eauto.
  - rewrite lookup_insert_eq. simpl. intros Heq. injection Heq as <-.
    rewrite !lookup_insert.
    destruct (decide ("kpi_patterns" = key)); eauto.
Qed.

(** X13. [load_config] key by key, for a file that holds a JSON object: a
    key that the file does not have keeps its value; a dictionary of the
    file is merged into a dictionary of the configuration, the file
    winning on the keys both have and the other keys staying; any other
    value of the file replaces the value of the configuration. *)
Theorem load_config_merges config_file disk config user_config :
  disk !! config_file = Some (File (Json (PyDict user_config))) ->
  exists config',
    load_config config_file disk config = Ret config'
    /\ (forall key, user_config !! key = None -> config' !! key = config !! key)
    /\ (forall key v old,
          user_config !! key = Some (PyDict v) ->
          config !! key = Some (PyDict old) ->
          exists d,
            config' !! key = Some (PyDict d)
            /\ forall k, d !! k = match v !! k with
                                  | Some x => Some x
                                  | None => old !! k
                                  end)
    /\ (forall key value,
          user_config !! key = Some value ->
          isinstance_dict value = false
          \/ (forall old, config !! key <> Some (PyDict old)) ->
          config' !! key = Some value).
Proof.
  intros Hfile. exists (map_fold merge config user_config).
  split; [unfold load_config; rewrite Hfile; reflexivity|].
  split; [|split].
  - intros key Hk. rewrite ConfigFacts.load_loop_lookup, Hk. reflexivity.
  - intros key v old Hk Hold. exists (v ∪ old).
    rewrite ConfigFacts.load_loop_lookup, Hk, Hold. split; [reflexivity|].
    intros k. rewrite lookup_union.
    destruct (v !! k), (old !! k); reflexivity.
  - intros key value Hk Hcase.
    rewrite ConfigFacts.load_loop_lookup, Hk. f_equal. unfold merged.
    destruct Hcase as [Hnd|Hnd].
    + destruct value; try reflexivity. discriminate.
    + destruct value; try reflexivity.
      destruct (config !! key) as [[]|] eqn:Hc; try reflexivity.
      exfalso. eapply Hnd. reflexivity.
Qed.

(** X14. A configuration saved to a file that can be written and loaded
    back into the same object is unchanged, and loading a file a second
    time changes nothing more. *)
Theorem save_then_load_same_object config_file config disk :
  disk !! config_file <> Some Directory ->
  load_config config_file (save_config config_file config disk) config = Ret config
  /\ (forall other config',
        load_config config_file (save_config config_file config disk) other
          = Ret config' ->
        load_config config_file (save_config config_file config disk) config'
          = Ret config').
Proof.
  intros Hw. pose proof (saved_lookup config_file config disk Hw) as Hs.
  unfold load_config. rewrite Hs. split.
  - f_equal. apply map_eq. intros key.
    rewrite ConfigFacts.load_loop_lookup.
    destruct (config !! key) as [value|]; [|reflexivity].
    rewrite merged_same. reflexivity.
  - intros other config' [= <-]. f_equal. apply map_eq. intros key.
    rewrite !ConfigFacts.load_loop_lookup.
    destruct (config !! key) as [value|]; [|reflexivity].
    rewrite merged_twice. reflexivity.
Qed.

Lemma add_kpi_pattern_cases pattern config config' :
  add_kpi_pattern pattern config = Ret config' ->
  exists l,
    patterns_list config = Some l
    /\ (In (PyStr pattern) l ->
        config' = config /\ patterns_list config' = Some l)
    /\ (~ In (PyStr pattern) l ->
        patterns_list config' = Some (l ++ [PyStr pattern])).
Proof.
  unfold patterns_list, add_kpi_pattern.
  destruct (config !! "kpi_patterns") as [v|] eqn:Hk.
  - rewrite Hk. destruct v as [| | | |l|]; try discriminate.
    intros H. exists l. split; [reflexivity|].
    destruct (existsb (eq_str pattern) l) eqn:Hex; simpl in H;
      injection H as <-.
    + apply ConfigFacts.existsb_eq_str in Hex. rewrite Hk.
      split; [auto|]. intros Hnot. contradiction.
    + rewrite lookup_insert_eq. split; [|reflexivity].
      intros Hin. apply ConfigFacts.existsb_eq_str in Hin. congruence.
  - rewrite lookup_insert_eq. simpl. intros H. injection H as <-.
    exists []. rewrite lookup_insert_eq.
    split; [reflexivity|]. split; [intros []|reflexivity].
Qed.

(** X15. [add_kpi_pattern] twice is [add_kpi_pattern] once: after a call
    that returns, the pattern is in the list, a second call with the same
    pattern changes nothing, and a list without duplicates stays without
    duplicates. *)
Theorem add_kpi_pattern_idempotent pattern config config' :
  add_kpi_pattern pattern config = Ret config' ->
  (exists l', patterns_list config' = Some l' /\ In (PyStr pattern) l'
              /\ forall l, patterns_list config = Some l -> NoDup l -> NoDup l')
  /\ add_kpi_pattern pattern config' = Ret config'.
Proof.
  intros Hadd.
  destruct (add_kpi_pattern_cases pattern config config' Hadd)
    as (l & Hl & Hold & Hnew).
  assert (Hl' : exists l', patterns_list config' = Some l' /\ In (PyStr pattern) l'
                           /\ (NoDup l -> NoDup l')).
  { destruct (existsb (eq_str pattern) l) eqn:Hex.
    - apply ConfigFacts.existsb_eq_str in Hex.
      destruct (Hold Hex) as [_ H]. exists l. auto.
    - assert (Hnot : ~ In (PyStr pattern) l).
      { intros Hin. apply ConfigFacts.existsb_eq_str in Hin. congruence. }
      exists (l ++ [PyStr pattern]). split; [exact (Hnew Hnot)|].
      split; [apply in_or_app; right; left; reflexivity|].
      intros Hnd. apply NoDup_app. split; [exact Hnd|]. split.
      + intros x Hx Hx'. apply list_elem_of_singleton in Hx'. subst x.
        apply Hnot. apply list_elem_of_In. exact Hx.
      + apply NoDup_singleton. }
  destruct Hl' as (l' & Hl' & Hin & Hnd). split.
  - exists l'. split; [exact Hl'|]. split; [exact Hin|].
    intros l0 Hl0. rewrite Hl in Hl0. injection Hl0 as <-. exact Hnd.
  - unfold add_kpi_pattern. unfold patterns_list in Hl'.
    destruct (config' !! "kpi_patterns") as [v|] eqn:Hk.
    + rewrite Hk. destruct v; try discriminate. injection Hl' as ->.
      apply ConfigFacts.existsb_eq_str in Hin. rewrite Hin. reflexivity.
    + injection Hl' as <-. destruct Hin.
Qed.

(** X16. No key of the default configuration is ever lost: the dictionary
    of a [Config] object has, after any sequence of [load_config], [set]
    and [add_kpi_pattern], every key that the default configuration has.
    So [get_kpi_patterns] never answers with its fallback, the empty
    list, and [add_kpi_pattern] never has to create the list. *)
Theorem config_keeps_default_keys config :
  reachable config ->
  (forall key, is_Some (default_config !! key) -> is_Some (config !! key))
  /\ config !! "kpi_patterns" = Some (get_kpi_patterns config).
Proof.
  intros Hr.
  assert (Hkeys : forall key, is_Some (default_config !! key) -> is_Some (config !! key)).
  { induction Hr as [config_file disk config Hinit
                    |config_file disk config config' _ IH Hload
                    |k value config _ IH
                    |pattern config config' _ IH Hadd]; intros key Hkey.
    - unfold init in Hinit.
      destruct config_file as [path|]; [|injection Hinit as <-; exact Hkey].
      destruct (negb (bool_decide (path = "")) && bool_decide (is_Some (disk !! path)));
        [|injection Hinit as <-; exact Hkey].
      exact (load_keeps_keys _ _ _ _ key Hkey Hinit).
    - exact (load_keeps_keys _ _ _ _ key (IH key Hkey) Hload).
    - unfold Config.set. rewrite lookup_insert.
      destruct (decide (k = key)); eauto.
    - exact (add_keeps_keys _ _ _ key (IH key Hkey) Hadd). }
  split; [exact Hkeys|].
  destruct (Hkeys "kpi_patterns" ConfigFacts.default_has_patterns) as [v Hv].
  unfold get_kpi_patterns, dict_get. rewrite Hv. reflexivity.
Qed.

End ConfigMoreFacts.

(** * Properties of the parser of documents *)

Module DocxParserFacts.
Import Disk DocxParser.

Lemma lstrip_spec s :
  exists front,
    s = front ++ lstrip s
    /\ Forall (fun c => Unicode.isspace c = true) front
    /\ (lstrip s = [] \/ exists c rest, lstrip s = c :: rest /\ Unicode.isspace c = false).
Proof.
  induction s as [|c s (front & Hs & Hall & Hhead)].
  - exists []. simpl. auto.
  - simpl. destruct (Unicode.isspace c) eqn:Hc.
    + exists (c :: front). simpl. rewrite <- Hs. auto.
    + exists []. simpl. split; [reflexivity|]. split; [constructor|]. eauto.
Qed.

Lemma lstrip_fixed c rest :
  Unicode.isspace c = false -> lstrip (c :: rest) = c :: rest.
Proof. intros Hc. simpl. rewrite Hc. reflexivity. Qed.

Lemma trimmed_strip s : trimmed s -> strip s = s.
Proof.
  intros [(c & rest & Hs & Hc) (front & d & Hs' & Hd)]. unfold strip.
  rewrite Hs, (lstrip_fixed c rest Hc), <- Hs, Hs', rev_app_distr. simpl.
  rewrite Hd. simpl. rewrite rev_involutive. reflexivity.
Qed.

(** A stripped text is empty or has no white space at either end. *)
Lemma strip_trimmed s : strip s = [] \/ trimmed (strip s).
Proof.
  unfold strip.
  destruct (lstrip_spec s) as (front & _ & _ & Hhead).
  destruct Hhead as [->|(c & rest & Hl & Hc)]; [left; reflexivity|].
  rewrite Hl.
  destruct (lstrip_spec (rev (c :: rest))) as (front2 & Hr & _ & Hhead2).
  destruct Hhead2 as [H2|(d & rest2 & Hl2 & Hd)].
  - left. rewrite H2. reflexivity.
  - right. rewrite Hl2. rewrite Hl2 in Hr.
    assert (Hrev : c :: rest = rev rest2 ++ d :: rev front2).
    { rewrite <- (rev_involutive (c :: rest)), Hr, rev_app_distr. simpl.
      rewrite <- app_assoc. reflexivity. }
    split.
    + simpl. destruct (rev rest2) as [|e r2] eqn:He.
      * simpl. exists d, []. auto.
      * simpl. simpl in Hrev. injection Hrev as <- _. exists c, (r2 ++ [d]). auto.
    + exists (rev rest2), d. simpl. auto.
Qed.

Lemma kept_alt texts :
  kept texts = strip <$> List.filter (fun t => nonempty (strip t)) texts.
Proof.
  unfold kept. induction texts as [|t texts IH]; [reflexivity|].
  simpl. destruct (nonempty (strip t)); simpl; [f_equal|]; exact IH.
Qed.

Lemma kept_trimmed texts : Forall trimmed (kept texts).
Proof.
  unfold kept. induction texts as [|t texts IH]; [constructor|].
  simpl. destruct (nonempty (strip t)) eqn:Hn; [|exact IH].
  constructor; [|exact IH].
  destruct (strip_trimmed t) as [He|Ht]; [|exact Ht].
  rewrite He in Hn. discriminate.
Qed.

Lemma kept_app a b : kept (a ++ b) = kept a ++ kept b.
Proof. unfold kept. rewrite fmap_app. apply List.filter_app. Qed.

Lemma kept_trimmed_one t : trimmed t -> kept [t] = [t].
Proof.
  intros Ht. unfold kept. simpl. rewrite (trimmed_strip t Ht).
  destruct Ht as [(c & rest & -> & _) _]. reflexivity.
Qed.

(** Joining. *)

Lemma join_cons sep x rest :
  rest <> [] -> join sep (x :: rest) = x ++ sep ++ join sep rest.
Proof. destruct rest; [contradiction|reflexivity]. Qed.

Lemma join_app sep a b :
  a <> [] -> b <> [] -> join sep (a ++ b) = join sep a ++ sep ++ join sep b.
Proof.
  intros Ha Hb. induction a as [|x a IH]; [contradiction|].
  destruct a as [|y a].
  - simpl. destruct b; [contradiction|reflexivity].
  - change ((x :: y :: a) ++ b) with (x :: ((y :: a) ++ b)).
    rewrite join_cons by discriminate.
    rewrite IH by discriminate.
    rewrite (join_cons sep x (y :: a)) by discriminate.
    rewrite <- !app_assoc. reflexivity.
Qed.

(** A joined text holds each of its parts. *)
Lemma join_holds sep l p :
  In p l -> exists before after, join sep l = before ++ p ++ after.
Proof.
  induction l as [|x l IH]; [intros []|].
  intros [->|Hin].
  - destruct l as [|y l].
    + exists [], []. simpl. rewrite app_nil_r. reflexivity.
    + exists [], (sep ++ join sep (y :: l)). reflexivity.
  - destruct (IH Hin) as (before & after & Hj).
    destruct l as [|y l]; [destruct Hin|].
    rewrite join_cons by discriminate. rewrite Hj.
    exists (x ++ sep ++ before), after. rewrite <- !app_assoc. reflexivity.
Qed.

(** The blocks of [get_text_blocks]. *)

Lemma blocks_count_zero len bs :
  0 < bs -> 0 <= len -> ((len + bs - 1) / bs = 0 <-> len = 0).
Proof.
  intros Hbs Hlen. split.
  - intros H. apply Z.div_small_iff in H; lia.
  - intros ->. apply Z.div_small. lia.
Qed.

Lemma blocks_count_step len bs :
  0 < bs -> bs < len -> (len - bs + bs - 1) / bs = (len + bs - 1) / bs - 1.
Proof.
  intros Hbs Hlen.
  replace (len - bs + bs - 1) with (len + bs - 1 + (-1) * bs) by lia.
  rewrite Z.div_add by lia. lia.
Qed.

Lemma blocks_count_one len bs :
  0 < bs -> 0 < len -> len <= bs -> (len + bs - 1) / bs = 1.
Proof.
  intros Hbs Hlen Hle.
  replace (len + bs - 1) with (len - 1 + 1 * bs) by lia.
  rewrite Z.div_add by lia. rewrite Z.div_small by lia. reflexivity.
Qed.

Lemma blocks_join sep (size : nat) :
  (0 < size)%nat ->
  forall count (l : list str),
    Z.of_nat count = (Z.of_nat (length l) + Z.of_nat size - 1) / Z.of_nat size ->
    join sep ((fun k => join sep (take size (drop (k * size) l))) <$> seq 0 count)
    = join sep l.
Proof.
  intros Hsize count. induction count as [|count IH]; intros l Hcount.
  - symmetry in Hcount. apply blocks_count_zero in Hcount; [|lia|lia].
    destruct l; [reflexivity|simpl in Hcount; lia].
  - assert (Hlen : (1 <= length l)%nat).
    { destruct l; [|simpl; lia]. simpl in Hcount.
      rewrite Z.div_small in Hcount by lia. lia. }
    rewrite <- cons_seq, <- fmap_S_seq, fmap_cons, <- list_fmap_compose.
    simpl (0 * size)%nat. rewrite drop_0.
    assert (Hrest : ((fun k => join sep (take size (drop (k * size) l))) ∘ S)
                      <$> seq 0 count
                    = (fun k => join sep (take size (drop (k * size) (drop size l))))
                      <$> seq 0 count).
    { apply list_fmap_ext. intros _ k _. unfold compose.
      rewrite drop_drop. do 3 f_equal. }
    rewrite Hrest.
    destruct (le_lt_dec (length l) size) as [Hle|Hgt].
    + assert (count = 0%nat).
      { rewrite (blocks_count_one (Z.of_nat (length l)) (Z.of_nat size)) in Hcount
          by lia. lia. }
      subst count. simpl. rewrite take_ge by lia. reflexivity.
    + assert (Hcount' : Z.of_nat count
                = (Z.of_nat (length (drop size l)) + Z.of_nat size - 1) / Z.of_nat size).
      { rewrite length_drop, Nat2Z.inj_sub by lia.
        rewrite blocks_count_step by lia. lia. }
      assert (Hpos : (1 <= count)%nat).
      { destruct count; [|lia]. symmetry in Hcount'.
        apply blocks_count_zero in Hcount'; [|lia|lia].
        rewrite length_drop in Hcount'. lia. }
      rewrite join_cons by (destruct count; [lia|discriminate]).
      rewrite (IH (drop size l) Hcount').
      rewrite <- join_app.
      * rewrite take_drop. reflexivity.
      * intros He. apply (f_equal length) in He.
        rewrite length_take in He. simpl in He. lia.
      * intros He. apply (f_equal length) in He.
        rewrite length_drop in He. simpl in He. lia.
Qed.

Section Parser.
Context {bytes : Type}.
Variable paragraphs_of : bytes -> option (list str).

(** What a parsed document was made from. *)
Lemma parse_file_parsed last disk path r :
  parse_file paragraphs_of last disk path = Parsed r ->
  exists b texts last_n,
    disk !! path = Some (File b)
    /\ paragraphs_of b = Some texts
    /\ min_with_len last (Z.of_nat (length (kept texts))) = Ret last_n
    /\ content r = kept texts
    /\ total_paragraphs r = Z.of_nat (length (kept texts))
    /\ last_paragraphs r =
       match kept texts with
       | [] => []
       | _ :: _ => slice_from (- last_n) (kept texts)
       end
    /\ last_paragraphs_text r = join newline (last_paragraphs r).
Proof.
  unfold parse_file. intros H.
  destruct (disk !! path) as [[b|]|]; try discriminate.
  destruct (paragraphs_of b) as [texts|] eqn:Hb; [|discriminate].
  destruct (min_with_len last _) as [last_n|] eqn:Hmin; [|discriminate].
  injection H as <-. exists b, texts, last_n. simpl.
  split; [reflexivity|]. split; [exact Hb|]. split; [exact Hmin|].
  repeat (split; [reflexivity|]). reflexivity.
Qed.

(** X17. The paragraphs that [parse_file] looks at. With a positive
    [last_paragraphs] they are the last that many paragraphs of the
    content, all of them when there are fewer. With [last_paragraphs]
    zero they are not none but all the paragraphs, and with a negative
    number the content without its first paragraphs. The text handed on
    is these paragraphs joined by line feeds. *)
Theorem parse_file_window n disk path r :
  parse_file paragraphs_of (PyInt n) disk path = Parsed r ->
  last_paragraphs_text r = join newline (last_paragraphs r)
  /\ total_paragraphs r = Z.of_nat (length (content r))
  /\ (1 <= n -> last_paragraphs r = last_n (Z.to_nat n) (content r))
  /\ (n = 0 -> last_paragraphs r = content r)
  /\ (n < 0 -> last_paragraphs r = drop (Z.to_nat (- n)) (content r)).
Proof.
  intros H.
  apply parse_file_parsed in H
    as (b & texts & k & _ & _ & Hmin & -> & -> & -> & ->).
  split; [reflexivity|]. split; [reflexivity|].
  simpl in Hmin. injection Hmin as <-.
  destruct (kept texts) as [|p ps] eqn:Hk.
  { unfold last_n. rewrite !drop_nil. auto. }
  rewrite <- Hk. assert (Hlen : (1 <= length (kept texts))%nat)
    by (rewrite Hk; simpl; lia).
  unfold slice_from, last_n. repeat split; intros Hn.
  - destruct (Z.ltb_spec (- Z.min n (Z.of_nat (length (kept texts)))) 0); [|lia].
    f_equal. lia.
  - subst n. rewrite Z.min_l by lia. simpl. change (- 0) with 0.
    rewrite Z.min_l by lia. reflexivity.
  - rewrite Z.min_l by lia.
    destruct (Z.ltb_spec (- n) 0); [lia|].
    destruct (Z.le_ge_cases (- n) (Z.of_nat (length (kept texts)))).
    + rewrite Z.min_l by lia. reflexivity.
    + rewrite Z.min_r by lia. rewrite Nat2Z.id.
      rewrite !drop_ge by lia. reflexivity.
Qed.

(** X18. The content of a parsed document: the paragraphs whose text is
    not blank, in their order, each stripped of the white space at its
    ends; so no paragraph of the content is empty or starts or ends with
    white space, and stripping it again changes nothing. *)
Theorem parse_file_content last disk path r :
  parse_file paragraphs_of last disk path = Parsed r ->
  exists b texts,
    disk !! path = Some (File b)
    /\ paragraphs_of b = Some texts
    /\ content r = strip <$> List.filter (fun t => nonempty (strip t)) texts
    /\ Forall (fun p => trimmed p /\ strip p = p) (content r)
    /\ (forall p, In p (last_paragraphs r) -> In p (content r)).
Proof.
  intros H.
  apply parse_file_parsed in H
    as (b & texts & k & Hd & Hb & _ & Hc & _ & Hl & _).
  exists b, texts. split; [exact Hd|]. split; [exact Hb|].
  split; [rewrite Hc; apply kept_alt|]. split.
  - rewrite Hc. eapply Forall_impl; [apply kept_trimmed|].
    intros p Hp. split; [exact Hp|apply trimmed_strip; exact Hp].
  - intros p. rewrite Hl, Hc.
    destruct (kept texts) as [|q qs]; [intros []|].
    unfold slice_from. intros Hin. apply list_elem_of_In.
    apply list_elem_of_In in Hin. eapply subseteq_drop. exact Hin.
Qed.

(** X19. [get_text_blocks] with a positive block size cuts the content
    into blocks that, joined by line feeds, give back the whole content
    joined by line feeds; there are as many blocks as the size needs to
    cover the content. A block size of zero raises [ValueError], also for
    a document without content, and a negative one gives no block. A
    file that cannot be parsed gives no block and no exception, whatever
    the block size. *)
Theorem get_text_blocks_cover last disk path block_size :
  (forall r,
     parse_file paragraphs_of last disk path = Parsed r ->
     (0 < block_size ->
      exists blocks,
        get_text_blocks paragraphs_of last disk path block_size = Ret blocks
        /\ join newline blocks = join newline (content r)
        /\ Z.of_nat (length blocks)
           = (total_paragraphs r + block_size - 1) / block_size)
     /\ (block_size = 0 ->
         get_text_blocks paragraphs_of last disk path block_size = Raise ValueError)
     /\ (block_size < 0 ->
         get_text_blocks paragraphs_of last disk path block_size = Ret []))
  /\ (parse_file paragraphs_of last disk path = Error ->
      get_text_blocks paragraphs_of last disk path block_size = Ret []).
Proof.
  split; [|intros H; unfold get_text_blocks; rewrite H; reflexivity].
  intros r Hr. unfold get_text_blocks, range_from_zero. rewrite Hr.
  pose proof (parse_file_parsed _ _ _ _ Hr)
    as (b & texts & k & _ & _ & _ & Hc & Ht & _).
  rewrite Ht, <- Hc. split; [|split].
  - intros Hpos.
    destruct (Z.eqb_spec block_size 0) as [|_]; [lia|].
    destruct (Z.ltb_spec block_size 0) as [|_]; [lia|].
    eexists. split; [reflexivity|]. split.
    + rewrite <- list_fmap_compose.
      rewrite <- (blocks_join newline (Z.to_nat block_size) ltac:(lia)
                    (Z.to_nat ((Z.of_nat (length (content r)) + block_size - 1)
                               / block_size)) (content r)).
      * f_equal. apply list_fmap_ext. intros _ i _. unfold compose, slice_between.
        f_equal. f_equal; [f_equal; lia|f_equal; lia].
      * rewrite !Z2Nat.id; try lia. apply Z.div_pos; lia.
    + rewrite !length_fmap, length_seq. rewrite Z2Nat.id; [reflexivity|].
      apply Z.div_pos; lia.
  - intros ->. reflexivity.
  - intros Hneg.
    destruct (Z.eqb_spec block_size 0) as [|_]; [lia|].
    destruct (Z.ltb_spec block_size 0) as [_|]; [reflexivity|lia].
Qed.

End Parser.

End DocxParserFacts.

(** * Properties of the fixer *)

Module FileFixerFacts.
Import Disk FileFixer.

Lemma length_append (a b : string) :
  String.length (a +:+ b) = (String.length a + String.length b)%nat.
Proof. induction a as [|c a IH]; simpl; [reflexivity|rewrite IH; reflexivity]. Qed.

Lemma backup_differs path : backup_of path <> path.
Proof.
  unfold backup_of. intros H. apply (f_equal String.length) in H.
  rewrite length_append in H. simpl in H. lia.
Qed.

Section Fixer.
Context {bytes : Type}.
Variable paragraphs_of : bytes -> option (list str).
Variable with_paragraph : bytes -> str -> bytes.

(** What [add_paragraph] and [save] do to the paragraphs that the library
    reads back. *)
Hypothesis with_paragraph_adds : forall b texts t,
  paragraphs_of b = Some texts ->
  paragraphs_of (with_paragraph b t) = Some (texts ++ [t]).

Lemma copy2_copies src dst (disk disk' : store bytes) :
  copy2 src dst disk = Some disk' ->
  exists b target,
    disk !! src = Some (File b)
    /\ target <> src
    /\ disk' = <[target := File b]> disk
    /\ (disk !! dst <> Some Directory -> target = dst).
Proof.
  unfold copy2. intros H.
  destruct (disk !! src) as [[b|]|] eqn:Hsrc; try discriminate.
  set (target := match disk !! dst with
                 | Some Directory => join_path dst (basename src)
                 | _ => dst
                 end) in *.
  destruct (String.eqb_spec target src) as [|Hne]; [discriminate|].
  destruct (disk !! target) as [[c|]|] eqn:Ht; try discriminate;
    injection H as <-; exists b, target;
    (split; [reflexivity|]); (split; [exact Hne|]); (split; [reflexivity|]);
    intros Hd; unfold target; destruct (disk !! dst) as [[|]|];
    try reflexivity; contradiction.
Qed.

Lemma copy2_to_file src dst (disk : store bytes) b :
  disk !! src = Some (File b) -> dst <> src ->
  disk !! dst <> Some Directory ->
  copy2 src dst disk = Some (<[dst := File b]> disk).
Proof.
  intros Hsrc Hne Hd. unfold copy2. rewrite Hsrc.
  assert (Ht : match disk !! dst with
               | Some Directory => join_path dst (basename src)
               | _ => dst
               end = dst)
    by (destruct (disk !! dst) as [[|]|]; try reflexivity; contradiction).
  rewrite Ht.
  destruct (String.eqb_spec dst src) as [|_]; [contradiction|].
  destruct (disk !! dst) as [[|]|]; try reflexivity. contradiction.
Qed.

(** A fix that succeeded, taken apart. *)
Lemma fix_file_fixed template year month path create_backup
  (disk disk' : store bytes) r :
  fix_file paragraphs_of with_paragraph template year month path create_backup disk
    = Ret (Fixed r, disk') ->
  exists b texts disk1,
    disk !! path = Some (File b)
    /\ paragraphs_of b = Some texts
    /\ format_template template (str_of_int year)
         (snd (get_current_year_quarter year month)) = inr (template_added r)
    /\ file_path r = path
    /\ backup_created r = create_backup
    /\ backup_path r = (if create_backup then Some (backup_of path) else None)
    /\ (if create_backup then copy2 path (backup_of path) disk = Some disk1
        else disk1 = disk)
    /\ disk' = <[path := File (with_paragraph b (template_added r))]> disk1.
Proof.
  unfold fix_file. intros H.
  destruct (disk !! path) as [n|] eqn:Hp; [|discriminate].
  destruct (if create_backup then copy2 path (backup_of path) disk else Some disk)
    as [disk1|] eqn:Hcopy; [|discriminate].
  assert (Hsame : disk1 !! path = disk !! path).
  { destruct create_backup; [|injection Hcopy as <-; reflexivity].
    apply copy2_copies in Hcopy as (b & target & _ & Hne & -> & _).
    rewrite lookup_insert_ne by exact Hne. reflexivity. }
  rewrite Hsame, Hp in H.
  destruct n as [b|]; [|discriminate].
  destruct (paragraphs_of b) as [texts|] eqn:Hb; [|discriminate].
  unfold get_current_year_quarter in *. cbn [snd].
  match type of H with
  | context [format_template template ?y ?q] =>
      destruct (format_template template y q) as [[]|t] eqn:Hf; try discriminate
  end.
  injection H as <- <-. exists b, texts, disk1. cbn.
  split; [reflexivity|]. split; [exact Hb|]. split; [reflexivity|].
  split; [reflexivity|]. split; [reflexivity|]. split; [reflexivity|].
  split; [|reflexivity].
  destruct create_backup; [exact Hcopy|].
  injection Hcopy as <-. reflexivity.
Qed.


(** X21. After a fix with backup, [restore_from_backup] succeeds and puts
    back at the path the bytes that were there before the fix; the backup
    stays, and nothing else changes. (The backup path must not have been
    a directory.) *)
Theorem fix_then_restore template year month path (disk disk' : store bytes) r :
  disk !! backup_of path <> Some Directory ->
  fix_file paragraphs_of with_paragraph template year month path true disk
    = Ret (Fixed r, disk') ->
  exists disk'',
    restore_from_backup path disk' = (true, disk'')
    /\ disk'' !! path = disk !! path
    /\ disk'' !! backup_of path = disk !! path
    /\ forall p, p <> path -> disk'' !! p = disk' !! p.
Proof.
  intros Hdir H.
  apply fix_file_fixed in H
    as (b & texts & disk1 & Hp & _ & _ & _ & _ & _ & Hcopy & ->).
  rewrite (copy2_to_file path (backup_of path) disk b Hp (backup_differs path) Hdir)
    in Hcopy.
  injection Hcopy as <-.
  set (fixed := <[path := File (with_paragraph b (template_added r))]>
                  (<[backup_of path := File b]> disk)).
  assert (Hbak : fixed !! backup_of path = Some (File b)).
  { unfold fixed. rewrite lookup_insert_ne by (intros E; symmetry in E;
      exact (backup_differs path E)). apply lookup_insert_eq. }
  exists (<[path := File b]> fixed).
  unfold restore_from_backup. rewrite Hbak.
  rewrite (copy2_to_file (backup_of path) path fixed b Hbak).
  - split; [reflexivity|]. split; [rewrite Hp; apply lookup_insert_eq|]. split.
    + rewrite lookup_insert_ne by (intros E; symmetry in E;
        exact (backup_differs path E)). rewrite Hp. exact Hbak.
    + intros p Hne. apply lookup_insert_ne. congruence.
  - intros E. symmetry in E. exact (backup_differs path E).
  - unfold fixed. rewrite lookup_insert_eq. discriminate.
Qed.


(** X23. A fix that fails after the backup was made leaves the document as
    it was but has written the backup, over an older one if there was
    one: so it is for a file that the library cannot open and for a
    template that cannot be formatted. Without backup a failing fix
    changes nothing. *)
Theorem failed_fix_leaves_backup template year month path (disk : store bytes) b :
  disk !! path = Some (File b) ->
  disk !! backup_of path <> Some Directory ->
  paragraphs_of b = None
  \/ (exists e,
        format_template template (str_of_int year)
          (snd (get_current_year_quarter year month)) = inl e
        /\ e <> FormatNotModelled) ->
  fix_file paragraphs_of with_paragraph template year month path true disk
    = Ret (NotFixed, <[backup_of path := File b]> disk)
  /\ fix_file paragraphs_of with_paragraph template year month path false disk
     = Ret (NotFixed, disk).
Proof.
  intros Hp Hdir Hwhy. unfold fix_file. rewrite Hp.
  rewrite (copy2_to_file path (backup_of path) disk b Hp (backup_differs path) Hdir).
  rewrite lookup_insert_ne by apply backup_differs. rewrite Hp.
  destruct Hwhy as [Hb|(e & Hf & He)].
  - rewrite Hb. split; reflexivity.
  - destruct (paragraphs_of b); [|split; reflexivity].
    unfold get_current_year_quarter in *. cbn [snd] in Hf. rewrite Hf.
    destruct e; try (split; reflexivity). contradiction.
Qed.

End Fixer.

End FileFixerFacts.

(** * The placeholder of the fixer is not a statement *)

Module PlaceholderFacts.
Import Lang FileFixer.

(** Where an element of a concatenation lies. *)
Lemma elem_split {A} (l1 l2 s1 s2 : list A) c :
  l1 ++ l2 = s1 ++ c :: s2 ->
  (exists m, l1 = s1 ++ c :: m /\ s2 = m ++ l2)
  \/ (exists m, s1 = l1 ++ m /\ l2 = m ++ c :: s2).
Proof.
  revert s1. induction l1 as [|x l1 IH]; intros s1 H.
  - right. exists s1. auto.
  - destruct s1 as [|y s1]; simpl in H; injection H as -> H.
    + left. exists l1. auto.
    + destruct (IH s1 H) as [(m & -> & ->)|(m & -> & ->)].
      * left. exists m. auto.
      * right. exists m. auto.
Qed.

(** Where a piece of [X ++ c :: Y] lies: in [X], in [Y], or over [c]. *)
Lemma occurrence_cases {A} (X Y before S after : list A) c :
  X ++ c :: Y = before ++ S ++ after ->
  (exists r, X = before ++ S ++ r)
  \/ (exists l, Y = l ++ S ++ after)
  \/ (exists S1 S2, S = S1 ++ c :: S2 /\ X = before ++ S1 /\ Y = S2 ++ after).
Proof.
  intros H. symmetry in H.
  destruct (elem_split _ _ _ _ _ H) as [(m & -> & ->)|(m & -> & H2)].
  - right. left. exists m. reflexivity.
  - destruct (elem_split _ _ _ _ _ H2) as [(m' & -> & ->)|(m' & -> & ->)].
    + right. right. exists m, m'. auto.
    + left. exists m'. reflexivity.
Qed.

Lemma split_at_unique {A} (a : A) l1 l2 p r :
  ~ In a l1 -> ~ In a l2 ->
  l1 ++ a :: l2 = p ++ a :: r -> p = l1 /\ r = l2.
Proof.
  revert p. induction l1 as [|x l1 IH]; intros p H1 H2 H.
  - destruct p as [|y p]; simpl in H.
    + injection H as ->. auto.
    + injection H as _ Hl. exfalso. apply H2. rewrite Hl.
      apply in_or_app. right. left. reflexivity.
  - destruct p as [|y p]; simpl in H; injection H as Hx H.
    + exfalso. apply H1. left. exact Hx.
    + subst y. destruct (IH p) as [-> ->]; auto.
      intros Hin. apply H1. right. exact Hin.
Qed.

(** Two texts that start with digits and go on with something else have
    the same digits. *)
Lemma first_other (P : codepoint -> Prop) A B a b R R' :
  Forall P A -> Forall P B -> ~ P a -> ~ P b ->
  A ++ a :: R = B ++ b :: R' -> A = B /\ a = b.
Proof.
  revert B. induction A as [|x A IH]; intros B HA HB Ha Hb H.
  - destruct B as [|y B]; simpl in H; injection H as -> H; [auto|].
    inversion HB; subst. contradiction.
  - destruct B as [|y B]; simpl in H; injection H as -> H.
    + inversion HA; subst. contradiction.
    + inversion HA; inversion HB; subst.
      destruct (IH B) as [-> ->]; auto.
Qed.

Lemma states_score_pieces text :
  states_score text
  <-> exists before piece after,
        text = before ++ piece ++ after
        /\ (first_wording piece \/ second_wording piece).
Proof.
  unfold states_score, first_wording, second_wording. split.
  - intros (before & ds & after & Hds & [->|(ws1 & ws2 & H1 & H2 & ->)]).
    + exists before, (u "KPI考核自评" ++ ds ++ u "分"), after.
      split; [rewrite <- !app_assoc; reflexivity|]. left. eauto.
    + exists before, (u "自评得分" ++ ws1 ++ ds ++ ws2 ++ u "分"), after.
      split; [rewrite <- !app_assoc; reflexivity|]. right. eauto 10.
  - intros (before & piece & after & -> & [(ds & Hds & ->)
                                          |(ws1 & ds & ws2 & H1 & Hds & H2 & ->)]).
    + exists before, ds, after. split; [exact Hds|]. left.
      rewrite <- !app_assoc. reflexivity.
    + exists before, ds, after. split; [exact Hds|]. right.
      exists ws1, ws2. rewrite <- !app_assoc. auto.
Qed.

(** A text that holds a text with a statement holds a statement. *)
Lemma states_score_inside a text b :
  states_score text -> states_score (a ++ text ++ b).
Proof.
  rewrite !states_score_pieces.
  intros (before & piece & after & -> & Hp).
  exists (a ++ before), piece, (after ++ b).
  rewrite <- !app_assoc. auto.
Qed.

Lemma decimal_10 : Unicode.isdecimal 10%N = false.
Proof. vm_compute. reflexivity. Qed.

Lemma decimal_blank : Unicode.isdecimal 95%N = false.
Proof. vm_compute. reflexivity. Qed.

Lemma decimal_year_sign : Unicode.isdecimal 24180%N = false.
Proof. vm_compute. reflexivity. Qed.

Lemma space_year_sign : Unicode.isspace 24180%N = false.
Proof. vm_compute. reflexivity. Qed.

Lemma digit_cases c :
  (48 <= c <= 57)%N ->
  Unicode.isdecimal c = true /\ Unicode.isspace c = false
  /\ c <> 35780%N /\ c <> 20998%N.
Proof.
  intros Hc.
  assert (H : In c [48; 49; 50; 51; 52; 53; 54; 55; 56; 57]%N).
  { assert (Hn : (N.to_nat c - 48 < 10)%nat) by lia.
    replace c with (N.of_nat (48 + (N.to_nat c - 48))) by lia.
    destruct (N.to_nat c - 48)%nat as [|[|[|[|[|[|[|[|[|[|k]]]]]]]]]];
      simpl; try lia; auto 20. }
  simpl in H.
  repeat (destruct H as [<-|H];
          [repeat split; try (vm_compute; reflexivity); discriminate|]).
  destruct H.
Qed.

(** Every piece in one of the wordings has the sign [评] followed by a
    decimal digit or by [得]. *)
Lemma wording_mark piece :
  first_wording piece \/ second_wording piece ->
  exists front c back,
    piece = front ++ 35780%N :: c :: back
    /\ (Unicode.isdecimal c = true \/ c = 24471%N).
Proof.
  intros [(ds & [[Hlen _] Hall] & ->)|(ws1 & ds & ws2 & _ & _ & _ & ->)].
  - rewrite DefaultPatterns.literal_kpi.
    destruct ds as [|d ds]; [simpl in Hlen; lia|].
    inversion Hall; subst.
    exists [75; 80; 73; 32771; 26680; 33258]%N, d, (ds ++ u "分").
    split; [reflexivity|]. left. assumption.
  - rewrite DefaultPatterns.literal_score.
    exists [33258%N], 24471%N, (20998%N :: ws1 ++ ds ++ ws2 ++ u "分").
    split; [reflexivity|]. right. reflexivity.
Qed.

Lemma first_wording_one_line piece : first_wording piece -> ~ In 10%N piece.
Proof.
  intros (ds & [_ Hall] & ->).
  rewrite DefaultPatterns.literal_kpi, DefaultPatterns.literal_points.
  intros Hin. apply in_app_or in Hin as [Hin|Hin].
  - simpl in Hin. repeat (destruct Hin as [Hin|Hin]; [discriminate|]). destruct Hin.
  - apply in_app_or in Hin as [Hin|Hin].
    + rewrite Forall_forall in Hall. apply list_elem_of_In in Hin.
      apply Hall in Hin. rewrite decimal_10 in Hin. discriminate.
    + simpl in Hin. destruct Hin as [Hin|[]]. discriminate.
Qed.

Lemma spaces_tail (front back : str) c :
  spaces (front ++ c :: back) -> spaces back.
Proof.
  unfold spaces. intros H. apply Forall_app in H as [_ H].
  inversion H; subst. assumption.
Qed.

(** What follows a line feed in a piece in the second wording. *)
Lemma second_wording_after_line_feed piece S1 S2 :
  second_wording piece -> piece = S1 ++ 10%N :: S2 ->
  (exists w ds ws2,
     spaces w /\ decimal_run ds /\ spaces ws2
     /\ S2 = w ++ ds ++ ws2 ++ [20998%N])
  \/ (exists w, spaces w /\ S2 = w ++ [20998%N]).
Proof.
  intros (ws1 & ds & ws2 & Hws1 & Hds & Hws2 & ->).
  rewrite DefaultPatterns.literal_score, DefaultPatterns.literal_points.
  intros H.
  destruct (elem_split _ _ _ _ _ H) as [(m & Hm & _)|(m & _ & H1)].
  { exfalso. assert (Hin : In 10%N [33258; 35780; 24471; 20998]%N)
      by (rewrite Hm; apply in_or_app; right; left; reflexivity).
    simpl in Hin. repeat (destruct Hin as [Hin|Hin]; [discriminate|]). destruct Hin. }
  destruct (elem_split _ _ _ _ _ H1) as [(m1 & Hm1 & ->)|(m1 & _ & H2)].
  { left. exists m1, ds, ws2. split; [|auto].
    rewrite Hm1 in Hws1. eapply spaces_tail. exact Hws1. }
  destruct (elem_split _ _ _ _ _ H2) as [(m2 & Hm2 & _)|(m2 & _ & H3)].
  { exfalso. destruct Hds as [_ Hall]. rewrite Hm2 in Hall.
    apply Forall_app in Hall as [_ Hall]. inversion Hall; subst.
    rewrite decimal_10 in *. discriminate. }
  destruct (elem_split _ _ _ _ _ H3) as [(m3 & Hm3 & ->)|(m3 & _ & H4)].
  { right. exists m3. split; [|reflexivity].
    rewrite Hm3 in Hws2. eapply spaces_tail. exact Hws2. }
  exfalso. destruct m3 as [|x m3]; simpl in H4; [discriminate|].
  injection H4 as _ H4. destruct m3; discriminate.
Qed.

(** The placeholder has one sign [评], and two blanks follow it. *)
Lemma placeholder_mark y q front c back :
  year_text y -> quarter_text q ->
  placeholder y q = front ++ 35780%N :: c :: back -> c = 95%N.
Proof.
  intros [_ Hy] Hq H.
  assert (Hshape : exists middle,
             placeholder y q = (y ++ middle) ++ 35780%N :: [95; 95; 20998; 12290]%N
             /\ ~ In 35780%N middle).
  { assert (Hsign : exists s, q = [s] /\ s <> 35780%N).
    { destruct Hq as [-> | [-> | [-> | ->]]]; eexists;
        (split; [vm_compute; reflexivity|discriminate]). }
    destruct Hsign as (s & -> & Hs).
    exists [24180; 31532; s; 23395; 24230; 75; 80; 73; 32771; 26680; 33258]%N.
    split.
    - unfold placeholder. rewrite <- app_assoc. f_equal.
    - simpl. intros Hin.
      repeat (destruct Hin as [Hin|Hin]; [congruence|]). destruct Hin. }
  destruct Hshape as (middle & Hp & Hm). rewrite Hp in H.
  apply split_at_unique in H as [_ H].
  - injection H as <- _. reflexivity.
  - intros Hin. apply in_app_or in Hin as [Hin|Hin]; [|exact (Hm Hin)].
    rewrite Forall_forall in Hy. apply list_elem_of_In in Hin.
    apply Hy in Hin. lia.
  - simpl. intros Hin.
    repeat (destruct Hin as [Hin|Hin]; [discriminate|]). destruct Hin.
Qed.

Lemma placeholder_start y q :
  year_text y -> exists y0 rest tail,
    y = y0 :: rest /\ (48 <= y0 <= 57)%N
    /\ Forall (fun c => Unicode.isdecimal c = true) y
    /\ placeholder y q = y ++ 24180%N :: tail.
Proof.
  intros [Hne Hy]. destruct y as [|y0 rest]; [contradiction|].
  exists y0, rest. eexists. split; [reflexivity|].
  split; [inversion Hy; assumption|]. split.
  - eapply Forall_impl; [exact Hy|]. intros c Hc. apply digit_cases. exact Hc.
  - unfold placeholder. f_equal.
Qed.

(** Adding the placeholder on a new line to a text without statement
    gives a text without statement. *)
Lemma placeholder_adds_no_statement y q X :
  year_text y -> quarter_text q ->
  ~ states_score X -> ~ states_score (X ++ 10%N :: placeholder y q).
Proof.
  intros Hy Hq HX Hs. apply states_score_pieces in Hs
    as (before & piece & after & Heq & Hp).
  destruct (occurrence_cases _ _ _ _ _ _ Heq)
    as [(r & ->)|[(l & Hin)|(S1 & S2 & Hpiece & _ & Htail)]].
  - apply HX. apply states_score_pieces. eauto 10.
  - destruct (wording_mark piece Hp) as (front & c & back & -> & Hc).
    rewrite <- !app_assoc in Hin. simpl in Hin. rewrite app_assoc in Hin.
    apply (placeholder_mark y q _ _ _ Hy Hq) in Hin. subst c.
    destruct Hc as [Hc|Hc]; [rewrite decimal_blank in Hc|]; discriminate.
  - destruct Hp as [Hp|Hp].
    { apply (first_wording_one_line piece Hp). rewrite Hpiece.
      apply in_or_app. right. left. reflexivity. }
    destruct (placeholder_start y q Hy) as (y0 & rest & tail & Hy0 & Hd0 & Hdec & Hpl).
    destruct (digit_cases y0 Hd0) as (_ & Hsp0 & _ & Hp0).
    rewrite Hpl in Htail.
    destruct (second_wording_after_line_feed piece S1 S2 Hp Hpiece)
      as [(w & ds & ws2 & Hw & [[Hlen _] Hds] & Hws2 & ->)|(w & Hw & ->)].
    + destruct w as [|s w].
      * simpl in Htail. rewrite <- !app_assoc in Htail.
        assert (Hnext : exists c' R', (ws2 ++ [20998%N]) ++ after = c' :: R'
                          /\ Unicode.isdecimal c' = false /\ c' <> 24180%N).
        { destruct ws2 as [|s ws2].
          - exists 20998%N, after. split; [reflexivity|].
            split; [vm_compute; reflexivity|discriminate].
          - inversion Hws2; subst. eexists s, _. split; [reflexivity|].
            split.
            + destruct (Unicode.isdecimal s) eqn:Hd; [|reflexivity].
              rewrite (IntFacts.decimal_not_space s Hd) in *. discriminate.
            + intros ->. rewrite space_year_sign in *. discriminate. }
        destruct Hnext as (c' & R' & Hn & Hc' & Hne).
        rewrite <- app_assoc in Hn. rewrite Hn in Htail.
        symmetry in Htail.
        apply (first_other (fun c => Unicode.isdecimal c = true)) in Htail
          as [_ Heq'];
          [exact (Hne Heq')|exact Hds|exact Hdec
          |rewrite Hc'; discriminate
          |rewrite decimal_year_sign; discriminate].
      * rewrite Hy0 in Htail. simpl in Htail. injection Htail as Hh _.
        inversion Hw; subst. congruence.
    + rewrite Hy0 in Htail. destruct w as [|s w]; simpl in Htail.
      * injection Htail as Hh _. exact (Hp0 Hh).
      * injection Htail as Hh _. inversion Hw; subst. congruence.
Qed.

Lemma placeholder_no_statement y q :
  year_text y -> quarter_text q -> ~ states_score (placeholder y q).
Proof.
  intros Hy Hq Hs.
  apply (placeholder_adds_no_statement y q [] Hy Hq).
  - intros H. apply states_score_pieces in H as (before & piece & after & Heq & Hp).
    destruct (wording_mark piece Hp) as (front & c & back & -> & _).
    apply (f_equal length) in Heq. rewrite !length_app in Heq. simpl in Heq. lia.
  - apply (states_score_inside [10%N] _ []) in Hs.
    rewrite app_nil_r in Hs. exact Hs.
Qed.

End PlaceholderFacts.

(** * The text that the fixer adds *)

Module TemplateFacts.
Import FileFixer.

Lemma digits_of_nonempty fuel : forall n acc,
  acc <> [] -> digits_of fuel n acc <> [].
Proof.
  induction fuel as [|fuel IH]; intros n acc Hacc; simpl; [exact Hacc|].
  destruct (n / 10 =? 0)%N; [discriminate|]. apply IH. discriminate.
Qed.

Lemma digits_of_digits fuel : forall n acc,
  Forall (fun c => (48 <= c <= 57)%N) acc ->
  Forall (fun c => (48 <= c <= 57)%N) (digits_of fuel n acc).
Proof.
  induction fuel as [|fuel IH]; intros n acc Hacc; simpl; [exact Hacc|].
  assert (Hd : (48 <= 48 + n mod 10 <= 57)%N).
  { pose proof (N.mod_upper_bound n 10 ltac:(discriminate)) as Hm.
    revert Hm. generalize (n mod 10)%N. intros d Hm. lia. }
  destruct (n / 10 =? 0)%N; [|apply IH]; constructor; assumption.
Qed.

(** [str] of a year is a text of digits. *)
Lemma str_of_int_year z : 0 <= z -> year_text (str_of_int z).
Proof.
  intros Hz. unfold str_of_int.
  destruct (Z.ltb_spec z 0) as [|_]; [lia|]. split.
  - simpl. destruct (_ / 10 =? 0)%N; [discriminate|].
    apply digits_of_nonempty. discriminate.
  - apply digits_of_digits. constructor.
Qed.

Lemma quarter_is_quarter year month :
  quarter_text (snd (get_current_year_quarter year month)).
Proof.
  unfold get_current_year_quarter, quarter_text. cbn [snd].
  destruct ((1 <=? month) && (month <=? 3)); [auto|].
  destruct ((4 <=? month) && (month <=? 6)); [auto|].
  destruct ((7 <=? month) && (month <=? 9)); auto.
Qed.

(** Formatting, piece by piece. *)

Lemma format_plain kwargs lit : forall rest acc,
  Forall (fun c => c <> ch "{" /\ c <> ch "}") lit ->
  format_from (lit ++ rest) kwargs None acc
  = format_from rest kwargs None (acc ++ lit).
Proof.
  induction lit as [|c lit IH]; intros rest acc Hlit.
  - rewrite app_nil_r. reflexivity.
  - inversion Hlit as [|? ? [H1 H2] Hrest]; subst.
    cbn [app format_from].
    destruct (N.eqb_spec c (ch "{")) as [|_]; [contradiction|].
    destruct (N.eqb_spec c (ch "}")) as [|_]; [contradiction|].
    rewrite (IH rest (acc ++ [c]) Hrest), <- app_assoc. reflexivity.
Qed.

Lemma format_name kwargs name : forall pre rest acc,
  Forall (fun c => c <> ch "}" /\ c <> ch "{" /\ c <> ch "." /\ c <> ch "["
                   /\ c <> ch "!" /\ c <> ch ":") name ->
  format_from (name ++ ch "}" :: rest) kwargs (Some pre) acc
  = match field_value (pre ++ name) kwargs with
    | inr v => format_from rest kwargs None (acc ++ v)
    | inl e => inl e
    end.
Proof.
  induction name as [|c name IH]; intros pre rest acc Hname.
  - cbn [app format_from]. rewrite N.eqb_refl, app_nil_r. reflexivity.
  - inversion Hname as [|? ? (H1 & H2 & H3 & H4 & H5 & H6) Hrest]; subst.
    cbn [app format_from].
    destruct (N.eqb_spec c (ch "}")) as [|_]; [contradiction|].
    destruct (N.eqb_spec c (ch "{")) as [|_]; [contradiction|].
    destruct (N.eqb_spec c (ch ".")) as [|_]; [contradiction|].
    destruct (N.eqb_spec c (ch "[")) as [|_]; [contradiction|].
    destruct (N.eqb_spec c (ch "!")) as [|_]; [contradiction|].
    destruct (N.eqb_spec c (ch ":")) as [|_]; [contradiction|].
    cbn [orb]. etransitivity; [exact (IH (pre ++ [c]) rest acc Hrest)|].
    rewrite <- app_assoc. reflexivity.
Qed.

Lemma format_field kwargs name v rest acc :
  Forall (fun c => c <> ch "}" /\ c <> ch "{" /\ c <> ch "." /\ c <> ch "["
                   /\ c <> ch "!" /\ c <> ch ":") name ->
  field_value name kwargs = inr v ->
  format_from (ch "{" :: name ++ ch "}" :: rest) kwargs None acc
  = format_from rest kwargs None (acc ++ v).
Proof.
  intros Hname Hv.
  assert (Hgo : format_from (ch "{" :: name ++ ch "}" :: rest) kwargs None acc
                = format_from (name ++ ch "}" :: rest) kwargs (Some []) acc).
  { cbn [format_from]. rewrite N.eqb_refl.
    destruct name as [|c name]; cbn [app].
    - destruct (N.eqb_spec (ch "}") (ch "{")) as [E|_]; [discriminate E|reflexivity].
    - inversion Hname as [|? ? (_ & H2 & _) _]; subst.
      destruct (N.eqb_spec c (ch "{")) as [|_]; [contradiction|reflexivity]. }
  rewrite Hgo. etransitivity; [exact (format_name kwargs name [] rest acc Hname)|].
  cbn [app]. rewrite Hv. reflexivity.
Qed.

(* No character of a literal is one of the special ones. *)
Ltac literal_chars :=
  apply Forall_forall; intros c Hc; apply list_elem_of_In in Hc;
  vm_compute in Hc;
  repeat (destruct Hc as [<-|Hc]; [repeat split; discriminate|]);
  destruct Hc.

(** The default template, formatted. *)
Lemma format_default year quarter :
  format_template (PyStr default_template) year quarter
  = inr (placeholder year quarter).
Proof.
  unfold format_template, placeholder.
  assert (Htemplate : default_template
            = ch "{" :: u "year" ++ ch "}" :: u "年第"
                ++ ch "{" :: u "quarter" ++ ch "}" :: u "季度KPI考核自评__分。" ++ [])
    by (vm_compute; reflexivity).
  rewrite Htemplate.
  rewrite (format_field _ (u "year") year); [|literal_chars|vm_compute; reflexivity].
  rewrite (format_plain _ (u "年第")); [|literal_chars].
  rewrite (format_field _ (u "quarter") quarter);
    [|literal_chars|vm_compute; reflexivity].
  rewrite (format_plain _ (u "季度KPI考核自评__分。")); [|literal_chars].
  cbn [format_from app]. rewrite <- !app_assoc. reflexivity.
Qed.

Lemma default_template_configured :
  init Config.default_config = Ret (PyStr default_template).
Proof. vm_compute. reflexivity. Qed.

(** The placeholder has no white space at its ends. *)
Lemma placeholder_trimmed y q :
  year_text y -> DocxParser.trimmed (placeholder y q).
Proof.
  intros [Hne Hy]. destruct y as [|y0 rest]; [contradiction|].
  inversion Hy as [|? ? Hy0 _]; subst. split.
  - exists y0, (rest ++ u "年第" ++ q ++ u "季度KPI考核自评__分。").
    split; [reflexivity|].
    apply PlaceholderFacts.digit_cases. exact Hy0.
  - exists ((y0 :: rest) ++ u "年第" ++ q ++ u "季度KPI考核自评__分"), 12290%N.
    split; [|vm_compute; reflexivity].
    unfold placeholder. rewrite <- !app_assoc. do 3 f_equal.
Qed.

End TemplateFacts.

(** * From the document to the verdict, and after a fix *)

Module PipelineFacts.
Import Lang Disk DocxParser FileFixer KPIChecker.

(** The verdict of the default checker on a text. *)
Lemma default_verdict text :
  exists v,
    check_text (KPIChecker.init Config.default_config) (PyStr text) = Ret v
    /\ (v !! "has_kpi_statement" = Some (PyBool true) <-> states_score text)
    /\ (~ states_score text -> v = absent).
Proof.
  destruct (CheckerFacts.check_text_default (PyStr text)) as (v & Hv & Hwf).
  exists v. split; [exact Hv|].
  assert (Hiff : v !! "has_kpi_statement" = Some (PyBool true) <-> states_score text).
  { destruct text as [|c text].
    - injection Hv as <-. split; [discriminate|].
      intros H. apply PlaceholderFacts.states_score_pieces in H
        as (before & piece & after & Heq & Hp).
      destruct (PlaceholderFacts.wording_mark piece Hp) as (front & d & back & -> & _).
      apply (f_equal length) in Heq. rewrite !length_app in Heq. simpl in Heq. lia.
    - unfold check_text in Hv.
      rewrite (CheckerFacts.check_text_trace_compiled _ _ _ (c :: text)
                 ltac:(discriminate) CheckerFacts.default_patterns_iterate
                 CheckerFacts.default_patterns_compile) in Hv.
      destruct (check_from (PyStr <$> Config.default_kpi_patterns) 0
                  default_compiled (c :: text)) as [tr r] eqn:Hfrom.
      simpl in Hv. subst r.
      rewrite (DefaultPatterns.check_from_has _ _ _ _ _ _ Hfrom).
      apply DefaultPatterns.default_occurs. }
  split; [exact Hiff|].
  intros Hnot. destruct Hwf as [->|(ds & p & mt & yr & z & -> & _)]; [reflexivity|].
  exfalso. apply Hnot, Hiff. apply CheckerFacts.verdict_fields.
Qed.

Lemma default_absent text :
  check_text (KPIChecker.init Config.default_config) (PyStr text) = Ret absent
  <-> ~ states_score text.
Proof.
  destruct (default_verdict text) as (v & Hv & Hiff & Habs). split.
  - intros H. rewrite H in Hv. injection Hv as <-.
    intros Hs. apply Hiff in Hs. discriminate.
  - intros Hnot. rewrite Hv, (Habs Hnot). reflexivity.
Qed.

(** The paragraphs looked at, for a positive number of them. *)
Lemma window_positive n (l : list str) :
  1 <= n ->
  match l with
  | [] => []
  | _ :: _ => slice_from (- Z.min n (Z.of_nat (length l))) l
  end = last_n (Z.to_nat n) l.
Proof.
  intros Hn. unfold last_n. destruct l as [|p l]; [reflexivity|].
  unfold slice_from.
  destruct (Z.ltb_spec (- Z.min n (Z.of_nat (length (p :: l)))) 0) as [_|H];
    [|simpl length in H; lia].
  f_equal. simpl length. lia.
Qed.

Lemma last_n_snoc n (l : list str) t :
  (1 <= n)%nat -> last_n n (l ++ [t]) = last_n (n - 1) l ++ [t].
Proof.
  intros Hn. unfold last_n. rewrite length_app. simpl length.
  rewrite drop_app_le by lia. f_equal. f_equal. lia.
Qed.

Lemma last_n_more n (l : list str) :
  exists front, last_n n l = front ++ last_n (n - 1) l.
Proof.
  unfold last_n.
  exists (take ((length l - (n - 1)) - (length l - n)) (drop (length l - n) l)).
  rewrite <- (take_drop ((length l - (n - 1)) - (length l - n))
                (drop (length l - n) l)) at 1.
  f_equal. rewrite drop_drop. f_equal. lia.
Qed.

Lemma join_tail sep front (l : list str) :
  exists before, join sep (front ++ l) = before ++ join sep l.
Proof.
  destruct front as [|x front]; [exists []; reflexivity|].
  destruct l as [|y l].
  { exists (join sep (x :: front)). simpl (join sep []).
    rewrite !app_nil_r. reflexivity. }
  rewrite DocxParserFacts.join_app by discriminate.
  exists (join sep (x :: front) ++ sep). rewrite <- app_assoc. reflexivity.
Qed.

Section Pipeline.
Context {bytes : Type}.
Variable paragraphs_of : bytes -> option (list str).
Variable with_paragraph : bytes -> str -> bytes.

Hypothesis with_paragraph_adds : forall b texts t,
  paragraphs_of b = Some texts ->
  paragraphs_of (with_paragraph b t) = Some (texts ++ [t]).

Lemma parse_file_docx n (disk : store bytes) path b texts :
  1 <= n ->
  disk !! path = Some (File b) -> paragraphs_of b = Some texts ->
  exists r,
    parse_file paragraphs_of (PyInt n) disk path = Parsed r
    /\ content r = kept texts
    /\ last_paragraphs r = last_n (Z.to_nat n) (kept texts)
    /\ last_paragraphs_text r = join newline (last_paragraphs r).
Proof.
  intros Hn Hd Hb. unfold parse_file. rewrite Hd, Hb. simpl.
  eexists. split; [reflexivity|]. simpl.
  split; [reflexivity|]. split; [|reflexivity].
  apply window_positive. exact Hn.
Qed.

(** X24. A statement in one of the paragraphs that [parse_file] keeps for
    the check is found: with the default patterns, [check_text] on the
    text that [extract_kpi_section] hands on reports a statement as soon
    as one of the last paragraphs states a score in one of the two
    wordings. *)
Theorem statement_in_last_paragraphs_found last (disk : store bytes) path text r p :
  extract_kpi_section paragraphs_of last disk path = (Some text, Parsed r) ->
  In p (last_paragraphs r) ->
  states_score p ->
  text = last_paragraphs_text r
  /\ exists v,
       check_text (KPIChecker.init Config.default_config) (PyStr text) = Ret v
       /\ v !! "has_kpi_statement" = Some (PyBool true).
Proof.
  intros Hx Hin Hp. unfold extract_kpi_section in Hx.
  destruct (parse_file paragraphs_of last disk path) as [|r0] eqn:Hparse;
    [discriminate|].
  injection Hx as <- <-. split; [reflexivity|].
  apply DocxParserFacts.parse_file_parsed in Hparse
    as (b & texts & k & _ & _ & _ & _ & _ & _ & Htext).
  destruct (default_verdict (last_paragraphs_text r0)) as (v & Hv & Hiff & _).
  exists v. split; [exact Hv|]. apply Hiff. rewrite Htext.
  destruct (DocxParserFacts.join_holds newline _ p Hin) as (before & after & ->).
  apply PlaceholderFacts.states_score_inside. exact Hp.
Qed.

(** X25. The placeholder that the fixer adds does not count as a
    statement. A document in which the check found no statement is, after
    a fix by a fixer built from the default configuration, a document
    with the placeholder as its last paragraph, and the check still finds
    no statement in it: it stays on the list of files to fix until a
    score is filled in. *)
Theorem fixed_file_still_reported n year month path create_backup
  (disk disk' : store bytes) r0 template fixed :
  1 <= n -> 0 <= year ->
  FileFixer.init Config.default_config = Ret template ->
  parse_file paragraphs_of (PyInt n) disk path = Parsed r0 ->
  check_text (KPIChecker.init Config.default_config)
    (PyStr (last_paragraphs_text r0)) = Ret absent ->
  fix_file paragraphs_of with_paragraph template year month path
    create_backup disk = Ret (Fixed fixed, disk') ->
  exists r1,
    parse_file paragraphs_of (PyInt n) disk' path = Parsed r1
    /\ content r1 = content r0 ++ [template_added fixed]
    /\ check_text (KPIChecker.init Config.default_config)
         (PyStr (last_paragraphs_text r1)) = Ret absent.
Proof using with_paragraph_adds.
  intros Hn Hyear Htemplate Hparse Hcheck Hfix.
  rewrite TemplateFacts.default_template_configured in Htemplate.
  injection Htemplate as <-.
  apply (FileFixerFacts.fix_file_fixed paragraphs_of with_paragraph) in Hfix
    as (b & texts & disk1 & Hd & Hb & Hformat & _ & _ & _ & _ & ->).
  rewrite TemplateFacts.format_default in Hformat. injection Hformat as Ht.
  set (q := snd (get_current_year_quarter year month)) in *.
  pose proof (TemplateFacts.str_of_int_year year Hyear) as Hy.
  pose proof (TemplateFacts.quarter_is_quarter year month) as Hq. fold q in Hq.
  destruct (parse_file_docx n disk path b texts Hn Hd Hb)
    as (r & Hr & Hc0 & Hl0 & Ht0).
  rewrite Hparse in Hr. injection Hr as <-.
  destruct (parse_file_docx n
              (<[path := File (with_paragraph b (template_added fixed))]> disk1)
              path (with_paragraph b (template_added fixed))
              (texts ++ [template_added fixed]) Hn)
    as (r1 & Hr1 & Hc1 & Hl1 & Ht1).
  { apply lookup_insert_eq. }
  { apply with_paragraph_adds. exact Hb. }
  assert (Hkept : kept (texts ++ [template_added fixed])
                  = kept texts ++ [template_added fixed]).
  { rewrite DocxParserFacts.kept_app, DocxParserFacts.kept_trimmed_one;
      [reflexivity|].
    rewrite <- Ht. apply TemplateFacts.placeholder_trimmed. exact Hy. }
  exists r1. split; [exact Hr1|]. split; [rewrite Hc1, Hc0; exact Hkept|].
  apply default_absent. apply default_absent in Hcheck.
  rewrite Ht1, Hl1, Hkept, last_n_snoc by lia.
  rewrite Ht0, Hl0 in Hcheck.
  destruct (last_n_more (Z.to_nat n) (kept texts)) as (front & Hmore).
  rewrite Hmore in Hcheck.
  destruct (join_tail newline front (last_n (Z.to_nat n - 1) (kept texts)))
    as (before & Hjoin).
  rewrite Hjoin in Hcheck.
  assert (Hrest : ~ states_score
                      (join newline (last_n (Z.to_nat n - 1) (kept texts)))).
  { intros Hs. apply Hcheck.
    apply (PlaceholderFacts.states_score_inside before _ []) in Hs.
    rewrite app_nil_r in Hs. exact Hs. }
  rewrite <- Ht.
  destruct (last_n (Z.to_nat n - 1) (kept texts)) as [|w ws] eqn:Hw.
  - simpl. apply PlaceholderFacts.placeholder_no_statement; assumption.
  - rewrite DocxParserFacts.join_app by discriminate.
    apply PlaceholderFacts.placeholder_adds_no_statement; assumption.
Qed.

End Pipeline.

End PipelineFacts.

(** * The results that [main] computes *)

Module MainFacts.
Import Lang Disk DocxParser Main KPIChecker.

Lemma dict_set_new {V} key (value : V) d :
  ~ In key (fst <$> d) -> dict_set key value d = d ++ [(key, value)].
Proof.
  induction d as [|[k v] d IH]; intros Hnew; [reflexivity|].
  simpl. destruct (String.eqb_spec k key) as [->|_].
  - exfalso. apply Hnew. left. reflexivity.
  - rewrite IH; [reflexivity|]. intros Hin. apply Hnew. right. exact Hin.
Qed.

(** With the default patterns [check_files] returns, file by file. *)
Lemma check_files_default_each file_contents :
  exists results,
    check_files (KPIChecker.init Config.default_config) file_contents = Ret results
    /\ Forall2 (fun (c : string * pyval) (r : string * pydict) =>
                  c.1 = r.1
                  /\ check_text (KPIChecker.init Config.default_config) c.2 = Ret r.2)
         file_contents results.
Proof.
  induction file_contents as [|[f c] rest (results & Hr & Hall)]; simpl.
  - exists []. split; [reflexivity|constructor].
  - destruct (CheckerFacts.check_text_default c) as (v & Hv & _).
    rewrite Hv. simpl. rewrite Hr. simpl.
    exists ((f, v) :: results). split; [reflexivity|].
    constructor; [split; [reflexivity|exact Hv]|exact Hall].
Qed.

Section Main.
Context {bytes : Type}.
Variable paragraphs_of : bytes -> option (list str).

Lemma entry_keys last disk paths :
  fst <$> omap (entry paragraphs_of last disk) paths
  = List.filter (fun path => is_parsed (parse_file paragraphs_of last disk path)) paths.
Proof.
  induction paths as [|p paths IH]; [reflexivity|].
  simpl. unfold entry at 1.
  destruct (parse_file paragraphs_of last disk p); simpl; [exact IH|].
  f_equal. exact IH.
Qed.

Lemma file_contents_entries last disk paths :
  NoDup paths ->
  file_contents_of paragraphs_of last disk paths = omap (entry paragraphs_of last disk) paths.
Proof.
  unfold file_contents_of.
  assert (Hgen : forall acc,
             NoDup paths ->
             (forall p, In p paths -> ~ In p (fst <$> acc)) ->
             fold_left
               (fun file_contents file_path =>
                  match extract_kpi_section paragraphs_of last disk file_path with
                  | (_, Error) => file_contents
                  | (kpi_text, Parsed _) =>
                      dict_set file_path
                        (match kpi_text with Some t => PyStr t | None => PyNone end)
                        file_contents
                  end) paths acc
             = acc ++ omap (entry paragraphs_of last disk) paths).
  { induction paths as [|p paths IH]; intros acc Hnd Hacc.
    - simpl. rewrite app_nil_r. reflexivity.
    - apply NoDup_cons in Hnd as [Hp Hnd]. simpl.
      unfold extract_kpi_section, entry at 1.
      destruct (parse_file paragraphs_of last disk p) as [|r].
      + apply IH; [exact Hnd|]. intros q Hq. apply Hacc. right. exact Hq.
      + rewrite dict_set_new by (apply Hacc; left; reflexivity).
        rewrite IH; [rewrite <- app_assoc; reflexivity|exact Hnd|].
        intros q Hq. rewrite fmap_app. intros Hin.
        apply in_app_or in Hin as [Hin|[<-|[]]].
        * apply (Hacc q); [right; exact Hq|exact Hin].
        * apply Hp. apply list_elem_of_In. exact Hq. }
  intros Hnd. rewrite (Hgen [] Hnd); [reflexivity|]. intros p _ [].
Qed.

Lemma entry_in last disk paths path c :
  In (path, c) (omap (entry paragraphs_of last disk) paths)
  <-> In path paths
      /\ exists r, parse_file paragraphs_of last disk path = Parsed r
                   /\ c = PyStr (last_paragraphs_text r).
Proof.
  rewrite <- !list_elem_of_In, list_elem_of_omap. split.
  - intros (p & Hp & He). unfold entry in He.
    destruct (parse_file paragraphs_of last disk p) as [|r] eqn:Hr; [discriminate|].
    injection He as <- <-. split; [exact Hp|]. exists r. auto.
  - intros (Hp & r & Hr & ->). exists path. split; [exact Hp|].
    unfold entry. rewrite Hr. reflexivity.
Qed.

(** X26. What [main] computes with the default configuration, for scanned
    paths that are all different: [check_files] raises nothing; the
    results are those of the files that could be parsed, in the order of
    the scan; a file has a statement exactly when the text of its last
    ten paragraphs states a score in one of the two wordings; and the
    files to fix are the parsed files whose text does not. *)
Theorem main_results_default (disk : store bytes) docx_files :
  NoDup docx_files ->
  exists results,
    main_results paragraphs_of Config.default_config disk docx_files = Ret results
    /\ fst <$> results
       = List.filter
           (fun path => is_parsed (parse_file paragraphs_of (PyInt 10) disk path))
           docx_files
    /\ (forall path r,
          In (path, r) results ->
          exists parsed,
            parse_file paragraphs_of (PyInt 10) disk path = Parsed parsed
            /\ (r !! "has_kpi_statement" = Some (PyBool true)
                <-> states_score (last_paragraphs_text parsed)))
    /\ (forall path,
          In path (Aggregation.files_to_fix results)
          <-> In path docx_files
              /\ exists parsed,
                   parse_file paragraphs_of (PyInt 10) disk path = Parsed parsed
                   /\ ~ states_score (last_paragraphs_text parsed)).
Proof.
  intros Hnd. unfold main_results.
  assert (Hlast : Config.get "check_last_paragraphs" (PyInt 10) Config.default_config
                  = PyInt 10) by (vm_compute; reflexivity).
  rewrite Hlast, (file_contents_entries (PyInt 10) disk docx_files Hnd).
  destruct (check_files_default_each (omap (entry paragraphs_of (PyInt 10) disk) docx_files))
    as (results & Hr & Hall).
  exists results. split; [exact Hr|].
  assert (Hkeys : fst <$> results = fst <$> omap (entry paragraphs_of (PyInt 10) disk) docx_files).
  { clear Hr. induction Hall as [|? ? ? ? [Hk _] _ IH]; [reflexivity|].
    simpl. f_equal; [symmetry; exact Hk|exact IH]. }
  assert (Hfrom : forall path r,
             In (path, r) results ->
             In path docx_files
             /\ exists parsed,
                  parse_file paragraphs_of (PyInt 10) disk path = Parsed parsed
                  /\ check_text (KPIChecker.init Config.default_config)
                       (PyStr (last_paragraphs_text parsed)) = Ret r).
  { intros path r Hin. apply list_elem_of_In in Hin.
    apply list_elem_of_lookup_1 in Hin as [i Hi].
    destruct (Forall2_lookup_r _ _ _ _ _ Hall Hi) as ([p c] & Hc & Hk & Hv).
    simpl in Hk, Hv. subst p.
    apply list_elem_of_lookup_2, list_elem_of_In, entry_in in Hc
      as (Hp & parsed & Hparsed & ->).
    eauto. }
  assert (Hto : forall path parsed,
             In path docx_files ->
             parse_file paragraphs_of (PyInt 10) disk path = Parsed parsed ->
             exists r,
               In (path, r) results
               /\ check_text (KPIChecker.init Config.default_config)
                    (PyStr (last_paragraphs_text parsed)) = Ret r).
  { intros path parsed Hp Hparsed.
    assert (Hc : In (path, PyStr (last_paragraphs_text parsed))
                   (omap (entry paragraphs_of (PyInt 10) disk) docx_files))
      by (apply entry_in; eauto).
    apply list_elem_of_In, list_elem_of_lookup_1 in Hc as [i Hi].
    destruct (Forall2_lookup_l _ _ _ _ _ Hall Hi) as ([p r] & Hr' & Hk & Hv).
    simpl in Hk, Hv. subst p. exists r.
    split; [apply list_elem_of_In; eapply list_elem_of_lookup_2; exact Hr'|exact Hv]. }
  assert (Hverdict : forall text r,
             check_text (KPIChecker.init Config.default_config) (PyStr text) = Ret r ->
             (r !! "has_kpi_statement" = Some (PyBool true) <-> states_score text)
             /\ (has_kpi r = false <-> ~ states_score text)).
  { intros text r Hv.
    destruct (PipelineFacts.default_verdict text) as (v & Hv' & Hiff & Habs).
    rewrite Hv in Hv'. injection Hv' as <-. split; [exact Hiff|]. split.
    - intros Hk Hs. apply Hiff in Hs. unfold has_kpi, dict_get in Hk.
      rewrite Hs in Hk. discriminate.
    - intros Hnot. rewrite (Habs Hnot). reflexivity. }
  split; [rewrite Hkeys; apply entry_keys|]. split.
  - intros path r Hin. destruct (Hfrom path r Hin) as (_ & parsed & Hparsed & Hv).
    exists parsed. split; [exact Hparsed|]. apply (Hverdict _ _ Hv).
  - intros path. unfold Aggregation.files_to_fix.
    rewrite <- list_elem_of_In, list_elem_of_fmap. split.
    + intros ([p r] & -> & Hin). apply list_elem_of_filter in Hin as [Hk Hin].
      simpl in Hk. apply list_elem_of_In in Hin.
      destruct (Hfrom p r Hin) as (Hp & parsed & Hparsed & Hv).
      split; [exact Hp|]. exists parsed. split; [exact Hparsed|].
      apply (Hverdict _ _ Hv). exact Hk.
    + intros (Hp & parsed & Hparsed & Hnot).
      destruct (Hto path parsed Hp Hparsed) as (r & Hin & Hv).
      exists (path, r). split; [reflexivity|].
      apply list_elem_of_filter. split; [|apply list_elem_of_In; exact Hin].
      simpl. apply (Hverdict _ _ Hv). exact Hnot.
Qed.

End Main.

End MainFacts.

(** * The checker and the configuration share the list of patterns *)

Module SharedFacts.
Import Shared.

Lemma alloc_fresh items (h : gmap loc (list pyval)) :
  h !! (alloc items h).1 = None.
Proof.
  unfold alloc. simpl. apply not_elem_of_dom. apply is_fresh.
Qed.

Lemma resolve_alloc items (h : gmap loc (list pyval)) v :
  (forall l, v = ListAt l -> is_Some (h !! l)) ->
  resolve (alloc items h).2 v = resolve h v.
Proof.
  intros Hv. destruct v as [p|l]; [reflexivity|].
  unfold alloc. simpl. rewrite lookup_insert_ne; [reflexivity|].
  intros <-. destruct (Hv _ eq_refl) as [x Hx].
  pose proof (alloc_fresh items h) as Hf. unfold alloc in Hf. simpl in Hf.
  congruence.
Qed.

Lemma init_well_formed : well_formed init.
Proof.
  unfold init, alloc. cbv beta iota zeta. unfold well_formed. cbn [heap config].
  split.
  - intros key l H.
    destruct (decide (key = "kpi_patterns")) as [->|Hne].
    + rewrite lookup_insert_eq in H. injection H as <-.
      rewrite lookup_insert_eq. eauto.
    + rewrite lookup_insert_ne in H by congruence.
      rewrite lookup_fmap in H.
      destruct (delete "kpi_patterns" Config.default_config !! key); discriminate.
  - intros k1 k2 l H1 H2.
    destruct (decide (k1 = "kpi_patterns")) as [->|Hne1];
      destruct (decide (k2 = "kpi_patterns")) as [->|Hne2]; [reflexivity| | |].
    + rewrite lookup_insert_ne in H2 by congruence. rewrite lookup_fmap in H2.
      destruct (delete "kpi_patterns" Config.default_config !! k2); discriminate.
    + rewrite lookup_insert_ne in H1 by congruence. rewrite lookup_fmap in H1.
      destruct (delete "kpi_patterns" Config.default_config !! k1); discriminate.
    + rewrite lookup_insert_ne in H1 by congruence. rewrite lookup_fmap in H1.
      destruct (delete "kpi_patterns" Config.default_config !! k1); discriminate.
Qed.

(** The heap model and the dictionary of values agree on [set]. *)
Lemma view_set key v s :
  well_formed s -> view (set key v s) = Config.set key v (view s).
Proof.
  intros (Hheap & _). unfold view, set, Config.set.
  destruct v as [| | | |items|]; simpl; try (rewrite fmap_insert; reflexivity).
  rewrite fmap_insert. simpl. rewrite lookup_insert_eq. f_equal.
  apply map_fmap_ext. intros k x Hk.
  apply (resolve_alloc items (heap s) x). intros l ->. eapply Hheap. exact Hk.
Qed.

(** The list that a checker refers to, and what [add_kpi_pattern] does
    to it. *)
Lemma add_in_place pattern s s' l items :
  config s !! "kpi_patterns" = Some (ListAt l) ->
  heap s !! l = Some items ->
  add_kpi_pattern pattern s = Ret s' ->
  config s' = config s
  /\ heap s' = (if existsb (Config.eq_str pattern) items then heap s
                else <[l := items ++ [PyStr pattern]]> (heap s)).
Proof.
  intros Hk Hl. unfold add_kpi_pattern. rewrite Hk, Hk, Hl.
  destruct (existsb (Config.eq_str pattern) items); simpl; intros H;
    injection H as <-; auto.
Qed.

(** X27. A checker built before [add_kpi_pattern] uses the pattern added
    afterwards: it shares the list with the configuration, so after the
    call it checks as a checker built from the changed configuration
    does. *)
Theorem checker_follows_added_pattern pattern s s' :
  well_formed s ->
  is_Some (config s !! "kpi_patterns") ->
  add_kpi_pattern pattern s = Ret s' ->
  resolve (heap s') (patterns (make_checker s)) = Config.get_kpi_patterns (view s')
  /\ Config.add_kpi_pattern pattern (view s) = Ret (view s')
  /\ forall text,
       check_text (heap s') (make_checker s) text
       = KPIChecker.check_text (KPIChecker.init (view s')) text.
Proof.
  intros (Hheap & Hkeys) [v Hv] Hadd.
  assert (Hsame : resolve (heap s') (patterns (make_checker s))
                  = Config.get_kpi_patterns (view s')
                  /\ Config.add_kpi_pattern pattern (view s) = Ret (view s')).
  { unfold make_checker, get_kpi_patterns, Config.get_kpi_patterns, dict_get, view.
    simpl. rewrite Hv. destruct v as [p|l].
    - unfold add_kpi_pattern in Hadd. rewrite Hv in Hadd. rewrite Hv in Hadd.
      destruct p; discriminate.
    - destruct (Hheap _ _ Hv) as [items Hl].
      destruct (add_in_place pattern s s' l items Hv Hl Hadd) as [Hc Hh].
      rewrite lookup_fmap, Hc, Hv. simpl. split; [reflexivity|].
      unfold Config.add_kpi_pattern. rewrite !lookup_fmap, Hv. simpl.
      rewrite lookup_fmap, Hv. simpl. rewrite Hl.
      destruct (existsb (Config.eq_str pattern) items) eqn:Hex; simpl.
      + rewrite Hh. reflexivity.
      + f_equal. apply map_eq. intros key. rewrite Hh.
        destruct (decide (key = "kpi_patterns")) as [->|Hne].
        * rewrite lookup_insert_eq, lookup_fmap, Hv. simpl.
          rewrite lookup_insert_eq. reflexivity.
        * rewrite lookup_insert_ne by congruence. rewrite !lookup_fmap.
          destruct (config s !! key) as [[p|l']|] eqn:Hkey; try reflexivity.
          simpl. rewrite lookup_insert_ne; [reflexivity|].
          intros <-. apply Hne. exact (Hkeys _ _ _ Hkey Hv). }
  destruct Hsame as [Hres Hview]. split; [exact Hres|]. split; [exact Hview|].
  intros text. unfold check_text, KPIChecker.init. rewrite Hres. reflexivity.
Qed.

(** X28. A checker built before the list of patterns is replaced with
    [set] goes on using the list it was built with: it checks as before,
    whatever the configuration now holds. *)
Theorem checker_keeps_replaced_list v s :
  well_formed s ->
  Config.get_kpi_patterns (view (set "kpi_patterns" v s)) = v
  /\ resolve (heap (set "kpi_patterns" v s)) (patterns (make_checker s))
     = resolve (heap s) (patterns (make_checker s))
  /\ forall text,
       check_text (heap (set "kpi_patterns" v s)) (make_checker s) text
       = check_text (heap s) (make_checker s) text.
Proof.
  intros Hwf. pose proof Hwf as (Hheap & _).
  assert (Hres : resolve (heap (set "kpi_patterns" v s)) (patterns (make_checker s))
                 = resolve (heap s) (patterns (make_checker s))).
  { unfold make_checker, get_kpi_patterns. simpl.
    destruct v as [| | | |items|]; try reflexivity.
    unfold set. simpl.
    apply (resolve_alloc items (heap s)). intros l Hl.
    destruct (config s !! "kpi_patterns") as [x|] eqn:Hk; [|discriminate].
    subst x. eapply Hheap. exact Hk. }
  split; [|split; [exact Hres|]].
  - rewrite (view_set _ _ _ Hwf).
    unfold Config.get_kpi_patterns, dict_get, Config.set.
    rewrite lookup_insert_eq. reflexivity.
  - intros text. unfold check_text. rewrite Hres. reflexivity.
Qed.

End SharedFacts.

(** * The properties on concrete inputs *)

Module Examples.
Import KPIChecker.

(* Closed equations are settled by evaluating both sides. *)
Ltac by_evaluation :=
  lazymatch goal with
  | |- ?a = ?b => vm_cast_no_check (@eq_refl _ b)
  end.

Lemma check_text_lowest_index_witness :
  let self := init Config.default_config in
  let text := u "KPI 自评得分 94 分，2024年第四季度KPI考核自评85分" in
  (exists m,
     check_text self (PyStr text) = extract (PyStr <$> Config.default_kpi_patterns) 0 m
     /\ fst (check_text_trace self (PyStr text)) = seq 0 1
     /\ (forall j, In j (fst (check_text_trace self (PyStr text))) <-> (j <= 0)%nat))
  /\ check_text self (PyStr text)
     = Ret (verdict (PyStr (u "85"))
              (PyStr (u "(\d{4})年?第?[一二三四]季度KPI考核自评(\d{1,3})分"))
              (PyStr (u "2024年第四季度KPI考核自评85分"))
              (PyStr (u "2024"))).
Proof.
  intros self text. split; [|by_evaluation].
  eexists.
  eapply (CheckerFacts.check_text_lowest_index self).
  - vm_compute. discriminate.
  - reflexivity.
  - vm_compute. reflexivity.
  - reflexivity.
  - vm_compute. reflexivity.
  - intros j q _ _. lia.
Defined.

Lemma check_text_absent_witness :
  let self := init Config.default_config in
  check_text self (PyStr (u "本季度工作总结：无相关内容")) = Ret absent
  /\ check_text self (PyStr (u "   ")) = Ret absent.
Proof.
  intros self.
  destruct (CheckerFacts.check_text_absent self) as (_ & _ & H & _).
  split.
  - eapply H; [reflexivity | vm_compute; reflexivity |].
    repeat (constructor; [vm_compute; reflexivity|]). constructor.
  - eapply H; [reflexivity | vm_compute; reflexivity |].
    repeat (constructor; [vm_compute; reflexivity|]). constructor.
Defined.



(** C2, counterexample. For the text of the scenario the score field is
    the string "85", not the integer 85. *)
Lemma check_text_score_not_integer :
  exists v,
    check_text (init Config.default_config)
      (PyStr (u "2024年第四季度KPI考核自评85分")) = Ret v
    /\ v !! "score" = Some (PyStr (u "85"))
    /\ v !! "score" <> Some (PyInt 85).
Proof.
  exists (verdict (PyStr (u "85"))
            (PyStr (u "(\d{4})年?第?[一二三四]季度KPI考核自评(\d{1,3})分"))
            (PyStr (u "2024年第四季度KPI考核自评85分"))
            (PyStr (u "2024"))).
  split; [by_evaluation|].
  assert (H : verdict (PyStr (u "85"))
            (PyStr (u "(\d{4})年?第?[一二三四]季度KPI考核自评(\d{1,3})分"))
            (PyStr (u "2024年第四季度KPI考核自评85分"))
            (PyStr (u "2024")) !! "score" = Some (PyStr (u "85")))
    by by_evaluation.
  split; [exact H|]. rewrite H. discriminate.
Qed.

Lemma check_text_score_is_captured_text_witness :
  let self := init Config.default_config in
  let text := u "2024年第四季度KPI考核自评85分" in
  let v := verdict (PyStr (u "85"))
             (PyStr (u "(\d{4})年?第?[一二三四]季度KPI考核自评(\d{1,3})分"))
             (PyStr text) (PyStr (u "2024")) in
  check_text self (PyStr text) = Ret v
  /\ v !! "has_kpi_statement" = Some (PyBool true)
  /\ v !! "score" = Some (PyStr (u "85"))
  /\ v !! "year" = Some (PyStr (u "2024"))
  /\ v !! "matching_pattern" = (PyStr <$> Config.default_kpi_patterns) !! 0%nat
  /\ distribute [("a.docx", v)] ∅ = Ret {[ 85 := 1 ]}.
Proof.
  intros self text v.
  assert (Hv : check_text self (PyStr text) = Ret v) by by_evaluation.
  epose proof (CheckerFacts.check_text_score_is_captured_text
                 self _ _ text 0 _ _ _ v) as H.
  edestruct H as (_ & H1 & H2 & H3 & H4 & _ & _ & H7).
  - vm_compute. discriminate.
  - reflexivity.
  - vm_compute. reflexivity.
  - reflexivity.
  - vm_compute. reflexivity.
  - intros j q _ _. lia.
  - exact Hv.
  - split; [exact Hv|]. split; [exact H1|].
    assert (Hs : v !! "score" = Some (PyStr (u "85"))) by by_evaluation.
    split; [exact Hs|]. split; [by_evaluation|]. split; [exact H4|].
    apply (H7 "a.docx" (u "85") 85 Hs); [vm_compute; discriminate | reflexivity].
Defined.

(** C5, counterexample. With a sixth pattern whose score group is
    optional, the text "KPI自评分" is answered with [has_kpi_statement]
    true and with the pattern and the matched text set, but with the score
    [None]. *)
Lemma check_text_true_without_score :
  exists v,
    check_text
      (of_patterns (Config.default_kpi_patterns ++ [u "KPI自评(\d{1,3})?分"]))
      (PyStr (u "KPI自评分")) = Ret v
    /\ v !! "has_kpi_statement" = Some (PyBool true)
    /\ v !! "score" = Some PyNone
    /\ v !! "matching_pattern" = Some (PyStr (u "KPI自评(\d{1,3})?分"))
    /\ v !! "match_text" = Some (PyStr (u "KPI自评分")).
Proof.
  exists (verdict PyNone (PyStr (u "KPI自评(\d{1,3})?分")) (PyStr (u "KPI自评分"))
            PyNone).
  repeat apply conj; by_evaluation.
Qed.

Lemma check_text_fields_together_witness :
  let self := init Config.default_config in
  let text := PyStr (u "2024年第四季度KPI考核自评85分") in
  exists v sc,
    check_text self text = Ret v
    /\ v !! "has_kpi_statement" = Some (PyBool true)
    /\ v !! "score" = Some sc /\ sc <> PyNone.
Proof.
  intros self text.
  exists (verdict (PyStr (u "85"))
            (PyStr (u "(\d{4})年?第?[一二三四]季度KPI考核自评(\d{1,3})分"))
            (PyStr (u "2024年第四季度KPI考核自评85分"))
            (PyStr (u "2024"))).
  edestruct (CheckerFacts.check_text_fields_together self text)
    as (b & sc & pat & mt & yr & Hb & Hsc & _ & _ & _ & _ & _ & _ & _);
    [by_evaluation|].
  exists sc. split; [by_evaluation|]. split; [by_evaluation|].
  split; [exact Hsc|].
  assert (Hs : verdict (PyStr (u "85"))
            (PyStr (u "(\d{4})年?第?[一二三四]季度KPI考核自评(\d{1,3})分"))
            (PyStr (u "2024年第四季度KPI考核自评85分"))
            (PyStr (u "2024")) !! "score" = Some (PyStr (u "85")))
    by by_evaluation.
  rewrite Hs in Hsc. injection Hsc as <-. discriminate.
Defined.

(** C3, counterexample. A result returned by [check_text] itself, for a
    pattern list with an optional score group, counts as a file with a
    statement and has no score: [files_with_kpi] is 1 and the histogram is
    empty. *)
Lemma analyze_results_counts_differ :
  exists results s,
    check_files
      (of_patterns (Config.default_kpi_patterns ++ [u "KPI自评(\d{1,3})?分"]))
      [("a.docx", PyStr (u "KPI自评分"))] = Ret results
    /\ analyze_results results = Ret s
    /\ files_with_kpi s = 1
    /\ sum_counts (score_distribution s) = 0
    /\ sum_counts (score_distribution s) <> files_with_kpi s.
Proof.
  exists
    [("a.docx",
      verdict PyNone (PyStr (u "KPI自评(\d{1,3})?分")) (PyStr (u "KPI自评分"))
        PyNone)],
    {| total_files := 1; files_with_kpi := 1; files_without_kpi := 0;
       score_distribution := ∅; average_score := NFloat (S754_zero false) |}.
  split; [by_evaluation|]. split; [by_evaluation|].
  simpl. rewrite AggregatorFacts.sum_counts_empty. repeat split. discriminate.
Qed.

Lemma analyze_results_counts_witness :
  let p := PyStr (u "KPI考核自评(\d{1,3})分") in
  let results :=
    [ ("a.docx", verdict (PyStr (u "80")) p (PyStr (u "KPI考核自评80分")) PyNone);
      ("b.docx", verdict (PyStr (u "90")) p (PyStr (u "KPI考核自评90分")) PyNone);
      ("c.docx", absent);
      ("d.docx", verdict (PyStr (u "100")) p (PyStr (u "KPI考核自评100分")) PyNone) ] in
  let s :=
    {| total_files := 4; files_with_kpi := 3; files_without_kpi := 1;
       score_distribution := <[100 := 1]> (<[90 := 1]> (<[80 := 1]> ∅));
       average_score := NFloat (Float.from_int 90) |} in
  analyze_results results = Ret s
  /\ files_with_kpi s + files_without_kpi s = total_files s
  /\ sum_counts (score_distribution s) = files_with_kpi s.
Proof.
  intros p results s.
  assert (Hs : analyze_results results = Ret s) by by_evaluation.
  destruct (AggregatorFacts.analyze_results_counts results s Hs) as (A & _ & C).
  split; [exact Hs|]. split; [exact A|]. apply C.
  unfold results.
  repeat (apply List.Forall_cons; [by_evaluation|]). apply List.Forall_nil.
Defined.


Lemma add_kpi_pattern_appends_witness :
  let new_pattern := u "绩效自评(\d{1,3})分" in
  let old_pattern := u "KPI考核自评(\d{1,3})分" in
  (exists config',
     Config.add_kpi_pattern new_pattern Config.default_config = Ret config'
     /\ Config.patterns_list config'
        = Some (PyStr <$> (Config.default_kpi_patterns ++ [new_pattern])))
  /\ (exists config',
        Config.add_kpi_pattern old_pattern Config.default_config = Ret config'
        /\ config' = Config.default_config).
Proof.
  intros new_pattern old_pattern.
  assert (Hl : Config.patterns_list Config.default_config
               = Some (PyStr <$> Config.default_kpi_patterns)) by by_evaluation.
  split.
  - destruct (ConfigFacts.add_kpi_pattern_appends new_pattern _ _ Hl)
      as (config' & Hadd & _ & Hnew & _).
    exists config'. split; [exact Hadd|]. rewrite Hnew.
    + rewrite fmap_app. reflexivity.
    + intros Hin. apply ConfigFacts.existsb_eq_str in Hin.
      vm_compute in Hin. discriminate.
  - destruct (ConfigFacts.add_kpi_pattern_appends old_pattern _ _ Hl)
      as (config' & Hadd & Hold & _).
    exists config'. split; [exact Hadd|]. apply Hold.
    apply ConfigFacts.existsb_eq_str. vm_compute. reflexivity.
Defined.

Lemma save_then_load_keeps_patterns_witness :
  let patterns :=
    PyList (PyStr <$> (Config.default_kpi_patterns ++ [u "绩效自评(\d{1,3})分"])) in
  let config := <["kpi_patterns" := patterns]> Config.default_config in
  exists config',
    Config.load_config "config.json"
      (Config.save_config "config.json" config ∅) Config.default_config
      = Ret config'
    /\ Config.get_kpi_patterns config' = patterns.
Proof.
  intros patterns config.
  destruct (ConfigFacts.save_then_load_keeps_patterns "config.json" config ∅ patterns)
    as (config' & Hload & _ & Hget & _).
  - rewrite lookup_empty. discriminate.
  - apply lookup_insert_eq.
  - exists config'. split; [exact Hload|]. rewrite Hget.
    unfold Config.get_kpi_patterns, dict_get, config.
    rewrite lookup_insert_eq. reflexivity.
Defined.

Lemma histogram_counts_witness :
  analyze_results Samples.four_results = Ret Samples.four_summary
  /\ forall k,
       score_distribution Samples.four_summary !! k =
       if Aggregation.count_score k Samples.four_results =? 0 then None
       else Some (Aggregation.count_score k Samples.four_results).
Proof.
  assert (Hs : analyze_results Samples.four_results = Ret Samples.four_summary)
    by by_evaluation.
  split; [exact Hs|].
  exact (AggregationFacts.histogram_counts _ _ Hs).
Defined.

Lemma analyze_results_any_order_witness :
  analyze_results (rev Samples.four_results) = Ret Samples.four_summary.
Proof.
  apply (AggregationFacts.analyze_results_any_order Samples.four_results).
  - apply Permutation_rev.
  - by_evaluation.
Defined.


Lemma summary_bounds_witness :
  0 <= files_with_kpi Samples.four_summary <= total_files Samples.four_summary
  /\ 0 <= files_without_kpi Samples.four_summary <= total_files Samples.four_summary
  /\ (forall k n, score_distribution Samples.four_summary !! k = Some n ->
                  1 <= n <= total_files Samples.four_summary).
Proof.
  apply (AggregationFacts.summary_bounds Samples.four_results).
  by_evaluation.
Defined.

Lemma check_files_keeps_files_witness :
  let self := init Config.default_config in
  let results :=
    [ ("a.docx", verdict (PyStr (u "80")) (PyStr (u "季度KPI考核自评(\d{1,3})分"))
                   (PyStr (u "季度KPI考核自评80分")) PyNone);
      ("b.docx", absent) ] in
  check_files self Samples.two_files = Ret results
  /\ fst <$> results = fst <$> Samples.two_files
  /\ (exists e',
        check_files (of_patterns [u "("]) Samples.two_files = Raise e').
Proof.
  intros self results.
  assert (Hr : check_files self Samples.two_files = Ret results) by by_evaluation.
  destruct (AggregationFacts.check_files_keeps_files self Samples.two_files)
    as (A & _).
  destruct (AggregationFacts.check_files_keeps_files (of_patterns [u "("])
              Samples.two_files) as (_ & B).
  split; [exact Hr|]. split; [exact (proj1 (A results Hr))|].
  apply (B ("b.docx", PyStr (u "工作总结")) ReError).
  - right. left. reflexivity.
  - by_evaluation.
Defined.

Lemma files_to_fix_count_witness :
  Aggregation.files_to_fix Samples.four_results = ["c.docx"]
  /\ Z.of_nat (length (Aggregation.files_to_fix Samples.four_results))
     = files_without_kpi Samples.four_summary.
Proof.
  split; [by_evaluation|].
  apply (AggregationFacts.files_to_fix_count Samples.four_results).
  by_evaluation.
Defined.

Lemma check_text_recognises_witness :
  let self := init Config.default_config in
  let text := u "本季度KPI考核自评80分。" in
  let v := verdict (PyStr (u "80")) (PyStr (u "季度KPI考核自评(\d{1,3})分"))
             (PyStr (u "季度KPI考核自评80分")) PyNone in
  check_text self (PyStr text) = Ret v
  /\ (v !! "has_kpi_statement" = Some (PyBool true)
      <-> exists i p, default_compiled !! i = Some p
                      /\ Lang.occurs (Re.p_code p) text).
Proof.
  intros self text v.
  assert (Hv : check_text self (PyStr text) = Ret v) by by_evaluation.
  split; [exact Hv|].
  apply (CheckTextFacts.check_text_recognises self
           (PyStr <$> Config.default_kpi_patterns) default_compiled text v).
  - vm_compute. discriminate.
  - reflexivity.
  - vm_compute. reflexivity.
  - exact Hv.
Defined.

Lemma check_text_bad_pattern_witness :
  let self := of_patterns [u "KPI考核自评(\d{1,3})分"; u "("] in
  check_text self (PyStr (u "KPI考核自评80分")) = Raise ReError
  /\ check_text self (PyStr []) = Ret absent
  /\ check_text self PyNone = Ret absent.
Proof.
  intros self.
  edestruct (CheckTextFacts.check_text_bad_pattern self
               [PyStr (u "KPI考核自评(\d{1,3})分")] (PyStr (u "(")) [])
    as (A & B & C).
  - reflexivity.
  - vm_compute. reflexivity.
  - vm_compute. reflexivity.
  - discriminate.
  - split; [|split; [exact B|apply C; reflexivity]].
    apply A. vm_compute. discriminate.
Defined.

Lemma check_text_missing_group_witness :
  check_text (of_patterns [u "KPI考核自评(\d{1,3})分"]) (PyStr (u "KPI考核自评82分"))
  = Raise IndexError.
Proof.
  eapply (CheckTextFacts.check_text_missing_group
            (of_patterns [u "KPI考核自评(\d{1,3})分"]) _ _ _ 0).
  - vm_compute. discriminate.
  - reflexivity.
  - vm_compute. reflexivity.
  - reflexivity.
  - vm_compute. reflexivity.
  - intros j q _ _. lia.
  - vm_compute. lia.
Defined.


Lemma load_config_merges_witness :
  let user_config : pydict :=
    <[ "report" := PyDict (<[ "default_format" := PyStr (u "txt") ]> ∅) ]> ∅ in
  let disk : Config.fs := <[ "user.json" := Config.File (Config.Json (PyDict user_config)) ]> ∅ in
  exists config',
    Config.load_config "user.json" disk Config.default_config = Ret config'
    /\ config' !! "kpi_patterns" = Config.default_config !! "kpi_patterns"
    /\ exists d,
         config' !! "report" = Some (PyDict d)
         /\ d !! "default_format" = Some (PyStr (u "txt"))
         /\ d !! "txt_filename" = Some (PyStr (u "KPI检查报告.txt")).
Proof.
  intros user_config disk.
  destruct (ConfigMoreFacts.load_config_merges "user.json" disk
              Config.default_config user_config)
    as (config' & Hload & Hkeep & Hmerge & _).
  - apply lookup_insert_eq.
  - exists config'. split; [exact Hload|]. split.
    + apply Hkeep. unfold user_config.
      rewrite lookup_insert_ne by discriminate. apply lookup_empty.
    + edestruct (Hmerge "report") as (d & Hd & Hk).
      * apply lookup_insert_eq.
      * unfold Config.default_config.
        rewrite lookup_insert_ne by discriminate.
        rewrite lookup_insert_ne by discriminate.
        apply lookup_insert_eq.
      * exists d. split; [exact Hd|]. split.
        -- rewrite Hk, lookup_insert_eq. reflexivity.
        -- rewrite Hk. rewrite lookup_insert_ne by discriminate.
           rewrite lookup_empty.
           rewrite lookup_insert_ne by discriminate.
           rewrite lookup_insert_ne by discriminate.
           apply lookup_insert_eq.
Defined.

Lemma save_then_load_same_object_witness :
  let disk := Config.save_config "config.json" Config.default_config ∅ in
  Config.load_config "config.json" disk Config.default_config
  = Ret Config.default_config.
Proof.
  intros disk.
  apply (ConfigMoreFacts.save_then_load_same_object "config.json"
           Config.default_config ∅).
  rewrite lookup_empty. discriminate.
Defined.

Lemma add_kpi_pattern_idempotent_witness :
  let config : pydict := <[ "kpi_patterns" := PyList [PyStr (u "a(\d)")] ]> ∅ in
  let config' : pydict :=
    <[ "kpi_patterns" := PyList [PyStr (u "a(\d)"); PyStr (u "b(\d)")] ]> config in
  Config.add_kpi_pattern (u "b(\d)") config = Ret config'
  /\ Config.add_kpi_pattern (u "b(\d)") config' = Ret config'.
Proof.
  intros config config'.
  assert (H : Config.add_kpi_pattern (u "b(\d)") config = Ret config').
  { unfold Config.add_kpi_pattern, config. rewrite lookup_insert_eq.
    simpl. reflexivity. }
  split; [exact H|].
  apply (ConfigMoreFacts.add_kpi_pattern_idempotent _ _ _ H).
Defined.

Lemma config_keeps_default_keys_witness :
  let config := Config.set "kpi_patterns" (PyList []) Config.default_config in
  (forall key, is_Some (Config.default_config !! key) -> is_Some (config !! key))
  /\ config !! "kpi_patterns" = Some (Config.get_kpi_patterns config).
Proof.
  intros config.
  apply ConfigMoreFacts.config_keeps_default_keys.
  apply ConfigStates.reach_set.
  apply (ConfigStates.reach_init None ∅). reflexivity.
Defined.

Lemma parse_file_window_witness :
  let r :=
    {| DocxParser.file_path := "a.docx"; DocxParser.file_name := "a.docx";
       DocxParser.total_paragraphs := 2;
       DocxParser.content := [u "工作总结"; u "本季度完成三项任务"];
       DocxParser.last_paragraphs := [u "本季度完成三项任务"];
       DocxParser.last_paragraphs_text := u "本季度完成三项任务" |} in
  DocxParser.parse_file Samples.plain_paragraphs_of (PyInt 1) Samples.two_on_disk
    "a.docx" = DocxParser.Parsed r
  /\ DocxParser.last_paragraphs r = DocxParser.last_n 1 (DocxParser.content r).
Proof.
  intros r.
  assert (H : DocxParser.parse_file Samples.plain_paragraphs_of (PyInt 1)
                Samples.two_on_disk "a.docx" = DocxParser.Parsed r)
    by by_evaluation.
  split; [exact H|].
  destruct (DocxParserFacts.parse_file_window _ _ _ _ _ H) as (_ & _ & Hw & _).
  apply Hw. lia.
Defined.

Lemma parse_file_content_witness :
  exists r b texts,
    DocxParser.parse_file Samples.plain_paragraphs_of (PyInt 0) Samples.two_on_disk
      "a.docx" = DocxParser.Parsed r
    /\ Samples.two_on_disk !! "a.docx" = Some (Disk.File b)
    /\ Samples.plain_paragraphs_of b = Some texts
    /\ Forall (fun p => DocxParser.trimmed p /\ strip p = p) (DocxParser.content r).
Proof.
  assert (H : DocxParser.parse_file Samples.plain_paragraphs_of (PyInt 0)
                Samples.two_on_disk "a.docx"
              = DocxParser.Parsed
                  {| DocxParser.file_path := "a.docx";
                     DocxParser.file_name := "a.docx";
                     DocxParser.total_paragraphs := 2;
                     DocxParser.content := [u "工作总结"; u "本季度完成三项任务"];
                     DocxParser.last_paragraphs := [u "工作总结"; u "本季度完成三项任务"];
                     DocxParser.last_paragraphs_text :=
                       u "工作总结" ++ [10%N] ++ u "本季度完成三项任务" |})
    by by_evaluation.
  destruct (DocxParserFacts.parse_file_content _ _ _ _ _ H)
    as (b & texts & Hd & Hb & _ & Hall & _).
  eexists _, b, texts. split; [exact H|]. auto.
Defined.

Lemma get_text_blocks_cover_witness :
  DocxParser.get_text_blocks Samples.plain_paragraphs_of (PyInt 10)
    Samples.two_on_disk "a.docx" 0 = Raise ValueError
  /\ DocxParser.get_text_blocks Samples.plain_paragraphs_of (PyInt 10)
       Samples.two_on_disk "b.docx" 0 = Ret []
  /\ exists blocks,
       DocxParser.get_text_blocks Samples.plain_paragraphs_of (PyInt 10)
         Samples.two_on_disk "a.docx" 1 = Ret blocks
       /\ DocxParser.join DocxParser.newline blocks
          = u "工作总结" ++ [10%N] ++ u "本季度完成三项任务".
Proof.
  assert (H : DocxParser.parse_file Samples.plain_paragraphs_of (PyInt 10)
                Samples.two_on_disk "a.docx"
              = DocxParser.Parsed
                  {| DocxParser.file_path := "a.docx";
                     DocxParser.file_name := "a.docx";
                     DocxParser.total_paragraphs := 2;
                     DocxParser.content := [u "工作总结"; u "本季度完成三项任务"];
                     DocxParser.last_paragraphs := [u "工作总结"; u "本季度完成三项任务"];
                     DocxParser.last_paragraphs_text :=
                       u "工作总结" ++ [10%N] ++ u "本季度完成三项任务" |})
    by by_evaluation.
  split; [|split].
  - destruct (DocxParserFacts.get_text_blocks_cover Samples.plain_paragraphs_of
                (PyInt 10) Samples.two_on_disk "a.docx" 0) as [A _].
    destruct (A _ H) as (_ & B & _). apply B. reflexivity.
  - destruct (DocxParserFacts.get_text_blocks_cover Samples.plain_paragraphs_of
                (PyInt 10) Samples.two_on_disk "b.docx" 0) as [_ A].
    apply A. by_evaluation.
  - destruct (DocxParserFacts.get_text_blocks_cover Samples.plain_paragraphs_of
                (PyInt 10) Samples.two_on_disk "a.docx" 1) as [A _].
    destruct (A _ H) as (B & _). destruct B as (blocks & Hb & Hj & _); [lia|].
    exists blocks. split; [exact Hb|]. rewrite Hj. by_evaluation.
Defined.

Lemma plain_adds : forall b texts t,
  Samples.plain_paragraphs_of b = Some texts ->
  Samples.plain_paragraphs_of (Samples.plain_with_paragraph b t) = Some (texts ++ [t]).
Proof. intros b texts t H. unfold Samples.plain_paragraphs_of in H. subst b. reflexivity. Defined.


Lemma fix_then_restore_witness :
  exists r disk' disk'',
    FileFixer.fix_file Samples.plain_paragraphs_of Samples.plain_with_paragraph
      (PyStr FileFixer.default_template) 2024 11 "a.docx" true Samples.two_on_disk
      = Ret (FileFixer.Fixed r, disk')
    /\ FileFixer.restore_from_backup "a.docx" disk' = (true, disk'')
    /\ disk'' !! "a.docx" = Samples.two_on_disk !! "a.docx".
Proof.
  set (t := u "2024年第四季度KPI考核自评__分。").
  set (r := {| FileFixer.file_path := "a.docx"; FileFixer.template_added := t;
               FileFixer.backup_created := true;
               FileFixer.backup_path := Some "a.docx.bak" |}).
  set (disk' := <[ "a.docx" := Disk.File (Samples.plain_with_paragraph Samples.report t) ]>
                  (<[ "a.docx.bak" := Disk.File Samples.report ]> Samples.two_on_disk)).
  assert (H : FileFixer.fix_file Samples.plain_paragraphs_of Samples.plain_with_paragraph
                (PyStr FileFixer.default_template) 2024 11 "a.docx" true
                Samples.two_on_disk = Ret (FileFixer.Fixed r, disk'))
    by by_evaluation.
  destruct (FileFixerFacts.fix_then_restore Samples.plain_paragraphs_of
              Samples.plain_with_paragraph (PyStr FileFixer.default_template)
              2024 11 "a.docx" Samples.two_on_disk disk' r)
    as (disk'' & Hr & Hp & _).
  - unfold Samples.two_on_disk, FileFixer.backup_of.
    rewrite lookup_insert_ne by discriminate.
    rewrite lookup_insert_ne by discriminate.
    rewrite lookup_empty. discriminate.
  - exact H.
  - exists r, disk', disk''. auto.
Defined.


Lemma failed_fix_leaves_backup_witness :
  FileFixer.fix_file Samples.plain_paragraphs_of Samples.plain_with_paragraph
    (PyStr FileFixer.default_template) 2024 11 "b.docx" true Samples.two_on_disk
  = Ret (FileFixer.NotFixed, <[ "b.docx.bak" := Disk.File None ]> Samples.two_on_disk)
  /\ FileFixer.fix_file Samples.plain_paragraphs_of Samples.plain_with_paragraph
       (PyStr (u "{name}的KPI")) 2024 11 "a.docx" false Samples.two_on_disk
     = Ret (FileFixer.NotFixed, Samples.two_on_disk).
Proof.
  split.
  - apply (FileFixerFacts.failed_fix_leaves_backup Samples.plain_paragraphs_of
             Samples.plain_with_paragraph _ 2024 11 "b.docx" Samples.two_on_disk None).
    + unfold Samples.two_on_disk. rewrite lookup_insert_ne by discriminate.
      apply lookup_insert_eq.
    + unfold Samples.two_on_disk, FileFixer.backup_of.
      rewrite lookup_insert_ne by discriminate.
      rewrite lookup_insert_ne by discriminate.
      rewrite lookup_empty. discriminate.
    + left. reflexivity.
  - apply (FileFixerFacts.failed_fix_leaves_backup Samples.plain_paragraphs_of
             Samples.plain_with_paragraph _ 2024 11 "a.docx" Samples.two_on_disk
             Samples.report).
    + apply lookup_insert_eq.
    + unfold Samples.two_on_disk, FileFixer.backup_of.
      rewrite lookup_insert_ne by discriminate.
      rewrite lookup_insert_ne by discriminate.
      rewrite lookup_empty. discriminate.
    + right. exists FileFixer.KeyError. split; [by_evaluation|discriminate].
Defined.

Lemma statement_in_last_paragraphs_found_witness :
  let text := u "工作总结" ++ [10%N] ++ u "本季度KPI考核自评80分。" in
  exists v,
    check_text (init Config.default_config) (PyStr text) = Ret v
    /\ v !! "has_kpi_statement" = Some (PyBool true).
Proof.
  intros text.
  set (r := {| DocxParser.file_path := "c.docx"; DocxParser.file_name := "c.docx";
               DocxParser.total_paragraphs := 2;
               DocxParser.content := [u "工作总结"; u "本季度KPI考核自评80分。"];
               DocxParser.last_paragraphs := [u "工作总结"; u "本季度KPI考核自评80分。"];
               DocxParser.last_paragraphs_text := text |}).
  destruct (PipelineFacts.statement_in_last_paragraphs_found
              Samples.plain_paragraphs_of (PyInt 10) Samples.scored_on_disk "c.docx"
              text r (u "本季度KPI考核自评80分。")) as [_ H].
  - by_evaluation.
  - right. left. reflexivity.
  - exists (u "本季度"), (u "80"), (u "。"). split.
    + split; [vm_compute; lia|].
      repeat (constructor; [vm_compute; reflexivity|]). constructor.
    + left. by_evaluation.
  - exact H.
Defined.

Lemma fixed_file_still_reported_witness :
  let t := u "2024年第四季度KPI考核自评__分。" in
  let disk' := <[ "a.docx" := Disk.File (Samples.plain_with_paragraph Samples.report t) ]>
                 (<[ "a.docx.bak" := Disk.File Samples.report ]> Samples.two_on_disk) in
  exists r1,
    DocxParser.parse_file Samples.plain_paragraphs_of (PyInt 10) disk' "a.docx"
      = DocxParser.Parsed r1
    /\ check_text (init Config.default_config)
         (PyStr (DocxParser.last_paragraphs_text r1)) = Ret absent.
Proof.
  intros t disk'.
  set (r0 := {| DocxParser.file_path := "a.docx"; DocxParser.file_name := "a.docx";
                DocxParser.total_paragraphs := 2;
                DocxParser.content := [u "工作总结"; u "本季度完成三项任务"];
                DocxParser.last_paragraphs := [u "工作总结"; u "本季度完成三项任务"];
                DocxParser.last_paragraphs_text :=
                  u "工作总结" ++ [10%N] ++ u "本季度完成三项任务" |}).
  set (r := {| FileFixer.file_path := "a.docx"; FileFixer.template_added := t;
               FileFixer.backup_created := true;
               FileFixer.backup_path := Some "a.docx.bak" |}).
  destruct (PipelineFacts.fixed_file_still_reported Samples.plain_paragraphs_of
              Samples.plain_with_paragraph plain_adds 10 2024 11 "a.docx" true
              Samples.two_on_disk disk' r0 (PyStr FileFixer.default_template) r)
    as (r1 & Hr1 & _ & Hc).
  - lia.
  - lia.
  - exact TemplateFacts.default_template_configured.
  - by_evaluation.
  - by_evaluation.
  - by_evaluation.
  - exists r1. auto.
Defined.

Lemma main_results_default_witness :
  exists results,
    Main.main_results Samples.plain_paragraphs_of Config.default_config
      Samples.two_on_disk ["a.docx"; "b.docx"] = Ret results
    /\ fst <$> results = ["a.docx"].
Proof.
  destruct (MainFacts.main_results_default Samples.plain_paragraphs_of
              Samples.two_on_disk ["a.docx"; "b.docx"])
    as (results & H & Hk & _).
  - apply NoDup_cons. split.
    + intros Hin. apply list_elem_of_singleton in Hin. discriminate.
    + apply NoDup_singleton.
  - exists results. split; [exact H|]. rewrite Hk. by_evaluation.
Defined.

Lemma one_pattern_well_formed : Shared.well_formed Samples.one_pattern.
Proof.
  unfold Shared.well_formed, Samples.one_pattern. cbn [Shared.heap Shared.config].
  split.
  - intros key l H. apply lookup_insert_Some in H as [[_ H]|[_ H]].
    + injection H as <-. rewrite lookup_insert_eq. eauto.
    + rewrite lookup_empty in H. discriminate.
  - intros k1 k2 l H1 H2.
    apply lookup_insert_Some in H1 as [[<- _]|[_ H1]];
      [|rewrite lookup_empty in H1; discriminate].
    apply lookup_insert_Some in H2 as [[<- _]|[_ H2]];
      [reflexivity|rewrite lookup_empty in H2; discriminate].
Defined.

Lemma checker_follows_added_pattern_witness :
  let s' :=
    {| Shared.heap := <[ 0%nat := [PyStr (u "自评(\d+)分"); PyStr (u "得分(\d+)") ] ]>
                        (Shared.heap Samples.one_pattern);
       Shared.config := Shared.config Samples.one_pattern |} in
  Shared.add_kpi_pattern (u "得分(\d+)") Samples.one_pattern = Ret s'
  /\ Shared.resolve (Shared.heap s')
       (Shared.patterns (Shared.make_checker Samples.one_pattern))
     = Config.get_kpi_patterns (Shared.view s').
Proof.
  intros s'.
  assert (H : Shared.add_kpi_pattern (u "得分(\d+)") Samples.one_pattern = Ret s').
  { unfold Shared.add_kpi_pattern, Samples.one_pattern.
    cbn [Shared.heap Shared.config]. rewrite !lookup_insert_eq.
    cbn [Shared.heap Shared.config]. rewrite !lookup_insert_eq. reflexivity. }
  split; [exact H|].
  apply (SharedFacts.checker_follows_added_pattern (u "得分(\d+)")
           Samples.one_pattern s' one_pattern_well_formed).
  - eexists. apply lookup_insert_eq.
  - exact H.
Defined.

Lemma checker_keeps_replaced_list_witness :
  let v := PyList [PyStr (u "得分(\d+)")] in
  let s' := Shared.set "kpi_patterns" v Samples.one_pattern in
  Config.get_kpi_patterns (Shared.view s') = v
  /\ Shared.resolve (Shared.heap s')
       (Shared.patterns (Shared.make_checker Samples.one_pattern))
     = Shared.resolve (Shared.heap Samples.one_pattern)
         (Shared.patterns (Shared.make_checker Samples.one_pattern)).
Proof.
  intros v s'.
  destruct (SharedFacts.checker_keeps_replaced_list v Samples.one_pattern
              one_pattern_well_formed) as (A & B & _).
  split; [exact A|exact B].
Defined.

End Examples.
